(** * UniDiffuser sampling pipeline (ppdiffusers): latent codec, guided noise
      prediction, denoising loop and mode dispatch.

    Shallow embedding of
      ppdiffusers/pipelines/unidiffuser/pipeline_unidiffuser.py
    (class [UniDiffuserPipeline]) and of [prepare_latents] of the sibling
      ppdiffusers/pipelines/unidiffuser/pipeline_unidiffuser_t.py.
    Further covered: [t_nnet] of that file, the module-level codec and the
    two noise predictors of
      ppdiffusers/pipelines/unidiffuser/pipeline_unidiffuser_t2i2t.py
    and [generate_captions], [generate2] and [forward] of
      ppdiffusers/models/caption_decoder.py.

    Tensors are modelled as Paddle stores them: a shape and a row-major
    buffer.  Raising a Python exception is an explicit result [Raise e].
    The denoising network, the scheduler, the random source and the
    encoders / decoders are interfaces (type classes); every call to the
    network, to [scheduler.step], to the progress bar and to the user
    callback is recorded in a trace, which is what the counting properties
    are stated on. *)

From Stdlib Require Import String.
From Stdlib Require Import List Arith ZArith Lia Bool.
Import ListNotations.

Set Implicit Arguments.

(* ------------------------------------------------------------------ *)
(** ** Python exceptions and results *)

Inductive Exn : Type :=
| ValueError
| AssertionError
| AttributeError
| IndexError
| ZeroDivisionError
| UnboundLocalError
| TypeError
| EinopsError       (* einops.rearrange: shape does not fit the pattern *)
| PaddleError.      (* a Paddle operator rejects the shapes of its operands *)

Inductive Res (A : Type) : Type :=
| OK (a : A)
| Raise (e : Exn).

Arguments OK {A} a.
Arguments Raise {A} e.

Definition res_bind {A B : Type} (r : Res A) (k : A -> Res B) : Res B :=
  match r with
  | OK a => k a
  | Raise e => Raise e
  end.

Notation "'let*' x ':=' e 'in' k" := (res_bind e (fun x => k))
  (at level 10, x pattern, e at level 100, k at level 200).

(** A result is a normal return. *)
Definition is_ok {A : Type} (r : Res A) : bool :=
  match r with
  | OK _ => true
  | Raise _ => false
  end.

(* ------------------------------------------------------------------ *)
(** ** Tensors: shape and row-major data *)

Record Tensor (A : Type) : Type := mkTensor {
  shape : list nat;
  data : list A
}.

Arguments mkTensor {A} shape data.

Definition numel (s : list nat) : nat := fold_right Nat.mul 1 s.

(** A tensor is well formed when its buffer holds exactly the number of
    elements its shape announces. *)
Definition wf {A : Type} (x : Tensor A) : Prop :=
  length (data x) = numel (shape x).

Definition has_shape {A : Type} (s : list nat) (x : Tensor A) : Prop :=
  shape x = s /\ length (data x) = numel s.

Definition shape_eqb (s1 s2 : list nat) : bool :=
  if list_eq_dec Nat.eq_dec s1 s2 then true else false.

(** [chunk B n l]: the [B] consecutive rows of width [n] of a buffer. *)
Fixpoint chunk {A : Type} (B n : nat) (l : list A) : list (list A) :=
  match B with
  | 0 => []
  | S B' => firstn n l :: chunk B' n (skipn n l)
  end.

(** Row-wise split into consecutive sections: one list of rows per section. *)
Fixpoint hsplit {A : Type} (secs : list nat) (rows : list (list A))
  : list (list (list A)) :=
  match secs with
  | [] => []
  | a :: secs' => map (firstn a) rows :: hsplit secs' (map (skipn a) rows)
  end.

Fixpoint zip_app {A : Type} (xs ys : list (list A)) : list (list A) :=
  match xs, ys with
  | x :: xs', y :: ys' => (x ++ y) :: zip_app xs' ys'
  | _, _ => []
  end.

(** Row-wise concatenation of [B]-row blocks. *)
Fixpoint hcat {A : Type} (B : nat) (blocks : list (list (list A)))
  : list (list A) :=
  match blocks with
  | [] => repeat [] B
  | r :: blocks' => zip_app r (hcat B blocks')
  end.

(** Width (second dimension) of a 2-D tensor with [B] rows. *)
Definition width2 {A : Type} (B : nat) (x : Tensor A) : option nat :=
  match shape x with
  | [B'; n] => if Nat.eqb B' B then Some n else None
  | _ => None
  end.

Fixpoint widths {A : Type} (B : nat) (xs : list (Tensor A)) : option (list nat) :=
  match xs with
  | [] => Some []
  | x :: xs' =>
      match width2 B x, widths B xs' with
      | Some n, Some ns => Some (n :: ns)
      | _, _ => None
      end
  end.

Fixpoint mk_sections {A : Type} (B : nat) (secs : list nat)
         (blocks : list (list (list A))) : list (Tensor A) :=
  match secs, blocks with
  | a :: secs', r :: blocks' => mkTensor [B; a] (concat r) :: mk_sections B secs' blocks'
  | _, _ => []
  end.

(** [x.split(sections, axis=1)] on a 2-D tensor: the sections have to add up
    to the size of axis 1. *)
Definition tensor_split {A : Type} (x : Tensor A) (secs : list nat)
  : Res (list (Tensor A)) :=
  match shape x with
  | [B; n] =>
      if Nat.eqb n (list_sum secs)
      then OK (mk_sections B secs (hsplit secs (chunk B n (data x))))
      else Raise PaddleError
  | _ => Raise PaddleError
  end.

(** [paddle.concat(xs, axis=-1)] on 2-D tensors: equal batch sizes. *)
Definition tensor_concat {A : Type} (xs : list (Tensor A)) : Res (Tensor A) :=
  match xs with
  | [] => Raise PaddleError
  | x0 :: _ =>
      match shape x0 with
      | [B; _] =>
          match widths B xs with
          | Some ns =>
              OK (mkTensor [B; list_sum ns]
                    (concat (hcat B (map (fun '(n, x) => chunk B n (data x))
                                         (combine ns xs)))))
          | None => Raise PaddleError
          end
      | _ => Raise PaddleError
      end
  end.

(** A block is [B] rows of width [a]. *)
Definition block_ok {A : Type} (B a : nat) (r : list (list A)) : Prop :=
  length r = B /\ Forall (fun row => length row = a) r.

(** The blocks of rows of a list of 2-D tensors, one block per section. *)
Definition blocks_of {A : Type} (B : nat) (secs : list nat) (xs : list (Tensor A))
  : list (list (list A)) :=
  map (fun '(n, x) => chunk B n (data x)) (combine secs xs).

(** [einops.rearrange(x, "B C H W -> B (C H W)")] *)
Definition rearrange_BCHW_to_flat {A : Type} (x : Tensor A) : Res (Tensor A) :=
  match shape x with
  | [B; C; H; W] => OK (mkTensor [B; C * H * W] (data x))
  | _ => Raise EinopsError
  end.

(** [einops.rearrange(x, "B L D -> B (L D)")] *)
Definition rearrange_BLD_to_flat {A : Type} (x : Tensor A) : Res (Tensor A) :=
  match shape x with
  | [B; L; D] => OK (mkTensor [B; L * D] (data x))
  | _ => Raise EinopsError
  end.

(** [einops.rearrange(x, "B (C H W) -> B C H W", C=C, H=H, W=W)] *)
Definition rearrange_flat_to_BCHW {A : Type} (C H W : nat) (x : Tensor A)
  : Res (Tensor A) :=
  match shape x with
  | [B; n] =>
      if Nat.eqb n (C * H * W) then OK (mkTensor [B; C; H; W] (data x))
      else Raise EinopsError
  | _ => Raise EinopsError
  end.

(** [einops.rearrange(x, "B (L D) -> B L D", L=L, D=D)] *)
Definition rearrange_flat_to_BLD {A : Type} (L D : nat) (x : Tensor A)
  : Res (Tensor A) :=
  match shape x with
  | [B; n] =>
      if Nat.eqb n (L * D) then OK (mkTensor [B; L; D] (data x))
      else Raise EinopsError
  | _ => Raise EinopsError
  end.

(* ------------------------------------------------------------------ *)
(** ** Pipeline configuration ([UniDiffuserPipeline.__init__]) *)

Record PipelineConfig : Type := mkConfig {
  vae_block_out_channels : list nat;     (* vae.config.block_out_channels *)
  vae_latent_channels : nat;             (* vae.latent_channels *)
  tokenizer_model_max_length : nat;      (* tokenizer.model_max_length *)
  unet_img_size : nat                    (* unet.config.img_size *)
}.

Definition vae_scale_factor (cfg : PipelineConfig) : nat :=
  2 ^ (length (vae_block_out_channels cfg) - 1).

Definition num_channels_latents (cfg : PipelineConfig) : nat :=
  vae_latent_channels cfg.

Definition image_encoder_clip_img_dim : nat := 512.

Definition text_encoder_seq_len (cfg : PipelineConfig) : nat :=
  tokenizer_model_max_length cfg.

Definition text_encoder_text_dim : nat := 64.

(* ------------------------------------------------------------------ *)
(** ** Latent codec: [_split], [_combine], [_split_joint], [_combine_joint] *)

Section Codec.
Context {A : Type}.
Variable cfg : PipelineConfig.

Definition _split (x : Tensor A) (height width : nat)
  : Res (Tensor A * Tensor A) :=
  let latent_height := height / vae_scale_factor cfg in
  let latent_width := width / vae_scale_factor cfg in
  let img_vae_dim := num_channels_latents cfg * latent_height * latent_width in
  let* parts := tensor_split x [img_vae_dim; image_encoder_clip_img_dim] in
  match parts with
  | [img_vae; img_clip] =>
      let* img_vae :=
        rearrange_flat_to_BCHW (num_channels_latents cfg) latent_height latent_width
                               img_vae in
      let* img_clip := rearrange_flat_to_BLD 1 image_encoder_clip_img_dim img_clip in
      OK (img_vae, img_clip)
  | _ => Raise ValueError
  end.

Definition _combine (img_vae img_clip : Tensor A) : Res (Tensor A) :=
  let* img_vae := rearrange_BCHW_to_flat img_vae in
  let* img_clip := rearrange_BLD_to_flat img_clip in
  tensor_concat [img_vae; img_clip].

Definition _split_joint (x : Tensor A) (height width : nat)
  : Res (Tensor A * Tensor A * Tensor A) :=
  let latent_height := height / vae_scale_factor cfg in
  let latent_width := width / vae_scale_factor cfg in
  let img_vae_dim := num_channels_latents cfg * latent_height * latent_width in
  let text_dim := text_encoder_seq_len cfg * text_encoder_text_dim in
  let* parts :=
    tensor_split x [img_vae_dim; image_encoder_clip_img_dim; text_dim] in
  match parts with
  | [img_vae; img_clip; text] =>
      let* img_vae :=
        rearrange_flat_to_BCHW (num_channels_latents cfg) latent_height latent_width
                               img_vae in
      let* img_clip := rearrange_flat_to_BLD 1 image_encoder_clip_img_dim img_clip in
      let* text :=
        rearrange_flat_to_BLD (text_encoder_seq_len cfg) text_encoder_text_dim text in
      OK (img_vae, img_clip, text)
  | _ => Raise ValueError
  end.

Definition _combine_joint (img_vae img_clip text : Tensor A) : Res (Tensor A) :=
  let* img_vae := rearrange_BCHW_to_flat img_vae in
  let* img_clip := rearrange_BLD_to_flat img_clip in
  let* text := rearrange_BLD_to_flat text in
  tensor_concat [img_vae; img_clip; text].

End Codec.

(* ------------------------------------------------------------------ *)
(** ** Floating-point scalars and tensor arithmetic

    The element type of latents is kept abstract: only the operations the
    pipeline applies are named.  No algebraic law is assumed. *)

Class FloatOps : Type := {
  F : Type;
  fadd : F -> F -> F;
  fsub : F -> F -> F;
  fmul : F -> F -> F;
  fzero : F;                    (* the literal 0.0 *)
  feqb : F -> F -> bool;        (* Python's == *)
  fltb : F -> F -> bool         (* Python's < *)
}.

Section TensorArith.
Context `{FloatOps}.

Definition map2 (f : F -> F -> F) (xs ys : list F) : list F :=
  map (fun '(a, b) => f a b) (combine xs ys).

(** Elementwise binary operator on tensors of equal shape (operands of
    different shapes are reported as an operator error; broadcasting
    between unequal shapes is outside this model). *)
Definition tensor_zip (f : F -> F -> F) (x y : Tensor F) : Res (Tensor F) :=
  if shape_eqb (shape x) (shape y)
  then OK (mkTensor (shape x) (map2 f (data x) (data y)))
  else Raise PaddleError.

(** [x + y], [x - y] *)
Definition tensor_add : Tensor F -> Tensor F -> Res (Tensor F) := tensor_zip fadd.
Definition tensor_sub : Tensor F -> Tensor F -> Res (Tensor F) := tensor_zip fsub.

(** [s * x] for a Python float [s] *)
Definition scalar_mul (s : F) (x : Tensor F) : Tensor F :=
  mkTensor (shape x) (map (fun a => fmul s a) (data x)).

(** [x * s] for a Python float [s] *)
Definition mul_scalar (x : Tensor F) (s : F) : Tensor F :=
  mkTensor (shape x) (map (fun a => fmul a s) (data x)).

(** [x_out + guidance_scale * (x_out - x_out_uncond)] *)
Definition guided (x_out : Tensor F) (guidance_scale : F) (x_out_uncond : Tensor F)
  : Res (Tensor F) :=
  let* d := tensor_sub x_out x_out_uncond in
  tensor_add x_out (scalar_mul guidance_scale d).

End TensorArith.

(** Integer tensors (timesteps, data types). *)

(** [paddle.ones_like(t) * N] *)
Definition ones_like_times (t : Tensor Z) (N : Z) : Tensor Z :=
  mkTensor (shape t) (map (fun _ => (1 * N)%Z) (data t)).

(** [paddle.zeros_like(t, dtype=int32) + d] *)
Definition zeros_like_plus (t : Tensor Z) (d : Z) : Tensor Z :=
  mkTensor (shape t) (map (fun _ => (0 + d)%Z) (data t)).

(** [paddle.zeros([n], dtype=int32)] *)
Definition zeros1 (n : nat) : Tensor Z := mkTensor [n] (repeat 0%Z n).

(** [t.shape[0]] *)
Definition shape0 {A : Type} (t : Tensor A) : Res nat :=
  match shape t with
  | n :: _ => OK n
  | [] => Raise IndexError
  end.

(** [stable_diffusion_beta_schedule(n_timestep=1000)] returns [n_timestep]
    values; [N = len(_betas)]. *)
Definition stable_diffusion_beta_schedule_len (n_timestep : nat) : nat := n_timestep.
Definition N_betas : Z := Z.of_nat (stable_diffusion_beta_schedule_len 1000).

(* ------------------------------------------------------------------ *)
(** ** Modes, generators and the collaborators' interface *)

(** The [mode] string: "joint", "t2i", "i2t", "t", "i", "t2i2t", "i2t2i";
    [m_unsupported] stands for any other string. *)
Inductive Mode : Type :=
| m_joint | m_t2i | m_i2t | m_t | m_i | m_t2i2t | m_i2t2i
| m_unsupported.

(** The [generator] argument: [None], one generator or a list of them
    (generators are named by handles into the random state). *)
Inductive Generator : Type :=
| GenNone
| GenOne (g : nat)
| GenList (gs : list nat).

(** [extra_step_kwargs] *)
Record StepKwargs `{FloatOps} : Type := mkStepKwargs {
  kw_eta : option F;
  kw_generator : option Generator
}.

Arguments mkStepKwargs {_} kw_eta kw_generator.

(** One forward pass of the denoising network: its six arguments. *)
Record UnetCall `{FloatOps} : Type := mkUnetCall {
  c_img : Tensor F;
  c_clip_img : Tensor F;
  c_text : Tensor F;
  c_t_img : Tensor Z;
  c_t_text : Tensor Z;
  c_data_type : Tensor Z
}.

Arguments mkUnetCall {_} c_img c_clip_img c_text c_t_img c_t_text c_data_type.

Inductive Prompt : Type :=
| PromptStr (s : string)
| PromptList (l : list string)
| PromptOther.                       (* neither a [str] nor a [list] *)

Class Collaborators `{FloatOps} : Type := {
  (* denoising network: [self.unet(img, clip_img, text, t_img, t_text, data_type)] *)
  unet : UnetCall -> Tensor F * Tensor F * Tensor F;
  (* random source: [randn_tensor(shape, generator)]; [paddle.randn(shape)] is
     the draw without generator *)
  RandomState : Type;
  randn : list nat -> Generator -> RandomState -> Tensor F * RandomState;
  (* scheduler *)
  SchedulerState : Type;
  scheduler_set_timesteps : nat -> SchedulerState -> SchedulerState;
  scheduler_timesteps : SchedulerState -> list Z;
  scheduler_order : Z;
  scheduler_init_noise_sigma : SchedulerState -> F;
  scheduler_step :
    Tensor F -> Tensor Z -> Tensor F -> StepKwargs -> SchedulerState ->
    Tensor F * SchedulerState;
  step_accepts_eta : bool;
  step_accepts_generator : bool;
  (* text side: tokenizer + text encoder, caption decoder *)
  text_encoder : Prompt -> Tensor F;
  caption_encode_prefix : Tensor F -> Tensor F;
  caption_generate_captions : Tensor F -> list string;
  (* image side *)
  PILImage : Type;
  pil_to_tensor : PILImage -> Tensor F;
  vae_encode_image :
    Tensor F -> nat -> nat -> Generator -> RandomState -> Res (Tensor F) * RandomState;
  clip_encode_image :
    Tensor F + PILImage -> nat -> nat -> Generator -> RandomState ->
    Res (Tensor F) * RandomState;
  DecodedImages : Type;
  vae_decode_image : Tensor F -> DecodedImages;
  numpy_to_pil : DecodedImages -> DecodedImages
}.

(* ------------------------------------------------------------------ *)
(** ** The world: random state, scheduler state and the trace of calls *)

Section World.
Context `{Collaborators}.

Inductive Event : Type :=
| EvUnet (c : UnetCall)
| EvStep (model_output : Tensor F) (t : Tensor Z) (sample prev_sample : Tensor F)
| EvProgress
| EvCallback (i : nat) (t : Tensor Z) (latents : Tensor F).

Record World : Type := mkWorld {
  w_random : RandomState;
  w_scheduler : SchedulerState;
  w_trace : list Event
}.

Definition M (A : Type) : Type := World -> Res A * World.

Definition ret {A : Type} (a : A) : M A := fun w => (OK a, w).

Definition raise {A : Type} (e : Exn) : M A := fun w => (Raise e, w).

Definition bind {A B : Type} (m : M A) (k : A -> M B) : M B :=
  fun w =>
    match m w with
    | (OK a, w') => k a w'
    | (Raise e, w') => (Raise e, w')
    end.

Definition lift {A : Type} (r : Res A) : M A := fun w => (r, w).

Definition emit (e : Event) : M unit :=
  fun w => (OK tt, mkWorld (w_random w) (w_scheduler w) (w_trace w ++ [e])).

Definition is_unet (e : Event) : bool :=
  match e with EvUnet _ => true | _ => false end.

Definition is_step (e : Event) : bool :=
  match e with EvStep _ _ _ _ => true | _ => false end.

Definition is_callback (e : Event) : bool :=
  match e with EvCallback _ _ _ => true | _ => false end.

Definition count_unet (tr : list Event) : nat := length (filter is_unet tr).
Definition count_step (tr : list Event) : nat := length (filter is_step tr).
Definition count_callback (tr : list Event) : nat := length (filter is_callback tr).

(** Iteration indices at which the callback was invoked, in order. *)
Fixpoint callback_indices (tr : list Event) : list nat :=
  match tr with
  | [] => []
  | EvCallback i _ _ :: tr' => i :: callback_indices tr'
  | _ :: tr' => callback_indices tr'
  end.

End World.

Notation "x <- e ;; k" := (bind e (fun x => k))
  (at level 100, e at next level, right associativity).
Notation "' pat <- e ;; k" := (bind e (fun x => match x with pat => k end))
  (at level 100, pat pattern, e at next level, right associativity).
Notation "e ;;; k" := (bind e (fun _ => k))
  (at level 100, right associativity).

(* ------------------------------------------------------------------ *)
(** ** The pipeline: [UniDiffuserPipeline] *)

Inductive Callback : Type := UserCallback.   (* the caller's function object *)

(** What [_denoising_sample_fn] returns. *)
Inductive Outs `{FloatOps} : Type :=
| OutJoint (image_vae_latents image_clip_latents text_latents : Tensor F)
| OutImage (image_vae_latents image_clip_latents : Tensor F)
| OutText (text_latents : Tensor F)
| OutNone.

Section Pipeline.
Context `{Collaborators}.
Variable cfg : PipelineConfig.

(** [self.unet(...)] *)
Definition call_unet (c : UnetCall) : M (Tensor F * Tensor F * Tensor F) :=
  emit (EvUnet c);;; ret (unet c).

(** [randn_tensor(shape, generator=generator)] *)
Definition randn_tensor (s : list nat) (generator : Generator) : M (Tensor F) :=
  fun w =>
    let (x, r) := randn s generator (w_random w) in
    (OK x, mkWorld r (w_scheduler w) (w_trace w)).

(** [paddle.randn(shape)] *)
Definition paddle_randn (s : list nat) : M (Tensor F) := randn_tensor s GenNone.

(** [self.scheduler.init_noise_sigma] *)
Definition init_noise_sigma : M F :=
  fun w => (OK (scheduler_init_noise_sigma (w_scheduler w)), w).

(** [self.scheduler.set_timesteps(n)] *)
Definition set_timesteps (n : nat) : M unit :=
  fun w =>
    (OK tt, mkWorld (w_random w) (scheduler_set_timesteps n (w_scheduler w)) (w_trace w)).

(** [self.scheduler.timesteps] *)
Definition timesteps : M (list Z) :=
  fun w => (OK (scheduler_timesteps (w_scheduler w)), w).

(** [self.scheduler.step(model_output, t, sample, **extra_step_kwargs).prev_sample] *)
Definition step (model_output : Tensor F) (t : Tensor Z) (sample : Tensor F)
           (extra_step_kwargs : StepKwargs) : M (Tensor F) :=
  fun w =>
    let (prev_sample, s) :=
      scheduler_step model_output t sample extra_step_kwargs (w_scheduler w) in
    (OK prev_sample,
     mkWorld (w_random w) s (w_trace w ++ [EvStep model_output t sample prev_sample])).

(** The guard shared by the three latent-preparation functions:
    [isinstance(generator, list) and len(generator) != batch_size]. *)
Definition generator_mismatch (generator : Generator) (batch_size : nat) : bool :=
  match generator with
  | GenList gs => negb (Nat.eqb (length gs) batch_size)
  | _ => false
  end.

Definition prepare_text_latents (batch_size seq_len hidden_size : nat)
           (generator : Generator) (latents : option (Tensor F)) : M (Tensor F) :=
  let shape := [batch_size; seq_len; hidden_size] in
  if generator_mismatch generator batch_size then raise ValueError else
  latents <- match latents with
             | None => randn_tensor shape generator
             | Some l => ret l
             end;;
  sigma <- init_noise_sigma;;
  ret (mul_scalar latents sigma).

Definition prepare_image_vae_latents (batch_size num_channels_latents height width : nat)
           (generator : Generator) (latents : option (Tensor F)) : M (Tensor F) :=
  let shape := [batch_size; num_channels_latents;
                height / vae_scale_factor cfg; width / vae_scale_factor cfg] in
  if generator_mismatch generator batch_size then raise ValueError else
  latents <- match latents with
             | None => randn_tensor shape generator
             | Some l => ret l
             end;;
  sigma <- init_noise_sigma;;
  ret (mul_scalar latents sigma).

Definition prepare_image_clip_latents (batch_size clip_img_dim : nat)
           (generator : Generator) (latents : option (Tensor F)) : M (Tensor F) :=
  let shape := [batch_size; 1; clip_img_dim] in
  if generator_mismatch generator batch_size then raise ValueError else
  latents <- match latents with
             | None => randn_tensor shape generator
             | Some l => ret l
             end;;
  sigma <- init_noise_sigma;;
  ret (mul_scalar latents sigma).

(** [get_noise_pred]; the result [None] is Python's [None] (no branch of
    the [if] / [elif] chain matches the mode). *)
Definition get_noise_pred (mode : Mode) (latents : Tensor F) (t : Tensor Z)
           (prompt_embeds img_vae img_clip : Tensor F) (N : Z) (guidance_scale : F)
           (height width : nat) (data_type : Z) : M (option (Tensor F)) :=
  match mode with
  | m_joint =>
      '(img_vae_latents, img_clip_latents, text_latents) <-
        lift (_split_joint cfg latents height width);;
      '(img_vae_out, img_clip_out, text_out) <-
        call_unet (mkUnetCall img_vae_latents img_clip_latents text_latents
                              t t (zeros_like_plus t data_type));;
      x_out <- lift (_combine_joint img_vae_out img_clip_out text_out);;
      if feqb guidance_scale fzero then ret (Some x_out) else
      img_vae_T <- paddle_randn (shape img_vae);;
      img_clip_T <- paddle_randn (shape img_clip);;
      '(_, _, text_out_uncond) <-
        call_unet (mkUnetCall img_vae_T img_clip_T text_latents
                              (ones_like_times t N) t (zeros_like_plus t data_type));;
      text_T <- paddle_randn (shape prompt_embeds);;
      '(img_vae_out_uncond, img_clip_out_uncond, _) <-
        call_unet (mkUnetCall img_vae_latents img_clip_latents text_T
                              t (ones_like_times t N) (zeros_like_plus t data_type));;
      x_out_uncond <-
        lift (_combine_joint img_vae_out_uncond img_clip_out_uncond text_out_uncond);;
      r <- lift (guided x_out guidance_scale x_out_uncond);;
      ret (Some r)
  | m_t2i =>
      '(img_vae_latents, img_clip_latents) <- lift (_split cfg latents height width);;
      n <- lift (shape0 t);;
      let t_text := zeros1 n in
      '(img_vae_out, img_clip_out, text_out) <-
        call_unet (mkUnetCall img_vae_latents img_clip_latents prompt_embeds
                              t t_text (zeros_like_plus t_text data_type));;
      img_out <- lift (_combine img_vae_out img_clip_out);;
      if feqb guidance_scale fzero then ret (Some img_out) else
      text_T <- paddle_randn (shape prompt_embeds);;
      '(img_vae_out_uncond, img_clip_out_uncond, text_out_uncond) <-
        call_unet (mkUnetCall img_vae_latents img_clip_latents text_T
                              t (ones_like_times t N) (zeros_like_plus t_text data_type));;
      img_out_uncond <- lift (_combine img_vae_out_uncond img_clip_out_uncond);;
      r <- lift (guided img_out guidance_scale img_out_uncond);;
      ret (Some r)
  | m_i2t =>
      n <- lift (shape0 t);;
      let t_img := zeros1 n in
      '(img_vae_out, img_clip_out, text_out) <-
        call_unet (mkUnetCall img_vae img_clip latents
                              t_img t (zeros_like_plus t_img data_type));;
      if feqb guidance_scale fzero then ret (Some text_out) else
      img_vae_T <- paddle_randn (shape img_vae);;
      img_clip_T <- paddle_randn (shape img_clip);;
      '(img_vae_out_uncond, img_clip_out_uncond, text_out_uncond) <-
        call_unet (mkUnetCall img_vae_T img_clip_T latents
                              (ones_like_times t N) t (zeros_like_plus t data_type));;
      r <- lift (guided text_out guidance_scale text_out_uncond);;
      ret (Some r)
  | m_t =>
      '(img_vae_out, img_clip_out, text_out) <-
        call_unet (mkUnetCall img_vae img_clip latents
                              (ones_like_times t N) t (zeros_like_plus t data_type));;
      ret (Some text_out)
  | m_i =>
      '(img_vae_latents, img_clip_latents) <- lift (_split cfg latents height width);;
      let t_text := ones_like_times t N in
      '(img_vae_out, img_clip_out, text_out) <-
        call_unet (mkUnetCall img_vae_latents img_clip_latents prompt_embeds
                              t t_text (zeros_like_plus t_text data_type));;
      img_out <- lift (_combine img_vae_out img_clip_out);;
      ret (Some img_out)
  | _ => ret None
  end.

(** [prepare_extra_step_kwargs] *)
Definition prepare_extra_step_kwargs (generator : Generator) (eta : F) : StepKwargs :=
  mkStepKwargs (if step_accepts_eta then Some eta else None)
               (if step_accepts_generator then Some generator else None).

(** The [progress_bar.update()] / callback block that ends an iteration. *)
Definition after_step (i len : nat) (num_warmup_steps : Z) (t : Tensor Z)
           (latents : Tensor F) (callback : option Callback) (callback_steps : Z)
  : M unit :=
  let report : M unit :=
    emit EvProgress;;;
    match callback with
    | None => ret tt
    | Some _ =>
        if Z.eqb callback_steps 0 then raise ZeroDivisionError
        else if Z.eqb (Z.of_nat i mod callback_steps) 0
             then emit (EvCallback i t latents)
             else ret tt
    end in
  if Z.eqb (Z.of_nat i) (Z.of_nat len - 1) then report
  else if Z.ltb num_warmup_steps (Z.of_nat i + 1) then
         if Z.eqb scheduler_order 0 then raise ZeroDivisionError
         else if Z.eqb ((Z.of_nat i + 1) mod scheduler_order) 0 then report
              else ret tt
       else ret tt.

(** The body of [for i, t in enumerate(timesteps)]; an element of the 1-D
    tensor [timesteps] is a tensor of shape [1].  [latents = None] is the
    local variable left unbound by the mode chain. *)
Fixpoint denoising_loop (mode : Mode) (its : list (nat * Z)) (len : nat)
         (num_warmup_steps : Z) (latents : option (Tensor F))
         (prompt_embeds image_vae_latents image_clip_latents : Tensor F)
         (N : Z) (guidance_scale : F) (height width : nat)
         (extra_step_kwargs : StepKwargs)
         (callback : option Callback) (callback_steps : Z)
  : M (option (Tensor F)) :=
  match its with
  | [] => ret latents
  | (i, tz) :: its' =>
      let t := mkTensor [1] [tz] in
      cur <- match latents with
             | Some l => ret l
             | None => raise UnboundLocalError
             end;;
      noise_pred <- get_noise_pred mode cur t prompt_embeds image_vae_latents
                                   image_clip_latents N guidance_scale height width 1;;
      model_output <- match noise_pred with
                      | Some np => ret np
                      | None => raise TypeError
                      end;;
      next <- step model_output t cur extra_step_kwargs;;
      after_step i len num_warmup_steps t next callback callback_steps;;;
      denoising_loop mode its' len num_warmup_steps (Some next)
                     prompt_embeds image_vae_latents image_clip_latents
                     N guidance_scale height width extra_step_kwargs
                     callback callback_steps
  end.

Definition enumerate {A : Type} (l : list A) : list (nat * A) :=
  combine (seq 0 (length l)) l.

(** The block "Prepare latent variables" that opens [_denoising_sample_fn]
    ([None]: no branch binds [latents]). *)
Definition pack_latents (mode : Mode)
           (image_vae_latents image_clip_latents prompt_embeds : Tensor F)
  : Res (option (Tensor F)) :=
  match mode with
  | m_joint =>
      let* l := _combine_joint image_vae_latents image_clip_latents prompt_embeds in
      OK (Some l)
  | m_t2i | m_i =>
      let* l := _combine image_vae_latents image_clip_latents in
      OK (Some l)
  | m_i2t | m_t => OK (Some prompt_embeds)
  | _ => OK None
  end.

(** The block that closes [_denoising_sample_fn]: unpack per mode. *)
Definition unpack_latents (mode : Mode) (latents : option (Tensor F))
           (height width : nat) : M Outs :=
  match mode, latents with
  | m_joint, Some latents =>
      '(image_vae_latents, image_clip_latents, text_latents) <-
        lift (_split_joint cfg latents height width);;
      ret (OutJoint image_vae_latents image_clip_latents text_latents)
  | (m_t2i | m_i), Some latents =>
      '(image_vae_latents, image_clip_latents) <-
        lift (_split cfg latents height width);;
      ret (OutImage image_vae_latents image_clip_latents)
  | (m_i2t | m_t), Some latents => ret (OutText latents)
  | (m_joint | m_t2i | m_i | m_i2t | m_t), None => raise UnboundLocalError
  | _, _ => ret OutNone
  end.

Definition _denoising_sample_fn (mode : Mode)
           (image_vae_latents image_clip_latents prompt_embeds : Tensor F)
           (num_inference_steps : nat) (extra_step_kwargs : StepKwargs)
           (guidance_scale : F) (generator : Generator) (height width : nat)
           (callback : option Callback) (callback_steps : Z) : M Outs :=
  (* Prepare latent variables *)
  latents <- lift (pack_latents mode image_vae_latents image_clip_latents prompt_embeds);;
  (* Set timesteps *)
  set_timesteps num_inference_steps;;;
  ts <- timesteps;;
  let N := N_betas in
  let num_warmup_steps :=
    (Z.of_nat (length ts) - Z.of_nat num_inference_steps * scheduler_order)%Z in
  latents <- denoising_loop mode (enumerate ts) (length ts) num_warmup_steps latents
               prompt_embeds image_vae_latents image_clip_latents
               N guidance_scale height width extra_step_kwargs
               callback callback_steps;;
  unpack_latents mode latents height width.

End Pipeline.

(* ------------------------------------------------------------------ *)
(** ** Validation and mode dispatch: [check_inputs], [_infer_batch_size],
       [__call__] *)

(** The [callback_steps] argument: [None], an [int], or a value of another type. *)
Inductive CallbackSteps : Type :=
| StepsNone
| StepsInt (k : Z)
| StepsOther.

(** The [image] argument when it is not [None]. *)
Inductive Image `{Collaborators} : Type :=
| ImgTensor (x : Tensor F)
| ImgPIL (p : PILImage)
| ImgOther.

Record CallArgs `{Collaborators} : Type := mkCallArgs {
  a_mode : Mode;
  a_image : option Image;
  a_prompt : option Prompt;
  a_height : option nat;
  a_width : option nat;
  a_num_inference_steps : nat;
  a_guidance_scale : F;
  a_negative_prompt : option Prompt;
  a_num_images_per_prompt : nat;
  a_num_prompts_per_image : nat;
  a_num_samples : nat;
  a_eta : F;
  a_generator : Generator;
  a_prompt_latents : option (Tensor F);
  a_vae_latents : option (Tensor F);
  a_clip_latents : option (Tensor F);
  a_prompt_embeds : option (Tensor F);
  a_negative_prompt_embeds : option (Tensor F);
  a_output_type_is_pil : bool;
  a_callback : option Callback;
  a_callback_steps : CallbackSteps
}.

(** [ImageTextPipelineOutput(images=gen_image, texts=gen_text)] *)
Record ImageTextPipelineOutput `{Collaborators} : Type := mkOutput {
  images : option DecodedImages;
  texts : option (list string)
}.

Arguments mkOutput {_ _} images texts.

Section Dispatch.
Context `{Collaborators}.
Variable cfg : PipelineConfig.

Definition check_inputs (prompt : option Prompt) (height width : nat)
           (callback_steps : CallbackSteps) (negative_prompt : option Prompt)
           (prompt_embeds negative_prompt_embeds : option (Tensor F)) : Res unit :=
  if negb (Nat.eqb (height mod 8) 0) || negb (Nat.eqb (width mod 8) 0)
  then Raise ValueError else
  if match callback_steps with
     | StepsNone => true
     | StepsInt k => Z.leb k 0
     | StepsOther => true
     end
  then Raise ValueError else
  let* _ := match prompt, prompt_embeds with
            | Some _, Some _ => Raise ValueError
            | None, None => Raise ValueError
            | Some PromptOther, _ => Raise ValueError
            | _, _ => OK tt
            end in
  let* _ := match negative_prompt, negative_prompt_embeds with
            | Some _, Some _ => Raise ValueError
            | _, _ => OK tt
            end in
  match prompt_embeds, negative_prompt_embeds with
  | Some pe, Some npe =>
      if shape_eqb (shape pe) (shape npe) then OK tt else Raise ValueError
  | _, _ => OK tt
  end.

Definition _infer_batch_size (mode : Mode) (prompt : option Prompt)
           (prompt_embeds : option (Tensor F)) (image : option Image)
           (num_samples : nat) : Res nat :=
  match mode with
  | m_t2i =>
      match prompt with
      | Some (PromptStr _) => OK 1
      | Some (PromptList l) => OK (length l)
      | _ =>
          match prompt_embeds with
          | Some pe => shape0 pe
          | None => Raise AttributeError
          end
      end
  | m_i2t =>
      match image with
      | Some (ImgPIL _) => OK 1
      | Some (ImgTensor x) => shape0 x
      | _ => Raise AttributeError
      end
  | _ => OK num_samples
  end.

(** [preprocess] *)
Definition preprocess (image : Image) : Res (Tensor F) :=
  match image with
  | ImgTensor x => OK x
  | ImgPIL p => OK (pil_to_tensor p)
  | ImgOther => Raise ValueError
  end.

(** [_encode_prompt] *)
Definition _encode_prompt (prompt : option Prompt) (prompt_embeds : option (Tensor F))
  : Res (Tensor F) :=
  match prompt_embeds, prompt with
  | Some pe, _ => OK pe
  | None, Some p => OK (text_encoder p)
  | None, None => Raise TypeError
  end.

(** [encode_image_vae_latents] and [encode_image_clip_latents] are consulted
    in mode "i2t" only.  Their bodies (type test, generator guard, encoder
    call, duplication of the batch) stand behind the collaborators
    [vae_encode_image] and [clip_encode_image], which may raise. *)
Definition encode_image_vae_latents (image : Tensor F) (batch_size num : nat)
           (generator : Generator) : M (Tensor F) :=
  fun w =>
    let (r, rs) := vae_encode_image image batch_size num generator (w_random w) in
    (r, mkWorld rs (w_scheduler w) (w_trace w)).

Definition encode_image_clip_latents (image : Image) (batch_size num : nat)
           (generator : Generator) : M (Tensor F) :=
  match image with
  | ImgTensor x =>
      fun w =>
        let (r, rs) := clip_encode_image (inl x) batch_size num generator (w_random w) in
        (r, mkWorld rs (w_scheduler w) (w_trace w))
  | ImgPIL p =>
      fun w =>
        let (r, rs) := clip_encode_image (inr p) batch_size num generator (w_random w) in
        (r, mkWorld rs (w_scheduler w) (w_trace w))
  | ImgOther => raise ValueError
  end.

(** [height or default] *)
Definition or_default (v : option nat) (d : nat) : nat :=
  match v with
  | Some (S n) => S n
  | _ => d
  end.

(** The validated [callback_steps]. *)
Definition steps_value (callback_steps : CallbackSteps) : Z :=
  match callback_steps with
  | StepsInt k => k
  | _ => 0%Z
  end.

(** Steps 0 to 4 of [__call__]: defaults, validation, batch size and the
    initial sub-latents.  Returns [prompt_embeds], [image_vae_latents],
    [image_clip_latents], [height] and [width]. *)
Definition prepare_call (a : CallArgs)
  : M (Tensor F * Tensor F * Tensor F * nat * nat) :=
  let mode := a_mode a in
  let generator := a_generator a in
  (* 0. Default height and width to unet *)
  let height := or_default (a_height a) (unet_img_size cfg * vae_scale_factor cfg) in
  let width := or_default (a_width a) (unet_img_size cfg * vae_scale_factor cfg) in
  (* 1. Check inputs *)
  lift (check_inputs (a_prompt a) height width (a_callback_steps a) None None None);;;
  (* 2. Define call parameters *)
  batch_size <- lift (_infer_batch_size mode (a_prompt a) (a_prompt_embeds a)
                                        (a_image a) (a_num_samples a));;
  (* 3. Encode input prompt if available; otherwise prepare text latents *)
  prompt_embeds <-
    match mode with
    | m_t2i =>
        match a_prompt a, a_prompt_embeds a with
        | None, None => raise AssertionError
        | _, _ =>
            pe <- lift (_encode_prompt (a_prompt a) (a_prompt_embeds a));;
            ret (caption_encode_prefix pe)
        end
    | _ =>
        prepare_text_latents batch_size (text_encoder_seq_len cfg) text_encoder_text_dim
                             generator (a_prompt_latents a)
    end;;
  (* 4. Encode input image if available; otherwise prepare image latents *)
  match mode with
  | m_i2t =>
      match a_image a with
      | None => raise AssertionError
      | Some image =>
          image_vae <- lift (preprocess image);;
          '(height, width) <- lift (match shape image_vae with
                                    | [_; _; hh; ww] => OK (hh, ww)
                                    | _ => Raise ValueError
                                    end);;
          image_vae_latents <-
            encode_image_vae_latents image_vae batch_size (a_num_prompts_per_image a)
                                     generator;;
          image_clip_latents <-
            encode_image_clip_latents image batch_size (a_num_prompts_per_image a)
                                      generator;;
          ret (prompt_embeds, image_vae_latents, image_clip_latents, height, width)
      end
  | _ =>
      image_vae_latents <-
        prepare_image_vae_latents cfg (batch_size * a_num_images_per_prompt a)
                                  (num_channels_latents cfg) height width
                                  generator (a_vae_latents a);;
      image_clip_latents <-
        prepare_image_clip_latents (batch_size * a_num_images_per_prompt a)
                                   image_encoder_clip_img_dim
                                   generator (a_clip_latents a);;
      ret (prompt_embeds, image_vae_latents, image_clip_latents, height, width)
  end.

(** One invocation of [_denoising_sample_fn] with the call's shared
    arguments (steps 5 and 6). *)
Definition sample_stage (a : CallArgs) (height width : nat) (stage : Mode)
           (image_vae_latents image_clip_latents prompt_embeds : Tensor F) : M Outs :=
  _denoising_sample_fn cfg stage image_vae_latents image_clip_latents prompt_embeds
                       (a_num_inference_steps a)
                       (prepare_extra_step_kwargs (a_generator a) (a_eta a))
                       (a_guidance_scale a) (a_generator a) height width
                       (a_callback a) (steps_value (a_callback_steps a)).

(** Step 8 of [__call__] and the returned object ([return_dict] only chooses
    between a tuple and a record of the same two values). *)
Definition finish (a : CallArgs) (gen_image : option DecodedImages)
           (gen_text : option (list string)) : M ImageTextPipelineOutput :=
  let gen_image :=
    match gen_image with
    | Some im => if a_output_type_is_pil a then Some (numpy_to_pil im) else Some im
    | None => None
    end in
  ret (mkOutput gen_image gen_text).

Definition __call__ (a : CallArgs) : M ImageTextPipelineOutput :=
  let mode := a_mode a in
  (* 0. - 4. *)
  '(prompt_embeds, image_vae_latents, image_clip_latents, height, width) <-
    prepare_call a;;
  (* 5. - 6. Prepare timesteps and denoising loop *)
  let sample := sample_stage a height width in
  outs <-
    match mode with
    | m_i | m_t | m_i2t | m_t2i | m_joint =>
        sample mode image_vae_latents image_clip_latents prompt_embeds
    | m_i2t2i => sample m_i2t image_vae_latents image_clip_latents prompt_embeds
    | m_t2i2t => sample m_t2i image_vae_latents image_clip_latents prompt_embeds
    | m_unsupported => raise ValueError
    end;;
  (* 7. Generate image or text and post-processing *)
  '(gen_image, gen_text) <-
    match mode with
    | m_joint =>
        match outs with
        | OutJoint image_vae_latents image_clip_latents text_latents =>
            ret (Some (vae_decode_image image_vae_latents),
                 Some (caption_generate_captions text_latents))
        | _ => raise TypeError
        end
    | m_t2i | m_i | m_t2i2t =>
        match outs with
        | OutImage image_vae_latents image_clip_latents =>
            match mode with
            | m_t2i | m_i => ret (Some (vae_decode_image image_vae_latents), None)
            | _ =>
                (* 't2i2t' should do 'i2t' later *)
                text_latents <-
                  sample m_i2t image_vae_latents image_clip_latents prompt_embeds;;
                match text_latents with
                | OutText text_latents =>
                    ret (None, Some (caption_generate_captions text_latents))
                | _ => raise TypeError
                end
            end
        | _ => raise TypeError
        end
    | m_i2t | m_t | m_i2t2i =>
        match outs with
        | OutText text_latents =>
            match mode with
            | m_i2t | m_t => ret (None, Some (caption_generate_captions text_latents))
            | _ =>
                (* 'i2t2i' should do 't2i' later *)
                outs2 <- sample m_t2i image_vae_latents image_clip_latents text_latents;;
                match outs2 with
                | OutImage image_vae_latents image_clip_latents =>
                    ret (Some (vae_decode_image image_vae_latents), None)
                | _ => raise TypeError
                end
            end
        | _ => raise TypeError
        end
    | m_unsupported => ret (None, None)
    end;;
  (* 8. Convert gen_image to PIL *)
  finish a gen_image gen_text.

(** The call of examples/inference/image_to_text_generation-unidiffuser.py
    and its like: every argument but [mode], [image] and [prompt] at its
    default. *)
Definition default_args (mode : Mode) (image : option Image) (prompt : option Prompt)
           (guidance_scale eta : F) : CallArgs :=
  mkCallArgs mode image prompt None None 50 guidance_scale None 1 1 1 eta GenNone
             None None None None None true None (StepsInt 1).

(** Compound modes as the specification words them: "t2i2t = run Loop
    Controller in t2i mode, then re-run in i2t mode seeded with the
    produced image latents; i2t2i = run i2t first, then t2i seeded with
    the produced text latent".  [run] is one loop-controller invocation. *)
Definition spec_t2i2t (run : Mode -> Tensor F -> Tensor F -> Tensor F -> M Outs)
           (image_vae_latents image_clip_latents prompt_embeds : Tensor F) : M Outs :=
  produced <- run m_t2i image_vae_latents image_clip_latents prompt_embeds;;
  match produced with
  | OutImage vae' clip' => run m_i2t vae' clip' prompt_embeds
  | _ => raise TypeError
  end.

Definition spec_i2t2i (run : Mode -> Tensor F -> Tensor F -> Tensor F -> M Outs)
           (image_vae_latents image_clip_latents prompt_embeds : Tensor F) : M Outs :=
  produced <- run m_i2t image_vae_latents image_clip_latents prompt_embeds;;
  match produced with
  | OutText text' => run m_t2i image_vae_latents image_clip_latents text'
  | _ => raise TypeError
  end.

End Dispatch.

(* ------------------------------------------------------------------ *)
(** ** The sibling pipeline: [UniDiffuserTextGenerationPipeline.prepare_latents]
       and the module-level [t_nnet] (pipeline_unidiffuser_t.py);
       [self.vae_scale_factor] is a parameter. *)

Module TextGeneration.
Section TextGeneration.
Context `{Collaborators}.
Variable vae_scale_factor : nat.

(** With a list of generators the source draws one sample of shape
    [1, C, H, W] per generator and concatenates them; the random source
    [randn] stands for both ways of drawing. *)
Definition prepare_latents (batch_size num_channels_latents height width : nat)
           (generator : Generator) (latents : option (Tensor F)) : M (Tensor F) :=
  let shape_ := [batch_size; num_channels_latents;
                 height / vae_scale_factor; width / vae_scale_factor] in
  if generator_mismatch generator batch_size then raise ValueError else
  latents <- match latents with
             | None => randn_tensor shape_ generator
             | Some l =>
                 if shape_eqb (shape l) shape_ then ret l else raise ValueError
             end;;
  sigma <- init_noise_sigma;;
  ret (mul_scalar latents sigma).

(** [t_nnet] (the module-level [N] is [len(_betas)]) *)
Definition t_nnet (x : Tensor F) (timesteps : Tensor Z) : M (Tensor F) :=
  let data_type := 1%Z in
  let z_shape := [4; 64; 64] in
  let clip_img_dim := 512 in
  b <- lift (shape0 x);;
  z <- paddle_randn (b :: z_shape);;
  b <- lift (shape0 x);;
  clip_img <- paddle_randn [b; 1; clip_img_dim];;
  '(z_out, clip_img_out, text_out) <-
    call_unet (mkUnetCall z clip_img x (ones_like_times timesteps N_betas) timesteps
                          (zeros_like_plus timesteps data_type));;
  ret text_out.

End TextGeneration.
End TextGeneration.

(* ------------------------------------------------------------------ *)
(** ** The sibling pipeline [UniDiffuserTextVariationPipeline]
       (pipeline_unidiffuser_t2i2t.py): its module-level codec and its two
       noise predictors.  Timesteps are integer tensors, as in the main
       pipeline. *)

Module TextVariation.
Section TextVariation.
Context `{Collaborators}.

(** The local constant [sample_scale = 7] of [t2i_nnet] and [i2t_nnet]. *)
Variable sample_scale : F.

(** [split(x, z_shape=(4, 64, 64), clip_img_dim=512)] *)
Definition split {A : Type} (x : Tensor A) (z_shape : nat * nat * nat)
           (clip_img_dim : nat) : Res (Tensor A * Tensor A) :=
  let '(C, H, W) := z_shape in
  let z_dim := C * H * W in
  let* parts := tensor_split x [z_dim; clip_img_dim] in
  match parts with
  | [z; clip_img] =>
      let* z := rearrange_flat_to_BCHW C H W z in
      let* clip_img := rearrange_flat_to_BLD 1 clip_img_dim clip_img in
      OK (z, clip_img)
  | _ => Raise ValueError
  end.

(** [combine(z, clip_img)] *)
Definition combine {A : Type} (z clip_img : Tensor A) : Res (Tensor A) :=
  let* z := rearrange_BCHW_to_flat z in
  let* clip_img := rearrange_BLD_to_flat clip_img in
  tensor_concat [z; clip_img].

(** [split_joint(x)] *)
Definition split_joint {A : Type} (x : Tensor A)
  : Res (Tensor A * Tensor A * Tensor A) :=
  let z_shape := (4, 64, 64) in
  let clip_img_dim := 512 in
  let text_dim := 64 in
  let '(C, H, W) := z_shape in
  let z_dim := C * H * W in
  let* parts := tensor_split x [z_dim; clip_img_dim; 77 * text_dim] in
  match parts with
  | [z; clip_img; text] =>
      let* z := rearrange_flat_to_BCHW C H W z in
      let* clip_img := rearrange_flat_to_BLD 1 clip_img_dim clip_img in
      let* text := rearrange_flat_to_BLD 77 text_dim text in
      OK (z, clip_img, text)
  | _ => Raise ValueError
  end.

(** [combine_joint(z, clip_img, text)] *)
Definition combine_joint {A : Type} (z clip_img text : Tensor A) : Res (Tensor A) :=
  let* z := rearrange_BCHW_to_flat z in
  let* clip_img := rearrange_BLD_to_flat clip_img in
  let* text := rearrange_BLD_to_flat text in
  tensor_concat [z; clip_img; text].

(** [t2i_nnet(x, timesteps, text)] *)
Definition t2i_nnet (x : Tensor F) (timesteps : Tensor Z) (text : Tensor F)
  : M (Tensor F) :=
  let data_type := 1%Z in
  '(z, clip_img) <- lift (split x (4, 64, 64) 512);;
  n <- lift (shape0 timesteps);;
  let t_text := zeros1 n in
  '(z_out, clip_img_out, text_out) <-
    call_unet (mkUnetCall z clip_img text timesteps t_text
                          (zeros_like_plus t_text data_type));;
  x_out <- lift (combine z_out clip_img_out);;
  if feqb sample_scale fzero then ret x_out else
  text_N <- paddle_randn (shape text);;
  '(z_out_uncond, clip_img_out_uncond, text_out_uncond) <-
    call_unet (mkUnetCall z clip_img text_N timesteps
                          (ones_like_times timesteps N_betas)
                          (zeros_like_plus t_text data_type));;
  x_out_uncond <- lift (combine z_out_uncond clip_img_out_uncond);;
  lift (guided x_out sample_scale x_out_uncond).

(** [i2t_nnet(x, timesteps, z, clip_img)] *)
Definition i2t_nnet (x : Tensor F) (timesteps : Tensor Z) (z clip_img : Tensor F)
  : M (Tensor F) :=
  let data_type := 1%Z in
  n <- lift (shape0 timesteps);;
  let t_img := zeros1 n in
  '(z_out, clip_img_out, text_out) <-
    call_unet (mkUnetCall z clip_img x t_img timesteps
                          (zeros_like_plus t_img data_type));;
  if feqb sample_scale fzero then ret text_out else
  z_N <- paddle_randn (shape z);;
  clip_img_N <- paddle_randn (shape clip_img);;
  '(z_out_uncond, clip_img_out_uncond, text_out_uncond) <-
    call_unet (mkUnetCall z_N clip_img_N x (ones_like_times timesteps N_betas)
                          timesteps (zeros_like_plus timesteps data_type));;
  lift (guided text_out sample_scale text_out_uncond).

End TextVariation.
End TextVariation.

(* ------------------------------------------------------------------ *)
(** ** Vocabulary of the statements: per-mode shapes and outputs *)

Section Vocabulary.
Context `{Collaborators}.
Variable cfg : PipelineConfig.

(** (B, C, height // scale, width // scale) *)
Definition vae_shape (B height width : nat) : list nat :=
  [B; num_channels_latents cfg;
   height / vae_scale_factor cfg; width / vae_scale_factor cfg].

(** (B, 1, 512) *)
Definition clip_shape (B : nat) : list nat := [B; 1; image_encoder_clip_img_dim].

(** (B, seq_len, 64) *)
Definition text_shape (B : nat) : list nat :=
  [B; text_encoder_seq_len cfg; text_encoder_text_dim].

Definition img_vae_dim (height width : nat) : nat :=
  num_channels_latents cfg * (height / vae_scale_factor cfg)
  * (width / vae_scale_factor cfg).

(** (B, C*h*w + 512) *)
Definition pair_shape (B height width : nat) : list nat :=
  [B; img_vae_dim height width + image_encoder_clip_img_dim].

(** (B, C*h*w + 512 + seq_len*64) *)
Definition joint_shape (B height width : nat) : list nat :=
  [B; img_vae_dim height width + image_encoder_clip_img_dim
      + text_encoder_seq_len cfg * text_encoder_text_dim].

(** The latent a mode diffuses is well formed and has the mode's layout
    (the text latent of the text-target modes has no prescribed shape). *)
Definition latent_ok (mode : Mode) (B height width : nat) (latents : Tensor F) : Prop :=
  match mode with
  | m_joint => has_shape (joint_shape B height width) latents
  | m_t2i | m_i => has_shape (pair_shape B height width) latents
  | m_i2t | m_t => wf latents
  | _ => False
  end.

(** The initial sub-latents handed to the loop fit the mode. *)
Definition stage_inputs_ok (mode : Mode) (B height width : nat)
           (image_vae_latents image_clip_latents prompt_embeds : Tensor F) : Prop :=
  match mode with
  | m_joint =>
      has_shape (vae_shape B height width) image_vae_latents
      /\ has_shape (clip_shape B) image_clip_latents
      /\ has_shape (text_shape B) prompt_embeds
  | m_t2i | m_i =>
      has_shape (vae_shape B height width) image_vae_latents
      /\ has_shape (clip_shape B) image_clip_latents
  | m_i2t | m_t => wf prompt_embeds
  | _ => False
  end.

(** What a stage returns has the mode's layout. *)
Definition outs_ok (mode : Mode) (B height width : nat) (outs : Outs) : Prop :=
  match mode, outs with
  | m_joint, OutJoint a b x =>
      has_shape (vae_shape B height width) a
      /\ has_shape (clip_shape B) b
      /\ has_shape (text_shape B) x
  | (m_t2i | m_i), OutImage a b =>
      has_shape (vae_shape B height width) a /\ has_shape (clip_shape B) b
  | (m_i2t | m_t), OutText x => wf x
  | _, _ => False
  end.

(** The subset of the network's three outputs that is relevant to a mode. *)
Definition relevant_output (mode : Mode) (o : Tensor F * Tensor F * Tensor F)
  : Res (Tensor F) :=
  match mode with
  | m_joint => _combine_joint (fst (fst o)) (snd (fst o)) (snd o)
  | m_t2i | m_i => _combine (fst (fst o)) (snd (fst o))
  | m_i2t | m_t => OK (snd o)
  | _ => Raise ValueError
  end.

(** The modes [get_noise_pred] and [_denoising_sample_fn] have a branch
    for; the compound modes are dispatched as "t2i" and "i2t". *)
Definition stage_modes : list Mode := [m_joint; m_t2i; m_i2t; m_t; m_i].

(** Network calls of one [get_noise_pred]: one conditioned pass, plus the
    unconditioned passes when guidance is on and the mode has a
    conditioning modality. *)
Definition calls_per_step (mode : Mode) (guidance_scale : F) : nat :=
  if feqb guidance_scale fzero then 1
  else match mode with
       | m_joint => 3
       | m_t2i | m_i2t => 2
       | _ => 1
       end.

Definition add_event (W : World) (e : Event) : World :=
  mkWorld (w_random W) (w_scheduler W) (w_trace W ++ [e]).

(** What the three latent-preparation functions have in common: the
    generator guard, then the override or a fresh draw, scaled by
    [init_noise_sigma]. *)
Definition prepared (shape_ : list nat) (batch_size : nat) (generator : Generator)
           (latents : option (Tensor F)) (W : World) : Res (Tensor F) * World :=
  if generator_mismatch generator batch_size then (Raise ValueError, W)
  else
    let sigma := scheduler_init_noise_sigma (w_scheduler W) in
    match latents with
    | Some l => (OK (mul_scalar l sigma), W)
    | None =>
        (OK (mul_scalar (fst (randn shape_ generator (w_random W))) sigma),
         mkWorld (snd (randn shape_ generator (w_random W))) (w_scheduler W) (w_trace W))
    end.

(** [x + g * (x - y)] on one element *)
Definition guide (g : F) (x y : F) : F := fadd x (fmul g (fsub x y)).

(** [x + g * (x - y)] elementwise on two tensors of one shape *)
Definition tensor_guide (g : F) (x y : Tensor F) : Tensor F :=
  mkTensor (shape x) (map2 (guide g) (data x) (data y)).

(** Samples returned by [scheduler.step], in order. *)
Fixpoint step_results (tr : list Event) : list (Tensor F) :=
  match tr with
  | [] => []
  | EvStep _ _ _ prev_sample :: tr' => prev_sample :: step_results tr'
  | _ :: tr' => step_results tr'
  end.

(** Arguments the callback received, in order. *)
Fixpoint callback_events (tr : list Event) : list (nat * Tensor Z * Tensor F) :=
  match tr with
  | [] => []
  | EvCallback i t latents :: tr' => (i, t, latents) :: callback_events tr'
  | _ :: tr' => callback_events tr'
  end.

(** The iterations at which [progress_bar.update()] runs. *)
Definition progress_at (len : nat) (num_warmup_steps : Z) (i : nat) : bool :=
  Z.eqb (Z.of_nat i) (Z.of_nat len - 1)
  || (Z.ltb num_warmup_steps (Z.of_nat i + 1)
      && Z.eqb ((Z.of_nat i + 1) mod scheduler_order) 0).

(** The callback fires at iteration [i]: the progress bar is updated and
    [i % callback_steps == 0]. *)
Definition fires (len : nat) (num_warmup_steps : Z) (callback : option Callback)
           (callback_steps : Z) (i : nat) : bool :=
  match callback with
  | Some _ =>
      progress_at len num_warmup_steps i && Z.eqb (Z.of_nat i mod callback_steps) 0
  | None => false
  end.

(** What the end of iteration [i] adds to the trace. *)
Definition iteration_reports (len : nat) (num_warmup_steps : Z)
           (callback : option Callback) (callback_steps : Z)
           (i : nat) (t : Tensor Z) (latents : Tensor F) : list Event :=
  if progress_at len num_warmup_steps i
  then EvProgress ::
       (if fires len num_warmup_steps callback callback_steps i
        then [EvCallback i t latents] else [])
  else [].

(** The callback's arguments over a run: iteration index, that
    iteration's timestep (a one-element tensor) and the sample returned by
    that iteration's scheduler step, for the iterations that fire. *)
Definition expected_callbacks (len : nat) (num_warmup_steps : Z)
           (callback : option Callback) (callback_steps : Z)
           (start : nat) (ts : list Z) (results : list (Tensor F))
  : list (nat * Tensor Z * Tensor F) :=
  map (fun e : nat * Z * Tensor F =>
         (fst (fst e), mkTensor [1] [snd (fst e)], snd e))
      (filter (fun e : nat * Z * Tensor F =>
                 fires len num_warmup_steps callback callback_steps (fst (fst e)))
              (combine (combine (seq start (length ts)) ts) results)).

End Vocabulary.

(* ------------------------------------------------------------------ *)
(** ** Contracts of the collaborators used as hypotheses *)

Section Contracts.
Context `{Collaborators}.

(** The network returns, for each modality, a well-formed tensor of the
    shape of the corresponding input. *)
Definition unet_respects_shapes : Prop :=
  forall c : UnetCall,
    has_shape (shape (c_img c)) (fst (fst (unet c)))
    /\ has_shape (shape (c_clip_img c)) (snd (fst (unet c)))
    /\ has_shape (shape (c_text c)) (snd (unet c)).

(** [scheduler.step] returns a sample shaped like the current one. *)
Definition step_respects_shapes : Prop :=
  forall (model_output : Tensor F) (t : Tensor Z) (sample : Tensor F)
         (kw : StepKwargs) (s : SchedulerState),
    has_shape (shape sample) model_output ->
    has_shape (shape sample) sample ->
    has_shape (shape sample) (fst (scheduler_step model_output t sample kw s)).

(** [set_timesteps(n)] installs a schedule of [n] timesteps, whatever
    happens to the scheduler afterwards is its own business. *)
Definition schedule_has_length (n : nat) (s : SchedulerState) : Prop :=
  length (scheduler_timesteps (scheduler_set_timesteps n s)) = n.

(** A float that is greater than 0.0 does not compare equal to 0.0. *)
Definition positive_is_nonzero : Prop :=
  forall g : F, fltb fzero g = true -> feqb g fzero = false.

End Contracts.

(* ------------------------------------------------------------------ *)
(** ** A deterministic stub instance (integer "floats", shape-preserving
       stub network, first-order scheduler) used for concrete runs *)

Module Stub.

Definition float_ops : FloatOps :=
  {| F := Z; fadd := Z.add; fsub := Z.sub; fmul := Z.mul;
     fzero := 0%Z; feqb := Z.eqb; fltb := Z.ltb |}.

(** Pad or truncate the buffer to the size announced by the shape (the
    identity on well-formed tensors). *)
Definition fit (x : Tensor Z) : Tensor Z :=
  mkTensor (shape x)
           (firstn (numel (shape x)) (data x ++ repeat 0%Z (numel (shape x)))).

Definition collaborators : @Collaborators float_ops :=
  {| unet := fun c : @UnetCall float_ops =>
               (fit (c_img c), fit (c_clip_img c), fit (c_text c));
     RandomState := nat;
     randn := fun s _ r => (mkTensor s (repeat (Z.of_nat r) (numel s)), S r);
     SchedulerState := list Z;
     scheduler_set_timesteps := fun n _ => map Z.of_nat (rev (seq 0 n));
     scheduler_timesteps := fun s => s;
     scheduler_order := 1%Z;
     scheduler_init_noise_sigma := fun _ => 1%Z;
     scheduler_step := fun model_output _ _ _ s => (model_output, s);
     step_accepts_eta := false;
     step_accepts_generator := false;
     text_encoder := fun _ => mkTensor [1; 77; 768] (repeat 0%Z (77 * 768));
     caption_encode_prefix := fun x => mkTensor [1; 77; 64] (repeat 0%Z (77 * 64));
     caption_generate_captions := fun _ => [EmptyString];
     PILImage := unit;
     pil_to_tensor := fun _ => mkTensor [1; 3; 8; 8] (repeat 0%Z 192);
     vae_encode_image := fun x _ _ _ r => (OK (mkTensor [1; 4; 1; 1] (repeat 0%Z 4)), r);
     clip_encode_image := fun _ _ _ _ r => (OK (mkTensor [1; 1; 512] (repeat 0%Z 512)), r);
     DecodedImages := Tensor Z;
     vae_decode_image := fun x => x;
     numpy_to_pil := fun x => x |}.

(** The released configuration: scale factor 8, 4 latent channels, 77
    tokens, 64 x 64 latent grid. *)
Definition cfg : PipelineConfig := mkConfig [128; 256; 512; 512] 4 77 64.

Definition world0 : @World float_ops collaborators :=
  @mkWorld float_ops collaborators 0 [] [].

Definition const (s : list nat) (v : Z) : Tensor Z := mkTensor s (repeat v (numel s)).

(** Sub-latents for batch 1 and height = width = 8 (a 1 x 1 latent grid). *)
Definition vae0 : Tensor Z := const [1; 4; 1; 1] 1.
Definition clip0 : Tensor Z := const [1; 1; 512] 2.
Definition text0 : Tensor Z := const [1; 77; 64] 3.
Definition pair0 : Tensor Z := const [1; 4 + 512] 5.
Definition joint0 : Tensor Z := const [1; 4 + 512 + 77 * 64] 5.

Definition kwargs0 : @StepKwargs float_ops := mkStepKwargs None None.

(** A two-step "t2i2t" call at height = width = 8 with guidance 7. *)
Definition args_t2i2t : @CallArgs float_ops collaborators :=
  @mkCallArgs float_ops collaborators
              m_t2i2t None (Some (PromptStr EmptyString)) (Some 8) (Some 8) 2 7%Z None
              1 1 1 0%Z GenNone None None None None None true None (StepsInt 1).

End Stub.

(* ------------------------------------------------------------------ *)
(** ** Elementwise operators on rows, blocks and lists of tensors *)

Section Elementwise.
Context `{FloatOps}.

Definition rows_map2 (f : F -> F -> F) (R R' : list (list F)) : list (list F) :=
  map (fun p : list F * list F => map2 f (fst p) (snd p)) (combine R R').

Definition blocks_map2 (f : F -> F -> F) (Bs Bs' : list (list (list F)))
  : list (list (list F)) :=
  map (fun p : list (list F) * list (list F) => rows_map2 f (fst p) (snd p))
      (combine Bs Bs').

Definition tensor_map2 (f : F -> F -> F) (x y : Tensor F) : Tensor F :=
  mkTensor (shape x) (map2 f (data x) (data y)).

Definition tensors_map2 (f : F -> F -> F) (xs ys : list (Tensor F)) : list (Tensor F) :=
  map (fun p : Tensor F * Tensor F => tensor_map2 f (fst p) (snd p)) (combine xs ys).

End Elementwise.

(* ------------------------------------------------------------------ *)
(** ** Further observations on a trace, and the random source's contract *)

Section Observations.
Context `{Collaborators}.

Definition is_progress (e : Event) : bool :=
  match e with EvProgress => true | _ => false end.

(** Number of [progress_bar.update()] calls. *)
Definition count_progress (tr : list Event) : nat := length (filter is_progress tr).

(** The [sample] argument of each [scheduler.step] call, in order. *)
Fixpoint step_samples (tr : list Event) : list (Tensor F) :=
  match tr with
  | [] => []
  | EvStep _ _ sample _ :: tr' => sample :: step_samples tr'
  | _ :: tr' => step_samples tr'
  end.

(** The timestep argument of each [scheduler.step] call, in order. *)
Fixpoint step_timesteps (tr : list Event) : list (Tensor Z) :=
  match tr with
  | [] => []
  | EvStep _ t _ _ :: tr' => t :: step_timesteps tr'
  | _ :: tr' => step_timesteps tr'
  end.

(** The network calls, in order. *)
Fixpoint unet_calls (tr : list Event) : list UnetCall :=
  match tr with
  | [] => []
  | EvUnet c :: tr' => c :: unet_calls tr'
  | _ :: tr' => unet_calls tr'
  end.

(** [randn_tensor(shape, ...)] returns a well-formed tensor of the
    requested shape. *)
Definition randn_respects_shapes : Prop :=
  forall (s : list nat) (g : Generator) (r : RandomState),
    has_shape s (fst (randn s g r)).

(** The batch size [__call__] works with once validation has passed. *)
Definition call_batch_size (a : CallArgs) : Res nat :=
  _infer_batch_size (a_mode a) (a_prompt a) (a_prompt_embeds a) (a_image a)
                    (a_num_samples a).

(** The [height] and [width] [__call__] validates (step 0). *)
Definition call_height (cfg : PipelineConfig) (a : CallArgs) : nat :=
  or_default (a_height a) (unet_img_size cfg * vae_scale_factor cfg).

Definition call_width (cfg : PipelineConfig) (a : CallArgs) : nat :=
  or_default (a_width a) (unet_img_size cfg * vae_scale_factor cfg).

End Observations.

(** A computation that may draw random numbers but makes no network,
    scheduler-step, progress or callback call and leaves the scheduler as
    it is. *)
Definition only_draws `{Collaborators} {A : Type} (m : M A) : Prop :=
  forall W : World,
    w_trace (snd (m W)) = w_trace W /\ w_scheduler (snd (m W)) = w_scheduler W.

(* ------------------------------------------------------------------ *)
(** ** The bodies of the two image encoders of [UniDiffuserPipeline]
       ([encode_image_vae_latents], [encode_image_clip_latents]), which
       [__call__] consults in mode "i2t", over the VAE and the CLIP image
       encoder as primitives.  The functions are modelled on the argument
       types [__call__] passes (a tensor for the VAE, a tensor or a PIL
       image for CLIP), for which the [isinstance] test at their head
       always passes; [deprecate(...)] only warns. *)

Module ImageEncoding.
Section ImageEncoding.
Context `{Collaborators}.

(** [self.vae.encode(x).latent_dist.sample()] *)
Variable vae_encode_sample : Tensor F -> RandomState -> Res (Tensor F) * RandomState.
(** [self.vae.scaling_factor] *)
Variable vae_scaling_factor : F.
(** [self.image_encoder(self.image_feature_extractor(images=x,
    return_tensors="pd").pixel_values).image_embeds] *)
Variable image_embeds : Tensor F + PILImage -> Res (Tensor F).

Fixpoint mapM {X Y : Type} (f : X -> M Y) (l : list X) : M (list Y) :=
  match l with
  | [] => ret []
  | x :: l' => y <- f x;; ys <- mapM f l';; ret (y :: ys)
  end.

(** [x[i : i + 1]] *)
Definition slice0 {X : Type} (x : Tensor X) (i : nat) : Res (Tensor X) :=
  match shape x with
  | [] => Raise IndexError
  | B :: rest =>
      OK (mkTensor ((if Nat.ltb i B then 1 else 0) :: rest)
                   (firstn (numel rest) (skipn (i * numel rest) (data x))))
  end.

(** First dimensions of tensors that agree on all other dimensions. *)
Fixpoint batches {X : Type} (rest : list nat) (xs : list (Tensor X))
  : option (list nat) :=
  match xs with
  | [] => Some []
  | x :: xs' =>
      match shape x, batches rest xs' with
      | b :: r, Some bs => if shape_eqb r rest then Some (b :: bs) else None
      | _, _ => None
      end
  end.

(** [paddle.concat(xs, axis=0)] *)
Definition concat0 {X : Type} (xs : list (Tensor X)) : Res (Tensor X) :=
  match xs with
  | [] => Raise PaddleError
  | x0 :: _ =>
      match shape x0 with
      | [] => Raise PaddleError
      | _ :: rest =>
          match batches rest xs with
          | Some bs => OK (mkTensor (list_sum bs :: rest) (concat (map (@data X) xs)))
          | None => Raise PaddleError
          end
      end
  end.

(** [x.unsqueeze(1)] *)
Definition unsqueeze1 {X : Type} (x : Tensor X) : Res (Tensor X) :=
  match shape x with
  | [] => Raise PaddleError
  | b :: rest => OK (mkTensor (b :: 1 :: rest) (data x))
  end.

(** [self.vae.encode(x).latent_dist.sample()], drawing from the random state *)
Definition vae_sample (x : Tensor F) : M (Tensor F) :=
  fun w =>
    let (r, rs) := vae_encode_sample x (w_random w) in
    (r, mkWorld rs (w_scheduler w) (w_trace w)).

Definition encode_image_vae_latents (image : Tensor F)
           (batch_size num_images_per_prompt : nat) (generator : Generator)
  : M (Tensor F) :=
  let batch_size := batch_size * num_images_per_prompt in
  if generator_mismatch generator batch_size then raise ValueError else
  image_latents <-
    match generator with
    | GenList _ =>
        image_latents <-
          mapM (fun i =>
                  image_i <- lift (slice0 image i);;
                  l <- vae_sample image_i;;
                  ret (mul_scalar l vae_scaling_factor))
               (seq 0 batch_size);;
        lift (concat0 image_latents)
    | _ =>
        l <- vae_sample image;;
        ret (mul_scalar l vae_scaling_factor)
    end;;
  n <- lift (shape0 image_latents);;
  if Nat.ltb n batch_size then
    if Nat.eqb n 0 then raise ZeroDivisionError
    else if Nat.eqb (batch_size mod n) 0 then
           (* expand image_latents for batch_size *)
           let additional_image_per_prompt := batch_size / n in
           lift (concat0 (repeat image_latents additional_image_per_prompt))
         else raise ValueError
  else lift (concat0 [image_latents]).

Definition encode_image_clip_latents (image : Tensor F + PILImage)
           (batch_size num_images_per_prompt : nat) (generator : Generator)
  : M (Tensor F) :=
  image_latents <-
    match generator with
    | GenList _ =>
        image_latents <-
          mapM (fun i =>
                  image_i <- lift (match image with
                                   | inl x =>
                                       let* s := slice0 x i in
                                       OK (inl s : Tensor F + PILImage)
                                   | inr _ => Raise TypeError
                                   end);;
                  e <- lift (image_embeds image_i);;
                  lift (unsqueeze1 e))
               (seq 0 batch_size);;
        lift (concat0 image_latents)
    | _ =>
        e <- lift (image_embeds image);;
        lift (unsqueeze1 e)
    end;;
  n <- lift (shape0 image_latents);;
  image_latents <-
    (if Nat.ltb n batch_size then
       if Nat.eqb n 0 then raise ZeroDivisionError
       else if Nat.eqb (batch_size mod n) 0 then
              (* expand image_latents for batch_size *)
              let additional_image_per_prompt := batch_size / n in
              lift (concat0 (repeat image_latents additional_image_per_prompt))
            else raise ValueError
     else lift (concat0 [image_latents]));;
  let batch_size := batch_size * num_images_per_prompt in
  if generator_mismatch generator batch_size then raise ValueError else
  ret image_latents.

End ImageEncoding.
End ImageEncoding.

(* ------------------------------------------------------------------ *)
(** ** [CaptionDecoder] (models/caption_decoder.py): [get_dummy_token],
       [generate_captions] and the token loop of [generate2] *)

Module CaptionDecoder.

Section Captions.
Context `{FloatOps}.

Variable prefix_length : nat.                 (* self.prefix_length *)
Variable use_beam_search : bool.              (* self.use_beam_search *)
Variable decode_prefix : Tensor F -> Tensor F.            (* self.decode_prefix *)
(** [self.generate_beam(embedding=feature)]: the captions of the beams, best first *)
Variable generate_beam : Tensor F -> Res (list string).
(** [self.generate2(embedding=feature)] *)
Variable generate2 : Tensor F -> Res string.

(** [paddle.split(x, num_or_sections, axis=0)] with an integer: that many
    equal parts along axis 0. *)
Definition paddle_split {X : Type} (x : Tensor X) (num : nat) : Res (list (Tensor X)) :=
  match shape x with
  | [] => Raise PaddleError
  | B :: rest =>
      if Nat.eqb num 0 then Raise PaddleError
      else if Nat.eqb (B mod num) 0
           then OK (map (fun part => mkTensor (B / num :: rest) part)
                        (chunk num (B / num * numel rest) (data x)))
           else Raise PaddleError
  end.

Definition get_dummy_token (batch_size : nat) : Tensor Z :=
  mkTensor [batch_size; prefix_length] (repeat 0%Z (batch_size * prefix_length)).

(** The loop [for feature in features] of [generate_captions]. *)
Fixpoint generate_captions_loop (features : list (Tensor F)) : Res (list string) :=
  match features with
  | [] => OK []
  | feature :: features' =>
      let feature := decode_prefix feature in   (* back to the clip feature *)
      let* caption :=
        if use_beam_search
        then let* texts := generate_beam feature in
             match texts with
             | text :: _ => OK text
             | [] => Raise IndexError
             end
        else generate2 feature in
      let* generated_captions := generate_captions_loop features' in
      OK (caption :: generated_captions)
  end.

Definition generate_captions (features : Tensor F) : Res (list string) :=
  let* features := paddle_split features 1 in
  generate_captions_loop features.

End Captions.

Section Generate2.

(** One position of [inputs_embeds]; the input is a batch of one sequence. *)
Variable E : Type.
(** The body of the token loop up to [next_token]: the network's logits at
    the last position, temperature, nucleus (top-p) filtering, argmax. *)
Variable next_token_of : list E -> Z.
Variable word_embeddings : Z -> E.     (* self.gpt.gpt.embeddings.word_embeddings *)
Variable stop_token_index : Z.         (* self.tokenizer.encode(stop_token)["input_ids"][0] *)
(** [self.tokenizer.decode(list(tokens.squeeze().cpu().numpy()))] *)
Variable decode_tokens : list Z -> Res string.

(** [for entry_idx in range(entry_length)] *)
Fixpoint generate2_loop (entry_length : nat) (tokens : option (list Z))
         (generated : list E) : option (list Z) * list E :=
  match entry_length with
  | 0 => (tokens, generated)
  | S entry_length' =>
      let next_token := next_token_of generated in
      let next_token_embed := word_embeddings next_token in
      let tokens := match tokens with
                    | None => [next_token]
                    | Some tokens => tokens ++ [next_token]
                    end in
      let generated := generated ++ [next_token_embed] in
      if Z.eqb stop_token_index next_token then (Some tokens, generated)
      else generate2_loop entry_length' (Some tokens) generated
  end.

(** [for i in range(entry_count)] *)
Fixpoint generate2_entries (entry_count entry_length : nat) (embedding : list E)
         (tokens : option (list Z)) (generated_list : list string)
  : Res (list string) :=
  match entry_count with
  | 0 => OK generated_list
  | S entry_count' =>
      let generated := embedding in
      let '(tokens, generated) := generate2_loop entry_length tokens generated in
      match tokens with
      | None => Raise AttributeError
      | Some output_list =>
          let* output_text := decode_tokens output_list in
          generate2_entries entry_count' entry_length embedding (Some output_list)
                            (generated_list ++ [output_text])
      end
  end.

(** [generate2(embedding=embedding, entry_count, entry_length)] *)
Definition generate2 (embedding : list E) (entry_count entry_length : nat) : Res string :=
  let* generated_list := generate2_entries entry_count entry_length embedding None [] in
  match generated_list with
  | text :: _ => OK text
  | [] => Raise IndexError
  end.

End Generate2.

Section Forward.
Context `{FloatOps}.

Variable prefix_length : nat.                      (* self.prefix_length *)
Variable hidden_dim : option nat.                  (* self.hidden_dim: [None] or an int *)
Variable word_embeddings : Tensor Z -> Tensor F.   (* self.gpt.gpt.embeddings.word_embeddings *)
Variable encode_prefix : Tensor F -> Tensor F.     (* self.encode_prefix *)
Variable decode_prefix : Tensor F -> Tensor F.     (* self.decode_prefix *)
Variables GptOutput Mask : Type.
(** [self.gpt(inputs_embeds=..., labels=..., attention_mask=...)] *)
Variable gpt : Tensor F -> option (Tensor Z) -> option Mask -> GptOutput.

(** [paddle.concat((x, y), axis=1)] on 3-D tensors *)
Definition concat_axis1 {X : Type} (x y : Tensor X) : Res (Tensor X) :=
  match shape x, shape y with
  | [B; L; D], [B'; L'; D'] =>
      if Nat.eqb B B' && Nat.eqb D D'
      then OK (mkTensor [B; L + L'; D]
                        (concat (zip_app (chunk B (L * D) (data x))
                                         (chunk B (L' * D) (data y)))))
      else Raise PaddleError
  | _, _ => Raise PaddleError
  end.

(** [forward(tokens, prefix, mask, labels)]; the second component is
    [hidden] when [self.hidden_dim] is truthy. *)
Definition forward (tokens : Tensor Z) (prefix : Tensor F) (mask : option Mask)
           (labels : option (Tensor Z)) : Res (GptOutput * option (Tensor F)) :=
  let embedding_text := word_embeddings tokens in
  let hidden := encode_prefix prefix in
  let prefix := decode_prefix hidden in
  let* embedding_cat := concat_axis1 prefix embedding_text in
  let* labels :=
    match labels with
    | Some _ =>
        let* b := shape0 tokens in
        let dummy_token := get_dummy_token prefix_length b in
        let* labels := tensor_concat [dummy_token; tokens] in
        OK (Some labels)
    | None => OK None
    end in
  let out := gpt embedding_cat labels mask in
  match hidden_dim with
  | Some (S _) => OK (out, Some hidden)
  | _ => OK (out, None)
  end.

End Forward.

End CaptionDecoder.

(* ------------------------------------------------------------------ *)
(** ** More concrete inputs on the stub instance *)

Module StubRuns.

(** A two-step call at width 8 with prompt [""], guidance 7 and every
    other argument at its default. *)
Definition args (mode : Mode) (height : option nat) (generator : Generator)
           (num_images_per_prompt : nat) : @CallArgs Stub.float_ops Stub.collaborators :=
  @mkCallArgs Stub.float_ops Stub.collaborators
              mode None (Some (PromptStr EmptyString)) height (Some 8) 2 7%Z None
              num_images_per_prompt 1 1 0%Z generator None None None None None true
              None (StepsInt 1).

(** A VAE whose sampled latent is its input, and a CLIP encoder that
    embeds one image. *)
Definition vae_encode_sample (x : Tensor Z) (r : nat) : Res (Tensor Z) * nat := (OK x, r).

Definition image_embeds (x : Tensor Z + unit) : Res (Tensor Z) :=
  OK (Stub.const [1; 512] 0%Z).

(** Two text latents. *)
Definition text2 : Tensor Z := Stub.const [2; 77; 64] 3.

(** A packed image latent for batch 1 and the 64 x 64 latent grid. *)
Definition pair512 : Tensor Z := Stub.const [1; 4 * 64 * 64 + 512] 5.

End StubRuns.

(* ================================================================== *)
(** * Properties *)

(* ------------------------------------------------------------------ *)
(** ** Rows and blocks *)

Section Rows.
Context {A : Type}.

Lemma chunk_block (B n : nat) (l : list A) :
  length l = B * n -> block_ok B n (chunk B n l).
Proof.
  revert l; induction B as [|B IH]; intros l Hl; simpl.
  - split; [reflexivity | constructor].
  - simpl in Hl.
    destruct (IH (skipn n l)) as [Hlen Hrows].
    { rewrite length_skipn; lia. }
    split; [simpl; congruence|].
    constructor; [rewrite length_firstn; lia | exact Hrows].
Qed.

Lemma concat_chunk (B n : nat) (l : list A) :
  length l = B * n -> concat (chunk B n l) = l.
Proof.
  revert l; induction B as [|B IH]; intros l Hl; simpl in *.
  - destruct l; [reflexivity | discriminate].
  - rewrite IH by (rewrite length_skipn; lia).
    apply firstn_skipn.
Qed.

Lemma chunk_concat (B n : nat) (rows : list (list A)) :
  block_ok B n rows -> chunk B n (concat rows) = rows.
Proof.
  revert B; induction rows as [|r rows IH]; intros B [Hlen Hrows].
  - simpl in Hlen; subst B; reflexivity.
  - simpl in Hlen; subst B; inversion Hrows as [|? ? Hr Hrs]; subst.
    simpl.
    rewrite firstn_app, Nat.sub_diag, firstn_all, firstn_O, app_nil_r.
    rewrite skipn_app, Nat.sub_diag, skipn_all; simpl.
    f_equal; apply IH; split; [reflexivity | assumption].
Qed.

Lemma length_concat_block (B n : nat) (rows : list (list A)) :
  block_ok B n rows -> length (concat rows) = B * n.
Proof.
  revert B; induction rows as [|r rows IH]; intros B [Hlen Hrows];
    simpl in Hlen; subst B; simpl; [reflexivity|].
  inversion Hrows; subst.
  rewrite length_app, (IH (length rows)); [lia | split; auto].
Qed.

Lemma zip_app_firstn_skipn (a : nat) (rows : list (list A)) :
  zip_app (map (firstn a) rows) (map (skipn a) rows) = rows.
Proof.
  induction rows as [|r rows IH]; simpl; [reflexivity|].
  now rewrite firstn_skipn, IH.
Qed.

Lemma zip_app_block (B a b : nat) (r X : list (list A)) :
  block_ok B a r -> block_ok B b X -> block_ok B (a + b) (zip_app r X).
Proof.
  revert B X; induction r as [|x r IH]; intros B X [Hl Hr] [HlX HX];
    simpl in Hl; subst B.
  - destruct X; [|discriminate]. split; [reflexivity | constructor].
  - destruct X as [|y X]; [discriminate|].
    inversion Hr; inversion HX; subst.
    simpl in HlX.
    assert (HX' : block_ok (length r) (length y) X) by (split; [lia | assumption]).
    assert (Hr0 : block_ok (length r) (length x) r) by (split; auto).
    destruct (IH (length r) X Hr0 HX') as [Hl' Hr'].
    split; simpl; [congruence|].
    constructor; [rewrite length_app; lia | assumption].
Qed.

Lemma map_firstn_zip_app (B a b : nat) (r X : list (list A)) :
  block_ok B a r -> block_ok B b X -> map (firstn a) (zip_app r X) = r.
Proof.
  revert B X; induction r as [|x r IH]; intros B X [Hl Hr] [HlX HX];
    simpl in Hl; subst B.
  - reflexivity.
  - destruct X as [|y X]; [discriminate|].
    inversion Hr; inversion HX; subst; simpl.
    rewrite firstn_app, Nat.sub_diag, firstn_all, firstn_O, app_nil_r.
    simpl in HlX.
    f_equal; apply (IH (length r) X); split; auto; lia.
Qed.

Lemma map_skipn_zip_app (B a b : nat) (r X : list (list A)) :
  block_ok B a r -> block_ok B b X -> map (skipn a) (zip_app r X) = X.
Proof.
  revert B X; induction r as [|x r IH]; intros B X [Hl Hr] [HlX HX];
    simpl in Hl; subst B.
  - destruct X; [reflexivity | discriminate].
  - destruct X as [|y X]; [discriminate|].
    inversion Hr; inversion HX; subst; simpl.
    rewrite skipn_app, Nat.sub_diag, skipn_all; simpl.
    simpl in HlX.
    f_equal; apply (IH (length r) X); split; auto; lia.
Qed.

Lemma repeat_nil_block (B : nat) : block_ok B 0 (repeat (@nil A) B).
Proof.
  split; [apply repeat_length|].
  induction B; simpl; constructor; auto.
Qed.

Lemma hcat_block (B : nat) (secs : list nat) (blocks : list (list (list A))) :
  Forall2 (block_ok B) secs blocks -> block_ok B (list_sum secs) (hcat B blocks).
Proof.
  induction 1 as [|a r secs blocks Hr _ IH]; simpl.
  - apply repeat_nil_block.
  - now apply zip_app_block.
Qed.

Lemma hsplit_hcat (B : nat) (secs : list nat) (blocks : list (list (list A))) :
  Forall2 (block_ok B) secs blocks -> hsplit secs (hcat B blocks) = blocks.
Proof.
  induction 1 as [|a r secs blocks Hr Hall IH]; simpl; [reflexivity|].
  pose proof (hcat_block Hall) as HX.
  rewrite (map_firstn_zip_app Hr HX), (map_skipn_zip_app Hr HX).
  now rewrite IH.
Qed.

Lemma block_zero (B : nat) (rows : list (list A)) :
  block_ok B 0 rows -> rows = repeat [] B.
Proof.
  revert B; induction rows as [|r rows IH]; intros B [Hl Hr];
    simpl in Hl; subst B; simpl; [reflexivity|].
  inversion Hr as [|? ? H0 Hrs]; subst.
  destruct r; [|discriminate].
  f_equal; apply IH; split; auto.
Qed.

Lemma map_firstn_block (B a b : nat) (rows : list (list A)) :
  block_ok B (a + b) rows -> block_ok B a (map (firstn a) rows).
Proof.
  intros [Hl Hr]; split; [now rewrite length_map|].
  apply Forall_map; eapply Forall_impl; [|exact Hr].
  simpl; intros row Hrow; rewrite length_firstn; lia.
Qed.

Lemma map_skipn_block (B a b : nat) (rows : list (list A)) :
  block_ok B (a + b) rows -> block_ok B b (map (skipn a) rows).
Proof.
  intros [Hl Hr]; split; [now rewrite length_map|].
  apply Forall_map; eapply Forall_impl; [|exact Hr].
  simpl; intros row Hrow; rewrite length_skipn; lia.
Qed.

Lemma hsplit_block (B : nat) (secs : list nat) (rows : list (list A)) :
  block_ok B (list_sum secs) rows -> Forall2 (block_ok B) secs (hsplit secs rows).
Proof.
  revert rows; induction secs as [|a secs IH]; intros rows Hrows; simpl.
  - constructor.
  - simpl in Hrows; constructor.
    + eapply map_firstn_block; eassumption.
    + apply IH; eapply map_skipn_block; eassumption.
Qed.

Lemma hcat_hsplit (B : nat) (secs : list nat) (rows : list (list A)) :
  block_ok B (list_sum secs) rows -> hcat B (hsplit secs rows) = rows.
Proof.
  revert rows; induction secs as [|a secs IH]; intros rows Hrows; simpl.
  - symmetry; now apply block_zero.
  - simpl in Hrows.
    rewrite IH by (eapply map_skipn_block; eassumption).
    apply zip_app_firstn_skipn.
Qed.

End Rows.

(* ------------------------------------------------------------------ *)
(** ** [split] and [concat] along the feature axis are mutually inverse *)

Section SplitConcat.
Context {A : Type}.

Lemma numel2 (B a : nat) : numel [B; a] = B * a.
Proof. unfold numel; simpl; now rewrite Nat.mul_1_r. Qed.

Lemma numel3 (B a b : nat) : numel [B; a; b] = B * (a * b).
Proof. unfold numel; simpl; now rewrite Nat.mul_1_r. Qed.

Lemma numel4 (B a b c : nat) : numel [B; a; b; c] = B * (a * b * c).
Proof. unfold numel; simpl; rewrite Nat.mul_1_r; f_equal; lia. Qed.

Lemma blocks_of_cons (B a : nat) (secs : list nat) (x : Tensor A) (xs : list (Tensor A)) :
  blocks_of B (a :: secs) (x :: xs) = chunk B a (data x) :: blocks_of B secs xs.
Proof. reflexivity. Qed.

Lemma widths_sections (B : nat) (secs : list nat) (xs : list (Tensor A)) :
  Forall2 (fun a x => has_shape [B; a] x) secs xs -> widths B xs = Some secs.
Proof.
  induction 1 as [|a x secs xs [Hs _] _ IH]; simpl; [reflexivity|].
  unfold width2; rewrite Hs, Nat.eqb_refl, IH; reflexivity.
Qed.

Lemma blocks_of_sections (B : nat) (secs : list nat) (xs : list (Tensor A)) :
  Forall2 (fun a x => has_shape [B; a] x) secs xs ->
  Forall2 (block_ok B) secs (blocks_of B secs xs).
Proof.
  induction 1 as [|a x secs xs [Hs Hd] _ IH];
    [constructor | rewrite blocks_of_cons; constructor; auto].
  apply chunk_block; now rewrite Hd, numel2.
Qed.

Lemma mk_sections_blocks_of (B : nat) (secs : list nat) (xs : list (Tensor A)) :
  Forall2 (fun a x => has_shape [B; a] x) secs xs ->
  mk_sections B secs (blocks_of B secs xs) = xs.
Proof.
  induction 1 as [|a x secs xs [Hs Hd] _ IH]; [reflexivity|].
  rewrite blocks_of_cons; cbn [mk_sections]; rewrite IH.
  rewrite concat_chunk by (now rewrite Hd, numel2).
  destruct x as [sx dx]; simpl in *; now subst sx.
Qed.

Lemma mk_sections_shapes (B : nat) (secs : list nat) (blocks : list (list (list A))) :
  Forall2 (block_ok B) secs blocks ->
  Forall2 (fun a x => has_shape [B; a] x) secs (mk_sections B secs blocks).
Proof.
  induction 1 as [|a r secs blocks Hr _ IH]; simpl; constructor; auto.
  split; [reflexivity|]; cbn [data].
  rewrite numel2; now apply length_concat_block.
Qed.

Lemma blocks_of_mk_sections (B : nat) (secs : list nat) (blocks : list (list (list A))) :
  Forall2 (block_ok B) secs blocks ->
  blocks_of B secs (mk_sections B secs blocks) = blocks.
Proof.
  induction 1 as [|a r secs blocks Hr _ IH]; [reflexivity|].
  cbn [mk_sections]; rewrite blocks_of_cons; cbn [data].
  now rewrite IH, chunk_concat.
Qed.

(** Concatenating well-shaped sections and splitting the result at the
    same widths gives the sections back. *)
Lemma split_concat (B : nat) (secs : list nat) (xs : list (Tensor A)) :
  xs <> [] ->
  Forall2 (fun a x => has_shape [B; a] x) secs xs ->
  exists c, tensor_concat xs = OK c
            /\ has_shape [B; list_sum secs] c
            /\ tensor_split c secs = OK xs.
Proof.
  intros Hne Hall.
  pose proof (widths_sections Hall) as Hw.
  pose proof (blocks_of_sections Hall) as Hb.
  pose proof (hcat_block Hb) as Hcat.
  destruct xs as [|x0 xs']; [congruence|].
  inversion Hall as [|a0 ? secs' ? [Hs0 _] _]; subst.
  exists (mkTensor [B; list_sum (a0 :: secs')]
                   (concat (hcat B (blocks_of B (a0 :: secs') (x0 :: xs'))))).
  split; [|split].
  - unfold tensor_concat; rewrite Hs0, Hw; reflexivity.
  - split; [reflexivity|].
    rewrite numel2; now apply length_concat_block.
  - unfold tensor_split; cbn [shape data].
    rewrite Nat.eqb_refl, (chunk_concat Hcat), (hsplit_hcat Hb).
    now rewrite mk_sections_blocks_of.
Qed.

(** Splitting a flat tensor whose width is the sum of the sections and
    concatenating the parts gives the tensor back. *)
Lemma concat_split (B : nat) (secs : list nat) (x : Tensor A) :
  secs <> [] ->
  has_shape [B; list_sum secs] x ->
  exists parts, tensor_split x secs = OK parts
                /\ Forall2 (fun a p => has_shape [B; a] p) secs parts
                /\ tensor_concat parts = OK x.
Proof.
  intros Hne [Hs Hd].
  rewrite numel2 in Hd.
  pose proof (chunk_block B (list_sum secs) (data x) Hd) as Hrows.
  pose proof (hsplit_block secs Hrows) as Hblocks.
  pose proof (mk_sections_shapes Hblocks) as Hshapes.
  exists (mk_sections B secs (hsplit secs (chunk B (list_sum secs) (data x)))).
  split; [|split]; auto.
  - unfold tensor_split; rewrite Hs, Nat.eqb_refl; reflexivity.
  - pose proof (widths_sections Hshapes) as Hw.
    remember (mk_sections B secs (hsplit secs (chunk B (list_sum secs) (data x))))
      as parts eqn:Hparts.
    destruct parts as [|p0 parts'].
    { inversion Hshapes; subst; congruence. }
    inversion Hshapes as [|a0 ? secs' ? [Hs0 _] _]; subst secs.
    unfold tensor_concat; rewrite Hs0, Hw.
    fold (blocks_of B (a0 :: secs') (p0 :: parts')).
    rewrite Hparts, (blocks_of_mk_sections Hblocks), (hcat_hsplit _ Hrows).
    rewrite (concat_chunk _ _ _ Hd).
    destruct x as [sx dx]; simpl in *; now subst sx.
Qed.

End SplitConcat.

(* ------------------------------------------------------------------ *)
(** ** The latent codec *)

Section CodecFacts.
Context {A : Type}.
Variable cfg : PipelineConfig.
Variables height width : nat.

#[local] Abbreviation C := (num_channels_latents cfg).
#[local] Abbreviation h := (height / vae_scale_factor cfg).
#[local] Abbreviation w := (width / vae_scale_factor cfg).
#[local] Abbreviation Dc := image_encoder_clip_img_dim.
#[local] Abbreviation L := (text_encoder_seq_len cfg).
#[local] Abbreviation Dt := text_encoder_text_dim.

Lemma flat_of_BCHW (B : nat) (x : Tensor A) :
  has_shape [B; C; h; w] x ->
  rearrange_BCHW_to_flat x = OK (mkTensor [B; C * h * w] (data x))
  /\ has_shape [B; C * h * w] (mkTensor [B; C * h * w] (data x))
  /\ rearrange_flat_to_BCHW C h w (mkTensor [B; C * h * w] (data x)) = OK x.
Proof.
  intros [Hs Hd]; rewrite numel4 in Hd.
  unfold rearrange_BCHW_to_flat, rearrange_flat_to_BCHW, has_shape.
  cbn [shape data]; rewrite Hs, Nat.eqb_refl, numel2.
  repeat split; auto.
  destruct x as [sx dx]; simpl in *; now subst sx.
Qed.

Lemma flat_of_BLD (B l d : nat) (x : Tensor A) :
  has_shape [B; l; d] x ->
  rearrange_BLD_to_flat x = OK (mkTensor [B; l * d] (data x))
  /\ has_shape [B; l * d] (mkTensor [B; l * d] (data x))
  /\ rearrange_flat_to_BLD l d (mkTensor [B; l * d] (data x)) = OK x.
Proof.
  intros [Hs Hd]; rewrite numel3 in Hd.
  unfold rearrange_BLD_to_flat, rearrange_flat_to_BLD, has_shape.
  cbn [shape data]; rewrite Hs, Nat.eqb_refl, numel2.
  repeat split; auto.
  destruct x as [sx dx]; simpl in *; now subst sx.
Qed.

Lemma BCHW_of_flat (B : nat) (p : Tensor A) :
  has_shape [B; C * h * w] p ->
  rearrange_flat_to_BCHW C h w p = OK (mkTensor [B; C; h; w] (data p))
  /\ has_shape [B; C; h; w] (mkTensor [B; C; h; w] (data p))
  /\ rearrange_BCHW_to_flat (mkTensor [B; C; h; w] (data p)) = OK p.
Proof.
  intros [Hs Hd]; rewrite numel2 in Hd.
  unfold rearrange_BCHW_to_flat, rearrange_flat_to_BCHW, has_shape.
  cbn [shape data]; rewrite Hs, Nat.eqb_refl, numel4.
  repeat split; auto.
  destruct p as [sp dp]; simpl in *; now subst sp.
Qed.

Lemma BLD_of_flat (B l d : nat) (p : Tensor A) :
  has_shape [B; l * d] p ->
  rearrange_flat_to_BLD l d p = OK (mkTensor [B; l; d] (data p))
  /\ has_shape [B; l; d] (mkTensor [B; l; d] (data p))
  /\ rearrange_BLD_to_flat (mkTensor [B; l; d] (data p)) = OK p.
Proof.
  intros [Hs Hd]; rewrite numel2 in Hd.
  unfold rearrange_BLD_to_flat, rearrange_flat_to_BLD, has_shape.
  cbn [shape data]; rewrite Hs, Nat.eqb_refl, numel3.
  repeat split; auto.
  destruct p as [sp dp]; simpl in *; now subst sp.
Qed.

Lemma list_sum2 (a b : nat) : list_sum [a; b] = a + b.
Proof. unfold list_sum; cbn [fold_right]; lia. Qed.

Lemma list_sum3 (a b c : nat) : list_sum [a; b; c] = a + b + c.
Proof. unfold list_sum; cbn [fold_right]; lia. Qed.

Lemma one_mul_shape (B d : nat) (x : Tensor A) :
  has_shape [B; 1 * d] x <-> has_shape [B; d] x.
Proof. now rewrite Nat.mul_1_l. Qed.

(** unpack (pack (img_vae, img_clip)) = (img_vae, img_clip) *)
Lemma split_combine (B : nat) (img_vae img_clip : Tensor A) :
  has_shape [B; C; h; w] img_vae ->
  has_shape [B; 1; Dc] img_clip ->
  exists x, _combine img_vae img_clip = OK x
            /\ has_shape [B; C * h * w + Dc] x
            /\ _split cfg x height width = OK (img_vae, img_clip).
Proof.
  intros Ha Hb.
  destruct (flat_of_BCHW Ha) as (Ea & Sa & Ra).
  destruct (flat_of_BLD Hb) as (Eb & Sb & Rb).
  rewrite Nat.mul_1_l in Eb, Sb.
  assert (Rb' : rearrange_flat_to_BLD 1 Dc (mkTensor [B; Dc] (data img_clip))
                = OK img_clip).
  { rewrite <- Rb; now rewrite Nat.mul_1_l. }
  destruct (@split_concat A B [C * h * w; Dc]
              [mkTensor [B; C * h * w] (data img_vae);
               mkTensor [B; Dc] (data img_clip)])
    as (x & Hx & Sx & Px);
    [discriminate | constructor; [exact Sa | constructor; [exact Sb | constructor]] |].
  exists x; split; [|split].
  - unfold _combine; rewrite Ea, Eb; exact Hx.
  - now rewrite list_sum2 in Sx.
  - unfold _split; cbv zeta.
    rewrite Px; cbn [res_bind]; rewrite Ra; cbn [res_bind].
    now rewrite Rb'.
Qed.

(** pack (unpack x) = x *)
Lemma combine_split (B : nat) (x : Tensor A) :
  has_shape [B; C * h * w + Dc] x ->
  exists img_vae img_clip,
    _split cfg x height width = OK (img_vae, img_clip)
    /\ has_shape [B; C; h; w] img_vae
    /\ has_shape [B; 1; Dc] img_clip
    /\ _combine img_vae img_clip = OK x.
Proof.
  intros Hx.
  destruct (@concat_split A B [C * h * w; Dc] x) as (parts & Hp & Hsh & Hc);
    [discriminate | now rewrite list_sum2 |].
  inversion Hsh as [|? p1 ? ps1 H1 Hsh1]; subst.
  inversion Hsh1 as [|? p2 ? ps2 H2 Hsh2]; subst.
  inversion Hsh2; subst.
  destruct (BCHW_of_flat H1) as (E1 & S1 & R1).
  apply one_mul_shape in H2.
  destruct (BLD_of_flat 1 Dc H2) as (E2 & S2 & R2).
  exists (mkTensor [B; C; h; w] (data p1)), (mkTensor [B; 1; Dc] (data p2)).
  repeat split; try (apply S1 || apply S2).
  - unfold _split; cbv zeta.
    rewrite Hp; cbn [res_bind]; rewrite E1; cbn [res_bind].
    now rewrite E2.
  - unfold _combine; rewrite R1; cbn [res_bind]; rewrite R2; exact Hc.
Qed.

(** unpack (pack (img_vae, img_clip, text)) = (img_vae, img_clip, text) *)
Lemma split_combine_joint (B : nat) (img_vae img_clip text : Tensor A) :
  has_shape [B; C; h; w] img_vae ->
  has_shape [B; 1; Dc] img_clip ->
  has_shape [B; L; Dt] text ->
  exists x, _combine_joint img_vae img_clip text = OK x
            /\ has_shape [B; C * h * w + Dc + L * Dt] x
            /\ _split_joint cfg x height width = OK (img_vae, img_clip, text).
Proof.
  intros Ha Hb Ht.
  destruct (flat_of_BCHW Ha) as (Ea & Sa & Ra).
  destruct (flat_of_BLD Hb) as (Eb & Sb & Rb).
  destruct (flat_of_BLD Ht) as (Et & St & Rt).
  rewrite Nat.mul_1_l in Eb, Sb.
  assert (Rb' : rearrange_flat_to_BLD 1 Dc (mkTensor [B; Dc] (data img_clip))
                = OK img_clip).
  { rewrite <- Rb; now rewrite Nat.mul_1_l. }
  destruct (@split_concat A B [C * h * w; Dc; L * Dt]
              [mkTensor [B; C * h * w] (data img_vae);
               mkTensor [B; Dc] (data img_clip);
               mkTensor [B; L * Dt] (data text)])
    as (x & Hx & Sx & Px);
    [discriminate
    | constructor; [exact Sa | constructor; [exact Sb | constructor; [exact St | constructor]]] |].
  exists x; split; [|split].
  - unfold _combine_joint; rewrite Ea, Eb; cbn [res_bind]; rewrite Et; exact Hx.
  - now rewrite list_sum3 in Sx.
  - unfold _split_joint; cbv zeta.
    rewrite Px; cbn [res_bind]; rewrite Ra; cbn [res_bind].
    rewrite Rb'; cbn [res_bind]; now rewrite Rt.
Qed.

(** pack (unpack x) = x, joint layout *)
Lemma combine_split_joint (B : nat) (x : Tensor A) :
  has_shape [B; C * h * w + Dc + L * Dt] x ->
  exists img_vae img_clip text,
    _split_joint cfg x height width = OK (img_vae, img_clip, text)
    /\ has_shape [B; C; h; w] img_vae
    /\ has_shape [B; 1; Dc] img_clip
    /\ has_shape [B; L; Dt] text
    /\ _combine_joint img_vae img_clip text = OK x.
Proof.
  intros Hx.
  destruct (@concat_split A B [C * h * w; Dc; L * Dt] x) as (parts & Hp & Hsh & Hc);
    [discriminate | now rewrite list_sum3 |].
  inversion Hsh as [|? p1 ? ps1 H1 Hsh1]; subst.
  inversion Hsh1 as [|? p2 ? ps2 H2 Hsh2]; subst.
  inversion Hsh2 as [|? p3 ? ps3 H3 Hsh3]; subst.
  inversion Hsh3; subst.
  destruct (BCHW_of_flat H1) as (E1 & S1 & R1).
  apply one_mul_shape in H2.
  destruct (BLD_of_flat 1 Dc H2) as (E2 & S2 & R2).
  destruct (BLD_of_flat L Dt H3) as (E3 & S3 & R3).
  exists (mkTensor [B; C; h; w] (data p1)), (mkTensor [B; 1; Dc] (data p2)),
         (mkTensor [B; L; Dt] (data p3)).
  repeat split; try (apply S1 || apply S2 || apply S3).
  - unfold _split_joint; cbv zeta.
    rewrite Hp; cbn [res_bind]; rewrite E1; cbn [res_bind].
    rewrite E2; cbn [res_bind]; now rewrite E3.
  - unfold _combine_joint; rewrite R1; cbn [res_bind]; rewrite R2; cbn [res_bind].
    rewrite R3; exact Hc.
Qed.

End CodecFacts.

(* ------------------------------------------------------------------ *)
(** ** Running the monad *)

Section Runs.
Context `{Collaborators}.

Lemma bind_OK {A B : Type} {m : M A} {W W1 : World} {a : A}
      (Hm : m W = (OK a, W1)) (k : A -> M B) :
  bind m k W = k a W1.
Proof. unfold bind; now rewrite Hm. Qed.

Lemma bind_Raise {A B : Type} {m : M A} {W W1 : World} {e : Exn}
      (Hm : m W = (Raise e, W1)) (k : A -> M B) :
  bind m k W = (Raise e, W1).
Proof. unfold bind; now rewrite Hm. Qed.

Lemma call_unet_run (c : UnetCall) (W : World) :
  call_unet c W = (OK (unet c), add_event W (EvUnet c)).
Proof. reflexivity. Qed.

Lemma randn_tensor_run (s : list nat) (g : Generator) (W : World) :
  randn_tensor s g W =
  (OK (fst (randn s g (w_random W))),
   mkWorld (snd (randn s g (w_random W))) (w_scheduler W) (w_trace W)).
Proof. unfold randn_tensor; now destruct (randn s g (w_random W)). Qed.

Lemma paddle_randn_run (s : list nat) (W : World) :
  paddle_randn s W =
  (OK (fst (randn s GenNone (w_random W))),
   mkWorld (snd (randn s GenNone (w_random W))) (w_scheduler W) (w_trace W)).
Proof. apply randn_tensor_run. Qed.

Lemma step_run (mo : Tensor F) (t : Tensor Z) (s : Tensor F) (kw : StepKwargs)
      (W : World) :
  step mo t s kw W =
  (OK (fst (scheduler_step mo t s kw (w_scheduler W))),
   mkWorld (w_random W) (snd (scheduler_step mo t s kw (w_scheduler W)))
           (w_trace W ++ [EvStep mo t s (fst (scheduler_step mo t s kw (w_scheduler W)))])).
Proof. unfold step; now destruct (scheduler_step mo t s kw (w_scheduler W)). Qed.

Lemma shape_eqb_refl (s : list nat) : shape_eqb s s = true.
Proof. unfold shape_eqb; destruct (list_eq_dec Nat.eq_dec s s); congruence. Qed.

Lemma shape_eqb_eq (s1 s2 : list nat) : shape_eqb s1 s2 = true -> s1 = s2.
Proof. unfold shape_eqb; destruct (list_eq_dec Nat.eq_dec s1 s2); congruence. Qed.

Lemma length_map2 (f : F -> F -> F) (xs ys : list F) :
  length xs = length ys -> length (map2 f xs ys) = length xs.
Proof.
  intros Hl; unfold map2; rewrite length_map, length_combine; lia.
Qed.

Lemma map2_guide (g : F) (xs ys : list F) :
  map2 fadd xs (map (fun a => fmul g a) (map2 fsub xs ys)) = map2 (guide g) xs ys.
Proof.
  unfold map2; revert ys; induction xs as [|x xs IH]; intros [|y ys]; simpl;
    try reflexivity.
  now rewrite IH.
Qed.

(** [x + g * (x - y)] is computed elementwise, whenever the shapes agree. *)
Lemma guided_run (s : list nat) (g : F) (x y : Tensor F) :
  has_shape s x -> has_shape s y ->
  guided x g y = OK (mkTensor s (map2 (guide g) (data x) (data y)))
  /\ has_shape s (mkTensor s (map2 (guide g) (data x) (data y))).
Proof.
  intros [Hsx Hdx] [Hsy Hdy]; split.
  - unfold guided, tensor_sub, tensor_add, tensor_zip.
    rewrite Hsx, Hsy, shape_eqb_refl; cbn [res_bind scalar_mul shape data].
    now rewrite shape_eqb_refl, map2_guide.
  - split; [reflexivity|]; cbn [data].
    rewrite length_map2; congruence.
Qed.

End Runs.

(* ------------------------------------------------------------------ *)
(** ** Symbolic runs of [get_noise_pred], mode by mode *)

Section NoisePredictor.
Context `{Collaborators}.
Variable cfg : PipelineConfig.
Hypothesis unet_ok : unet_respects_shapes.

Lemma unet_out_img (c : UnetCall) (s : list nat) :
  shape (c_img c) = s -> has_shape s (fst (fst (unet c))).
Proof. intros <-; apply unet_ok. Qed.

Lemma unet_out_clip (c : UnetCall) (s : list nat) :
  shape (c_clip_img c) = s -> has_shape s (snd (fst (unet c))).
Proof. intros <-; apply unet_ok. Qed.

Lemma unet_out_text (c : UnetCall) (s : list nat) :
  shape (c_text c) = s -> has_shape s (snd (unet c)).
Proof. intros <-; apply unet_ok. Qed.

Lemma call_unet_bind {B : Type} (c : UnetCall) (W : World)
      (k : Tensor F * Tensor F * Tensor F -> M B) :
  bind (call_unet c) k W = k (unet c) (add_event W (EvUnet c)).
Proof. reflexivity. Qed.

Lemma paddle_randn_bind {B : Type} (s : list nat) (W : World) (k : Tensor F -> M B) :
  bind (paddle_randn s) k W =
  k (fst (randn s GenNone (w_random W)))
    (mkWorld (snd (randn s GenNone (w_random W))) (w_scheduler W) (w_trace W)).
Proof. apply (bind_OK (paddle_randn_run s W)). Qed.

Lemma lift_bind {A B : Type} (a : A) (W : World) (k : A -> M B) :
  bind (lift (OK a)) k W = k a W.
Proof. reflexivity. Qed.

(** Mode "t2i". *)
Lemma get_noise_pred_t2i (B height width n : nat) (latents : Tensor F) (t : Tensor Z)
      (prompt_embeds img_vae img_clip : Tensor F) (N : Z) (g : F) (dt : Z) (W : World) :
  has_shape (pair_shape cfg B height width) latents ->
  shape0 t = OK n ->
  exists a b x_out,
    _split cfg latents height width = OK (a, b)
    /\ has_shape (vae_shape cfg B height width) a
    /\ has_shape (clip_shape B) b
    /\ let c1 := mkUnetCall a b prompt_embeds t (zeros1 n)
                            (zeros_like_plus (zeros1 n) dt) in
       relevant_output m_t2i (unet c1) = OK x_out
       /\ has_shape (pair_shape cfg B height width) x_out
       /\ (feqb g fzero = true ->
           get_noise_pred cfg m_t2i latents t prompt_embeds img_vae img_clip
                          N g height width dt W
           = (OK (Some x_out), add_event W (EvUnet c1)))
       /\ (feqb g fzero = false ->
           let r := randn (shape prompt_embeds) GenNone (w_random W) in
           let c2 := mkUnetCall a b (fst r) t (ones_like_times t N)
                                (zeros_like_plus (zeros1 n) dt) in
           exists x_out_uncond res,
             relevant_output m_t2i (unet c2) = OK x_out_uncond
             /\ guided x_out g x_out_uncond = OK res
             /\ has_shape (pair_shape cfg B height width) res
             /\ get_noise_pred cfg m_t2i latents t prompt_embeds img_vae img_clip
                               N g height width dt W
                = (OK (Some res),
                   mkWorld (snd r) (w_scheduler W)
                           (w_trace W ++ [EvUnet c1; EvUnet c2]))).
Proof.
  intros Hl Ht.
  destruct (combine_split cfg height width Hl) as (a & b & Hs & Ha & Hb & _).
  exists a, b.
  set (c1 := mkUnetCall a b prompt_embeds t (zeros1 n) (zeros_like_plus (zeros1 n) dt)).
  destruct (split_combine cfg height width
              (unet_out_img c1 (proj1 Ha)) (unet_out_clip c1 (proj1 Hb)))
    as (x_out & Hc1 & Sx & _).
  exists x_out; repeat split; try (apply Ha || apply Hb || apply Sx || exact Hs).
  - exact Hc1.
  - intros Hg; unfold get_noise_pred.
    rewrite Hs, lift_bind, Ht, lift_bind; fold c1.
    rewrite call_unet_bind.
    destruct (unet c1) as [[oa ob] ot]; cbn [fst snd relevant_output] in Hc1.
    now rewrite Hc1, lift_bind, Hg.
  - intros Hg r c2.
    destruct (split_combine cfg height width
                (unet_out_img c2 (proj1 Ha)) (unet_out_clip c2 (proj1 Hb)))
      as (xu & Hc2 & Su & _).
    destruct (guided_run g Sx Su) as [Hgd Sres].
    exists xu; eexists; split; [exact Hc2 | split; [exact Hgd | split; [exact Sres |]]].
    unfold get_noise_pred.
    rewrite Hs, lift_bind, Ht, lift_bind; fold c1.
    rewrite call_unet_bind.
    destruct (unet c1) as [[oa ob] ot]; cbn [fst snd relevant_output] in Hc1.
    rewrite Hc1, lift_bind, Hg, paddle_randn_bind.
    cbn [add_event w_random w_scheduler w_trace]; fold r; fold c2.
    rewrite call_unet_bind.
    destruct (unet c2) as [[ua ub] ut]; cbn [fst snd relevant_output] in Hc2.
    rewrite Hc2, lift_bind, Hgd, lift_bind.
    unfold ret, add_event; cbn [w_random w_scheduler w_trace].
    now rewrite <- app_assoc.
Qed.

(** Mode "i": no guidance branch. *)
Lemma get_noise_pred_i (B height width : nat) (latents : Tensor F) (t : Tensor Z)
      (prompt_embeds img_vae img_clip : Tensor F) (N : Z) (g : F) (dt : Z) (W : World) :
  has_shape (pair_shape cfg B height width) latents ->
  exists a b x_out,
    _split cfg latents height width = OK (a, b)
    /\ has_shape (vae_shape cfg B height width) a
    /\ has_shape (clip_shape B) b
    /\ let c1 := mkUnetCall a b prompt_embeds t (ones_like_times t N)
                            (zeros_like_plus (ones_like_times t N) dt) in
       relevant_output m_i (unet c1) = OK x_out
       /\ has_shape (pair_shape cfg B height width) x_out
       /\ get_noise_pred cfg m_i latents t prompt_embeds img_vae img_clip
                         N g height width dt W
          = (OK (Some x_out), add_event W (EvUnet c1)).
Proof.
  intros Hl.
  destruct (combine_split cfg height width Hl) as (a & b & Hs & Ha & Hb & _).
  exists a, b.
  set (c1 := mkUnetCall a b prompt_embeds t (ones_like_times t N)
                        (zeros_like_plus (ones_like_times t N) dt)).
  destruct (split_combine cfg height width
              (unet_out_img c1 (proj1 Ha)) (unet_out_clip c1 (proj1 Hb)))
    as (x_out & Hc1 & Sx & _).
  exists x_out; repeat split; try (apply Ha || apply Hb || apply Sx || exact Hs).
  - exact Hc1.
  - unfold get_noise_pred.
    rewrite Hs, lift_bind; cbv zeta; fold c1.
    rewrite call_unet_bind.
    destruct (unet c1) as [[oa ob] ot]; cbn [fst snd relevant_output] in Hc1.
    now rewrite Hc1, lift_bind.
Qed.

(** Mode "t": no guidance branch. *)
Lemma get_noise_pred_t (latents : Tensor F) (t : Tensor Z)
      (prompt_embeds img_vae img_clip : Tensor F) (N : Z) (g : F)
      (height width : nat) (dt : Z) (W : World) :
  let c1 := mkUnetCall img_vae img_clip latents (ones_like_times t N) t
                       (zeros_like_plus t dt) in
  has_shape (shape latents) (snd (unet c1))
  /\ get_noise_pred cfg m_t latents t prompt_embeds img_vae img_clip
                    N g height width dt W
     = (OK (Some (snd (unet c1))), add_event W (EvUnet c1)).
Proof.
  intros c1; split; [now apply unet_out_text|].
  unfold get_noise_pred; fold c1.
  rewrite call_unet_bind.
  now destruct (unet c1) as [[oa ob] ot].
Qed.

(** Mode "i2t". *)
Lemma get_noise_pred_i2t (n : nat) (latents : Tensor F) (t : Tensor Z)
      (prompt_embeds img_vae img_clip : Tensor F) (N : Z) (g : F)
      (height width : nat) (dt : Z) (W : World) :
  shape0 t = OK n ->
  let c1 := mkUnetCall img_vae img_clip latents (zeros1 n) t
                       (zeros_like_plus (zeros1 n) dt) in
  has_shape (shape latents) (snd (unet c1))
  /\ (feqb g fzero = true ->
      get_noise_pred cfg m_i2t latents t prompt_embeds img_vae img_clip
                     N g height width dt W
      = (OK (Some (snd (unet c1))), add_event W (EvUnet c1)))
  /\ (feqb g fzero = false ->
      let r1 := randn (shape img_vae) GenNone (w_random W) in
      let r2 := randn (shape img_clip) GenNone (snd r1) in
      let c2 := mkUnetCall (fst r1) (fst r2) latents (ones_like_times t N) t
                           (zeros_like_plus t dt) in
      exists res,
        guided (snd (unet c1)) g (snd (unet c2)) = OK res
        /\ has_shape (shape latents) res
        /\ get_noise_pred cfg m_i2t latents t prompt_embeds img_vae img_clip
                          N g height width dt W
           = (OK (Some res),
              mkWorld (snd r2) (w_scheduler W)
                      (w_trace W ++ [EvUnet c1; EvUnet c2]))).
Proof.
  intros Ht c1.
  assert (S1 : has_shape (shape latents) (snd (unet c1))) by now apply unet_out_text.
  split; [exact S1 | split].
  - intros Hg; unfold get_noise_pred.
    rewrite Ht, lift_bind; fold c1.
    rewrite call_unet_bind.
    destruct (unet c1) as [[oa ob] ot]; cbn [snd].
    now rewrite Hg.
  - intros Hg r1 r2 c2.
    assert (S2 : has_shape (shape latents) (snd (unet c2))) by now apply unet_out_text.
    destruct (guided_run g S1 S2) as [Hgd Sres].
    eexists; split; [exact Hgd | split; [exact Sres |]].
    unfold get_noise_pred.
    rewrite Ht, lift_bind; fold c1.
    rewrite call_unet_bind.
    destruct (unet c1) as [[oa ob] ot]; cbn [snd] in *.
    rewrite Hg, paddle_randn_bind.
    cbn [add_event w_random w_scheduler w_trace]; fold r1.
    rewrite paddle_randn_bind.
    cbn [add_event w_random w_scheduler w_trace]; fold r2; fold c2.
    rewrite call_unet_bind.
    destruct (unet c2) as [[ua ub] ut]; cbn [snd] in *.
    rewrite Hgd, lift_bind.
    unfold ret, add_event; cbn [w_random w_scheduler w_trace].
    now rewrite <- app_assoc.
Qed.

(** Mode "joint": one conditioned pass and, under guidance, one pass with
    the image forced to noise and one with the text forced to noise. *)
Lemma get_noise_pred_joint (B height width : nat) (latents : Tensor F) (t : Tensor Z)
      (prompt_embeds img_vae img_clip : Tensor F) (N : Z) (g : F) (dt : Z) (W : World) :
  has_shape (joint_shape cfg B height width) latents ->
  exists a b x x_out,
    _split_joint cfg latents height width = OK (a, b, x)
    /\ has_shape (vae_shape cfg B height width) a
    /\ has_shape (clip_shape B) b
    /\ has_shape (text_shape cfg B) x
    /\ let c1 := mkUnetCall a b x t t (zeros_like_plus t dt) in
       relevant_output m_joint (unet c1) = OK x_out
       /\ has_shape (joint_shape cfg B height width) x_out
       /\ (feqb g fzero = true ->
           get_noise_pred cfg m_joint latents t prompt_embeds img_vae img_clip
                          N g height width dt W
           = (OK (Some x_out), add_event W (EvUnet c1)))
       /\ (feqb g fzero = false ->
           let r1 := randn (shape img_vae) GenNone (w_random W) in
           let r2 := randn (shape img_clip) GenNone (snd r1) in
           let c2 := mkUnetCall (fst r1) (fst r2) x (ones_like_times t N) t
                                (zeros_like_plus t dt) in
           let r3 := randn (shape prompt_embeds) GenNone (snd r2) in
           let c3 := mkUnetCall a b (fst r3) t (ones_like_times t N)
                                (zeros_like_plus t dt) in
           exists x_out_uncond res,
             _combine_joint (fst (fst (unet c3))) (snd (fst (unet c3))) (snd (unet c2))
             = OK x_out_uncond
             /\ has_shape (joint_shape cfg B height width) x_out_uncond
             /\ guided x_out g x_out_uncond = OK res
             /\ has_shape (joint_shape cfg B height width) res
             /\ get_noise_pred cfg m_joint latents t prompt_embeds img_vae img_clip
                               N g height width dt W
                = (OK (Some res),
                   mkWorld (snd r3) (w_scheduler W)
                           (w_trace W ++ [EvUnet c1; EvUnet c2; EvUnet c3]))).
Proof.
  intros Hl.
  destruct (combine_split_joint cfg height width Hl)
    as (a & b & x & Hs & Ha & Hb & Hx & _).
  exists a, b, x.
  set (c1 := mkUnetCall a b x t t (zeros_like_plus t dt)).
  destruct (split_combine_joint cfg height width
              (unet_out_img c1 (proj1 Ha)) (unet_out_clip c1 (proj1 Hb))
              (unet_out_text c1 (proj1 Hx)))
    as (x_out & Hc1 & Sx & _).
  exists x_out; repeat split;
    try (apply Ha || apply Hb || apply Hx || apply Sx || exact Hs).
  - exact Hc1.
  - intros Hg; unfold get_noise_pred.
    rewrite Hs, lift_bind; fold c1.
    rewrite call_unet_bind.
    destruct (unet c1) as [[oa ob] ot]; cbn [fst snd relevant_output] in Hc1.
    now rewrite Hc1, lift_bind, Hg.
  - intros Hg r1 r2 c2 r3 c3.
    destruct (split_combine_joint cfg height width
                (unet_out_img c3 (proj1 Ha)) (unet_out_clip c3 (proj1 Hb))
                (unet_out_text c2 (proj1 Hx)))
      as (xu & Hcu & Su & _).
    destruct (guided_run g Sx Su) as [Hgd Sres].
    exists xu; eexists;
      split; [exact Hcu | split; [exact Su | split; [exact Hgd | split; [exact Sres |]]]].
    unfold get_noise_pred.
    rewrite Hs, lift_bind; fold c1.
    rewrite call_unet_bind.
    destruct (unet c1) as [[oa ob] ot]; cbn [fst snd relevant_output] in Hc1.
    rewrite Hc1, lift_bind, Hg, paddle_randn_bind.
    cbn [add_event w_random w_scheduler w_trace]; fold r1.
    rewrite paddle_randn_bind.
    cbn [add_event w_random w_scheduler w_trace]; fold r2; fold c2.
    rewrite call_unet_bind.
    destruct (unet c2) as [[ua2 ub2] ut2]; cbn [fst snd] in Hcu.
    rewrite paddle_randn_bind.
    cbn [add_event w_random w_scheduler w_trace]; fold r3; fold c3.
    rewrite call_unet_bind.
    destruct (unet c3) as [[ua3 ub3] ut3]; cbn [fst snd] in Hcu.
    rewrite Hcu, lift_bind, Hgd, lift_bind.
    unfold ret, add_event; cbn [w_random w_scheduler w_trace].
    now rewrite <- !app_assoc.
Qed.

End NoisePredictor.

(* ------------------------------------------------------------------ *)
(** ** Traces *)

Section Traces.
Context `{Collaborators}.

Lemma count_unet_app (a b : list Event) :
  count_unet (a ++ b) = count_unet a + count_unet b.
Proof. unfold count_unet; now rewrite filter_app, length_app. Qed.

Lemma count_step_app (a b : list Event) :
  count_step (a ++ b) = count_step a + count_step b.
Proof. unfold count_step; now rewrite filter_app, length_app. Qed.

Lemma step_results_app (a b : list Event) :
  step_results (a ++ b) = step_results a ++ step_results b.
Proof. induction a as [|[] a IH]; simpl; congruence. Qed.

Lemma callback_events_app (a b : list Event) :
  callback_events (a ++ b) = callback_events a ++ callback_events b.
Proof. induction a as [|[] a IH]; simpl; congruence. Qed.

Lemma callback_indices_events (tr : list Event) :
  callback_indices tr = map (fun e => fst (fst e)) (callback_events tr).
Proof. induction tr as [|[] tr IH]; simpl; congruence. Qed.

Lemma count_callback_events (tr : list Event) :
  count_callback tr = length (callback_events tr).
Proof.
  unfold count_callback; induction tr as [|[] tr IH]; simpl; congruence.
Qed.

Lemma unet_events (calls : list UnetCall) :
  count_unet (map EvUnet calls) = length calls
  /\ count_step (map EvUnet calls) = 0
  /\ step_results (map EvUnet calls) = []
  /\ callback_events (map EvUnet calls) = [].
Proof.
  unfold count_unet, count_step.
  induction calls as [|c calls (IH1 & IH2 & IH3 & IH4)]; simpl; auto.
Qed.

Lemma reports_events (len : nat) (warm : Z) (cb : option Callback) (k : Z)
      (i : nat) (t : Tensor Z) (l : Tensor F) :
  count_unet (iteration_reports len warm cb k i t l) = 0
  /\ count_step (iteration_reports len warm cb k i t l) = 0
  /\ step_results (iteration_reports len warm cb k i t l) = []
  /\ callback_events (iteration_reports len warm cb k i t l)
     = if fires len warm cb k i then [(i, t, l)] else [].
Proof.
  unfold iteration_reports, fires.
  destruct cb as [c|]; destruct (progress_at len warm i); cbn [andb];
    try destruct (Z.eqb (Z.of_nat i mod k) 0); cbn; auto.
Qed.

End Traces.

(* ------------------------------------------------------------------ *)
(** ** The denoising loop *)

Section Loop.
Context `{Collaborators}.
Variable cfg : PipelineConfig.
Hypothesis unet_ok : unet_respects_shapes.
Hypothesis step_ok : step_respects_shapes.

Lemma get_noise_pred_total (mode : Mode) (B height width n : nat)
      (latents : Tensor F) (t : Tensor Z) (prompt_embeds img_vae img_clip : Tensor F)
      (N : Z) (g : F) (dt : Z) (W : World) :
  In mode stage_modes ->
  latent_ok cfg mode B height width latents ->
  shape0 t = OK n ->
  exists np rs calls,
    get_noise_pred cfg mode latents t prompt_embeds img_vae img_clip
                   N g height width dt W
    = (OK (Some np), mkWorld rs (w_scheduler W) (w_trace W ++ map EvUnet calls))
    /\ has_shape (shape latents) np
    /\ length calls = calls_per_step mode g.
Proof.
  intros Hm Hl Ht.
  unfold calls_per_step.
  destruct Hm as [<-|[<-|[<-|[<-|[<-|[]]]]]]; cbn [latent_ok] in Hl.
  - destruct (get_noise_pred_joint unet_ok t prompt_embeds img_vae img_clip N g dt W Hl)
      as (a & b & x & x_out & _ & _ & _ & _ & _ & Sx & R0 & R1).
    rewrite (proj1 Hl).
    destruct (feqb g fzero) eqn:Hg.
    + eexists x_out, _, [_]; split; [apply (R0 eq_refl) | auto].
    + destruct (R1 eq_refl) as (xu & res & _ & _ & _ & Sres & R).
      eexists res, _, [_; _; _]; split; [apply R | auto].
  - destruct (get_noise_pred_t2i unet_ok t prompt_embeds img_vae img_clip N g dt W Hl Ht)
      as (a & b & x_out & _ & _ & _ & _ & Sx & R0 & R1).
    rewrite (proj1 Hl).
    destruct (feqb g fzero) eqn:Hg.
    + eexists x_out, _, [_]; split; [apply (R0 eq_refl) | auto].
    + destruct (R1 eq_refl) as (xu & res & _ & _ & Sres & R).
      eexists res, _, [_; _]; split; [apply R | auto].
  - destruct (get_noise_pred_i2t cfg unet_ok latents t prompt_embeds img_vae img_clip
                                 N g height width dt W Ht)
      as (Sx & R0 & R1).
    destruct (feqb g fzero) eqn:Hg.
    + eexists _, _, [_]; split; [apply (R0 eq_refl) | auto].
    + destruct (R1 eq_refl) as (res & _ & Sres & R).
      eexists res, _, [_; _]; split; [apply R | auto].
  - destruct (get_noise_pred_t cfg unet_ok latents t prompt_embeds img_vae img_clip
                               N g height width dt W)
      as (Sx & R0).
    eexists _, _, [_]; split; [apply R0 | split; [exact Sx|]].
    now destruct (feqb g fzero).
  - destruct (get_noise_pred_i unet_ok t prompt_embeds img_vae img_clip N g dt W Hl)
      as (a & b & x_out & _ & _ & _ & _ & Sx & R0).
    rewrite (proj1 Hl).
    eexists x_out, _, [_]; split; [apply R0 | split; [exact Sx|]].
    now destruct (feqb g fzero).
Qed.

Lemma latent_ok_next (mode : Mode) (B height width : nat) (cur next : Tensor F) :
  latent_ok cfg mode B height width cur ->
  has_shape (shape cur) next ->
  latent_ok cfg mode B height width next.
Proof.
  intros Hl [Hs Hd].
  assert (Hwf : wf next) by (unfold wf; now rewrite Hs).
  destruct mode; cbn [latent_ok] in *; try contradiction; try exact Hwf;
    destruct Hl as [Hsc Hdc]; (split; [congruence | now rewrite <- Hsc]).
Qed.

Lemma latent_ok_wf (mode : Mode) (B height width : nat) (cur : Tensor F) :
  latent_ok cfg mode B height width cur -> has_shape (shape cur) cur.
Proof.
  intros Hl.
  assert (Hwf : wf cur -> has_shape (shape cur) cur) by (intros Hw; split; auto).
  destruct mode; cbn [latent_ok] in *; try contradiction; try (now apply Hwf);
    destruct Hl as [Hsc Hdc]; apply Hwf; unfold wf; now rewrite Hsc.
Qed.

Lemma after_step_run (i len : nat) (warm : Z) (t : Tensor Z) (latents : Tensor F)
      (cb : option Callback) (k : Z) (W : World) :
  i < len ->
  cb = None \/ k <> 0%Z ->
  scheduler_order <> 0%Z \/ (Z.of_nat len <= warm)%Z ->
  after_step i len warm t latents cb k W
  = (OK tt, mkWorld (w_random W) (w_scheduler W)
                    (w_trace W ++ iteration_reports len warm cb k i t latents)).
Proof.
  intros Hi Hk Ho.
  assert (Hreport :
            forall W0 : World,
              bind (emit EvProgress)
                   (fun _ =>
                      match cb with
                      | None => ret tt
                      | Some _ =>
                          if Z.eqb k 0 then raise ZeroDivisionError
                          else if Z.eqb (Z.of_nat i mod k) 0
                               then emit (EvCallback i t latents)
                               else ret tt
                      end) W0
              = (OK tt, mkWorld (w_random W0) (w_scheduler W0)
                                (w_trace W0 ++ EvProgress ::
                                   (match cb with
                                    | Some _ =>
                                        if Z.eqb (Z.of_nat i mod k) 0
                                        then [EvCallback i t latents] else []
                                    | None => []
                                    end)))).
  { intros W0; unfold bind, emit, ret; cbn [w_random w_scheduler w_trace].
    destruct cb as [c|]; [|reflexivity].
    destruct Hk as [Hk|Hk]; [discriminate|].
    apply Z.eqb_neq in Hk; rewrite Hk.
    destruct (Z.eqb (Z.of_nat i mod k) 0); [|reflexivity].
    cbn [w_random w_scheduler w_trace]; now rewrite <- app_assoc. }
  assert (Hskip : (OK tt, W) = (OK tt, mkWorld (w_random W) (w_scheduler W)
                                               (w_trace W ++ []))).
  { rewrite app_nil_r; now destruct W. }
  unfold after_step, iteration_reports, fires, progress_at.
  destruct (Z.eqb (Z.of_nat i) (Z.of_nat len - 1)) eqn:Hlast; cbn [orb].
  - rewrite Hreport; destruct cb; cbn [andb]; reflexivity.
  - destruct (Z.ltb warm (Z.of_nat i + 1)) eqn:Hw; cbn [andb].
    + destruct (Z.eqb scheduler_order 0) eqn:Hord.
      * apply Z.eqb_eq in Hord; apply Z.ltb_lt in Hw.
        destruct Ho as [Ho|Ho]; [contradiction | lia].
      * destruct (Z.eqb ((Z.of_nat i + 1) mod scheduler_order) 0).
        -- rewrite Hreport; destruct cb; cbn [andb]; reflexivity.
        -- exact Hskip.
    + exact Hskip.
Qed.


Lemma ret_bind {A B : Type} (a : A) (W : World) (k : A -> M B) :
  bind (ret a) k W = k a W.
Proof. reflexivity. Qed.

(** The loop over a suffix of the enumerated schedule. *)
Lemma denoising_loop_run (mode : Mode) (B height width len : nat) (warm : Z)
      (prompt_embeds image_vae_latents image_clip_latents : Tensor F)
      (N : Z) (g : F) (kw : StepKwargs) (cb : option Callback) (k : Z) :
  In mode stage_modes ->
  cb = None \/ k <> 0%Z ->
  scheduler_order <> 0%Z \/ (Z.of_nat len <= warm)%Z ->
  forall (ts : list Z) (start : nat) (cur : Tensor F) (W : World),
    start + length ts <= len ->
    latent_ok cfg mode B height width cur ->
    exists final W' tr,
      denoising_loop cfg mode (combine (seq start (length ts)) ts) len warm (Some cur)
                     prompt_embeds image_vae_latents image_clip_latents
                     N g height width kw cb k W
      = (OK (Some final), W')
      /\ latent_ok cfg mode B height width final
      /\ w_trace W' = w_trace W ++ tr
      /\ count_unet tr = length ts * calls_per_step mode g
      /\ count_step tr = length ts
      /\ length (step_results tr) = length ts
      /\ callback_events tr
         = expected_callbacks len warm cb k start ts (step_results tr).
Proof.
  intros Hm Hk Ho ts.
  induction ts as [|tz ts IH]; intros start cur W Hlen Hl.
  - exists cur, W, []; cbn; rewrite app_nil_r; repeat split; auto.
  - cbn [length] in Hlen.
    set (t := mkTensor [1] [tz]).
    destruct (@get_noise_pred_total mode B height width 1 cur t prompt_embeds
                                    image_vae_latents image_clip_latents
                                    N g 1%Z W Hm Hl eq_refl)
      as (np & rs & calls & Hrun & Snp & Hcalls).
    pose proof (@step_ok np t cur kw (w_scheduler W) Snp (@latent_ok_wf mode B height width cur Hl)) as Snext.
    set (W1 := mkWorld rs (w_scheduler W) (w_trace W ++ map EvUnet calls)) in *.
    pose proof (step_run np t cur kw W1) as Hstep.
    cbn [W1 w_random w_scheduler w_trace] in Hstep.
    set (next := fst (scheduler_step np t cur kw (w_scheduler W))) in *.
    set (W2 := mkWorld rs (snd (scheduler_step np t cur kw (w_scheduler W)))
                       ((w_trace W ++ map EvUnet calls) ++ [EvStep np t cur next])) in *.
    assert (Hi : start < len) by lia.
    pose proof (@after_step_run start len warm t next cb k W2 Hi Hk Ho) as Hafter.
    cbn [W2 w_random w_scheduler w_trace] in Hafter.
    set (W3 := mkWorld rs (snd (scheduler_step np t cur kw (w_scheduler W)))
                       (((w_trace W ++ map EvUnet calls) ++ [EvStep np t cur next])
                          ++ iteration_reports len warm cb k start t next)) in *.
    destruct (IH (S start) next W3) as (final & W' & tr & Hloop & Hf & Htr & Hcu & Hcs & Hsr & Hce);
      [lia | exact (@latent_ok_next mode B height width cur next Hl Snext) |].
    exists final, W',
      (map EvUnet calls ++ [EvStep np t cur next]
         ++ iteration_reports len warm cb k start t next ++ tr).
    destruct (unet_events calls) as (U1 & U2 & U3 & U4).
    destruct (reports_events len warm cb k start t next) as (R1 & R2 & R3 & R4).
    split; [|split; [exact Hf | split; [|split; [|split; [|split]]]]].
    + cbn [length seq combine denoising_loop]; fold t.
      rewrite ret_bind, (bind_OK Hrun), ret_bind, (bind_OK Hstep), (bind_OK Hafter).
      exact Hloop.
    + rewrite Htr; cbn [W3 w_trace]; now rewrite <- !app_assoc.
    + rewrite !count_unet_app, U1, R1, Hcu, Hcalls; cbn; lia.
    + rewrite !count_step_app, U2, R2, Hcs; cbn; lia.
    + rewrite !step_results_app, U3, R3; cbn; now rewrite Hsr.
    + rewrite !callback_events_app, U4, R4, !step_results_app, U3, R3, Hce.
      unfold expected_callbacks; cbn [app step_results length seq combine filter fst snd].
      destruct (fires len warm cb k start); reflexivity.
Qed.

End Loop.

(* ------------------------------------------------------------------ *)
(** ** One run of [_denoising_sample_fn] *)

Section SampleFn.
Context `{Collaborators}.
Variable cfg : PipelineConfig.
Hypothesis unet_ok : unet_respects_shapes.
Hypothesis step_ok : step_respects_shapes.

Lemma pack_latents_run (mode : Mode) (B height width : nat)
      (image_vae_latents image_clip_latents prompt_embeds : Tensor F) :
  stage_inputs_ok cfg mode B height width image_vae_latents image_clip_latents
                  prompt_embeds ->
  exists init,
    pack_latents mode image_vae_latents image_clip_latents prompt_embeds = OK (Some init)
    /\ latent_ok cfg mode B height width init.
Proof.
  intros Hin; destruct mode; cbn [stage_inputs_ok pack_latents latent_ok] in *;
    try contradiction.
  - destruct Hin as (Ha & Hb & Hx).
    destruct (split_combine_joint cfg height width Ha Hb Hx) as (l & Hc & Sl & _).
    exists l; rewrite Hc; auto.
  - destruct Hin as (Ha & Hb).
    destruct (split_combine cfg height width Ha Hb) as (l & Hc & Sl & _).
    exists l; rewrite Hc; auto.
  - exists prompt_embeds; auto.
  - exists prompt_embeds; auto.
  - destruct Hin as (Ha & Hb).
    destruct (split_combine cfg height width Ha Hb) as (l & Hc & Sl & _).
    exists l; rewrite Hc; auto.
Qed.

Lemma unpack_latents_run (mode : Mode) (B height width : nat) (final : Tensor F)
      (W : World) :
  latent_ok cfg mode B height width final ->
  exists outs,
    unpack_latents cfg mode (Some final) height width W = (OK outs, W)
    /\ outs_ok cfg mode B height width outs.
Proof.
  intros Hl; destruct mode; cbn [latent_ok unpack_latents outs_ok] in *;
    try contradiction.
  - destruct (combine_split_joint cfg height width Hl) as (a & b & x & Hs & Ha & Hb & Hx & _).
    exists (OutJoint a b x); rewrite Hs; cbn; auto.
  - destruct (combine_split cfg height width Hl) as (a & b & Hs & Ha & Hb & _).
    exists (OutImage a b); rewrite Hs; cbn; auto.
  - exists (OutText final); auto.
  - exists (OutText final); auto.
  - destruct (combine_split cfg height width Hl) as (a & b & Hs & Ha & Hb & _).
    exists (OutImage a b); rewrite Hs; cbn; auto.
Qed.

Lemma denoising_sample_fn_run (mode : Mode) (B height width : nat)
      (image_vae_latents image_clip_latents prompt_embeds : Tensor F)
      (num_inference_steps : nat) (kw : StepKwargs) (g : F) (generator : Generator)
      (cb : option Callback) (k : Z) (W : World) :
  In mode stage_modes ->
  stage_inputs_ok cfg mode B height width image_vae_latents image_clip_latents
                  prompt_embeds ->
  cb = None \/ k <> 0%Z ->
  let ts := scheduler_timesteps
              (scheduler_set_timesteps num_inference_steps (w_scheduler W)) in
  let warm := (Z.of_nat (length ts) - Z.of_nat num_inference_steps * scheduler_order)%Z in
  exists outs W' tr,
    _denoising_sample_fn cfg mode image_vae_latents image_clip_latents prompt_embeds
                         num_inference_steps kw g generator height width cb k W
    = (OK outs, W')
    /\ outs_ok cfg mode B height width outs
    /\ w_trace W' = w_trace W ++ tr
    /\ count_unet tr = length ts * calls_per_step mode g
    /\ count_step tr = length ts
    /\ length (step_results tr) = length ts
    /\ callback_events tr
       = expected_callbacks (length ts) warm cb k 0 ts (step_results tr).
Proof.
  intros Hm Hin Hk ts warm.
  destruct (@pack_latents_run mode B height width image_vae_latents image_clip_latents
                              prompt_embeds Hin) as (init & Hpack & Hinit).
  assert (Ho : scheduler_order <> 0%Z \/ (Z.of_nat (length ts) <= warm)%Z).
  { destruct (Z.eq_dec scheduler_order 0) as [E|E]; [right | now left].
    unfold warm; rewrite E; lia. }
  set (W0 := mkWorld (w_random W)
                     (scheduler_set_timesteps num_inference_steps (w_scheduler W))
                     (w_trace W)).
  destruct (@denoising_loop_run _ _ cfg unet_ok step_ok mode B height width
              (length ts) warm prompt_embeds image_vae_latents image_clip_latents
              N_betas g kw cb k Hm Hk Ho ts 0 init W0 (le_n _) Hinit)
    as (final & W' & tr & Hloop & Hf & Htr & Hcu & Hcs & Hsr & Hce).
  destruct (@unpack_latents_run mode B height width final W' Hf)
    as (outs & Hunpack & Houts).
  exists outs, W', tr; repeat split; auto.
  unfold _denoising_sample_fn.
  rewrite Hpack, lift_bind.
  unfold set_timesteps, timesteps.
  unfold bind at 1; unfold bind at 1; cbn [w_random w_scheduler w_trace].
  fold ts; fold W0; fold warm; unfold enumerate.
  now rewrite (bind_OK Hloop).
Qed.

End SampleFn.

(* ------------------------------------------------------------------ *)
(** ** Claims on the latent codec *)

(** C1. Latent packing is a bijection for fixed height and width: splitting
    the combination of well-shaped sub-tensors ((B,C,h,w) image-VAE,
    (B,1,512) image-CLIP and, in the joint layout, (B,seq_len,64) text)
    returns exactly these sub-tensors, and combining the split of any flat
    tensor of the matching total dimension returns that tensor, for the
    image-pair codec ([_combine] / [_split]) and for the joint codec
    ([_combine_joint] / [_split_joint]). *)
Theorem latent_packing_is_bijective (A : Type) (cfg : PipelineConfig)
        (height width B : nat) :
  (forall img_vae img_clip : Tensor A,
      has_shape (vae_shape cfg B height width) img_vae ->
      has_shape (clip_shape B) img_clip ->
      exists x,
        _combine img_vae img_clip = OK x
        /\ has_shape (pair_shape cfg B height width) x
        /\ _split cfg x height width = OK (img_vae, img_clip))
  /\ (forall x : Tensor A,
         has_shape (pair_shape cfg B height width) x ->
         exists img_vae img_clip,
           _split cfg x height width = OK (img_vae, img_clip)
           /\ has_shape (vae_shape cfg B height width) img_vae
           /\ has_shape (clip_shape B) img_clip
           /\ _combine img_vae img_clip = OK x)
  /\ (forall img_vae img_clip text : Tensor A,
         has_shape (vae_shape cfg B height width) img_vae ->
         has_shape (clip_shape B) img_clip ->
         has_shape (text_shape cfg B) text ->
         exists x,
           _combine_joint img_vae img_clip text = OK x
           /\ has_shape (joint_shape cfg B height width) x
           /\ _split_joint cfg x height width = OK (img_vae, img_clip, text))
  /\ (forall x : Tensor A,
         has_shape (joint_shape cfg B height width) x ->
         exists img_vae img_clip text,
           _split_joint cfg x height width = OK (img_vae, img_clip, text)
           /\ has_shape (vae_shape cfg B height width) img_vae
           /\ has_shape (clip_shape B) img_clip
           /\ has_shape (text_shape cfg B) text
           /\ _combine_joint img_vae img_clip text = OK x).
Proof.
  split; [|split; [|split]].
  - intros img_vae img_clip; apply split_combine.
  - intros x; apply combine_split.
  - intros img_vae img_clip text; apply split_combine_joint.
  - intros x; apply combine_split_joint.
Qed.

Lemma latent_packing_is_bijective_witness :
  (exists x, _combine Stub.vae0 Stub.clip0 = OK x
             /\ has_shape (pair_shape Stub.cfg 1 8 8) x
             /\ _split Stub.cfg x 8 8 = OK (Stub.vae0, Stub.clip0))
  /\ (exists img_vae img_clip,
         _split Stub.cfg Stub.pair0 8 8 = OK (img_vae, img_clip)
         /\ has_shape (vae_shape Stub.cfg 1 8 8) img_vae
         /\ has_shape (clip_shape 1) img_clip
         /\ _combine img_vae img_clip = OK Stub.pair0)
  /\ (exists x, _combine_joint Stub.vae0 Stub.clip0 Stub.text0 = OK x
                /\ has_shape (joint_shape Stub.cfg 1 8 8) x
                /\ _split_joint Stub.cfg x 8 8 = OK (Stub.vae0, Stub.clip0, Stub.text0))
  /\ (exists img_vae img_clip text,
         _split_joint Stub.cfg Stub.joint0 8 8 = OK (img_vae, img_clip, text)
         /\ has_shape (vae_shape Stub.cfg 1 8 8) img_vae
         /\ has_shape (clip_shape 1) img_clip
         /\ has_shape (text_shape Stub.cfg 1) text
         /\ _combine_joint img_vae img_clip text = OK Stub.joint0).
Proof.
  pose proof (latent_packing_is_bijective Z Stub.cfg 8 8 1) as (T1 & T2 & T3 & T4).
  split; [|split; [|split]].
  - apply T1; vm_compute; split; reflexivity.
  - apply T2; vm_compute; split; reflexivity.
  - apply T3; vm_compute; split; reflexivity.
  - apply T4; vm_compute; split; reflexivity.
Defined.

(* ------------------------------------------------------------------ *)
(** ** Claims on latent preparation and validation *)

Section Preparation.
Context `{Collaborators}.
Variable cfg : PipelineConfig.

Lemma prepare_text_latents_run (batch_size seq_len hidden_size : nat)
      (generator : Generator) (latents : option (Tensor F)) (W : World) :
  prepare_text_latents batch_size seq_len hidden_size generator latents W
  = prepared [batch_size; seq_len; hidden_size] batch_size generator latents W.
Proof.
  unfold prepare_text_latents, prepared.
  destruct (generator_mismatch generator batch_size); [reflexivity|].
  destruct latents as [l|]; [reflexivity|].
  now rewrite (bind_OK (randn_tensor_run _ _ W)).
Qed.

Lemma prepare_image_vae_latents_run (batch_size num_channels height width : nat)
      (generator : Generator) (latents : option (Tensor F)) (W : World) :
  prepare_image_vae_latents cfg batch_size num_channels height width generator latents W
  = prepared [batch_size; num_channels;
              height / vae_scale_factor cfg; width / vae_scale_factor cfg]
             batch_size generator latents W.
Proof.
  unfold prepare_image_vae_latents, prepared.
  destruct (generator_mismatch generator batch_size); [reflexivity|].
  destruct latents as [l|]; [reflexivity|].
  now rewrite (bind_OK (randn_tensor_run _ _ W)).
Qed.

Lemma prepare_image_clip_latents_run (batch_size clip_img_dim : nat)
      (generator : Generator) (latents : option (Tensor F)) (W : World) :
  prepare_image_clip_latents batch_size clip_img_dim generator latents W
  = prepared [batch_size; 1; clip_img_dim] batch_size generator latents W.
Proof.
  unfold prepare_image_clip_latents, prepared.
  destruct (generator_mismatch generator batch_size); [reflexivity|].
  destruct latents as [l|]; [reflexivity|].
  now rewrite (bind_OK (randn_tensor_run _ _ W)).
Qed.

End Preparation.

(** C10. Every latent-preparation function ([prepare_text_latents],
    [prepare_image_vae_latents], [prepare_image_clip_latents]) multiplies
    the latents it returns by the scheduler's [init_noise_sigma], with no
    condition: a caller-supplied override [l] comes back as
    [l * init_noise_sigma], not unchanged, and a fresh draw likewise.  The
    only other outcome is the [ValueError] of the generator guard. *)
Theorem prepared_latents_are_always_scaled `{Collaborators}
        (cfg : PipelineConfig) (batch_size seq_len hidden_size : nat)
        (num_channels height width clip_img_dim : nat)
        (generator : Generator) (W : World) :
  let sigma := scheduler_init_noise_sigma (w_scheduler W) in
  (* an explicit override is returned scaled, the world untouched *)
  (forall l : Tensor F,
      generator_mismatch generator batch_size = false ->
      prepare_text_latents batch_size seq_len hidden_size generator (Some l) W
      = (OK (mul_scalar l sigma), W)
      /\ prepare_image_vae_latents cfg batch_size num_channels height width generator
                                   (Some l) W
         = (OK (mul_scalar l sigma), W)
      /\ prepare_image_clip_latents batch_size clip_img_dim generator (Some l) W
         = (OK (mul_scalar l sigma), W))
  (* in general: guard, then override or fresh noise, always scaled *)
  /\ (forall latents : option (Tensor F),
         prepare_text_latents batch_size seq_len hidden_size generator latents W
         = prepared [batch_size; seq_len; hidden_size] batch_size generator latents W
         /\ prepare_image_vae_latents cfg batch_size num_channels height width generator
                                      latents W
            = prepared [batch_size; num_channels;
                        height / vae_scale_factor cfg; width / vae_scale_factor cfg]
                       batch_size generator latents W
         /\ prepare_image_clip_latents batch_size clip_img_dim generator latents W
            = prepared [batch_size; 1; clip_img_dim] batch_size generator latents W).
Proof.
  intros sigma; split.
  - intros l Hg.
    rewrite prepare_text_latents_run, prepare_image_vae_latents_run,
      prepare_image_clip_latents_run.
    unfold prepared; rewrite Hg; auto.
  - intros latents.
    now rewrite prepare_text_latents_run, prepare_image_vae_latents_run,
      prepare_image_clip_latents_run.
Qed.

Lemma prepared_latents_are_always_scaled_witness :
  @prepare_text_latents Stub.float_ops Stub.collaborators 1 77 64 GenNone
                        (Some Stub.text0) Stub.world0
  = (OK (@mul_scalar Stub.float_ops Stub.text0 1%Z), Stub.world0).
Proof.
  apply (proj1 (@prepared_latents_are_always_scaled
                  Stub.float_ops Stub.collaborators Stub.cfg 1 77 64 4 8 8 512
                  GenNone Stub.world0) Stub.text0).
  reflexivity.
Defined.

(** C9 (the code departs from the claim).  An explicit latent override of
    the wrong shape, here a (1,2,3) tensor where (1,77,64), (1,4,64,64) and
    (1,1,512) are expected, is accepted by the three latent-preparation
    functions of [UniDiffuserPipeline] and returned scaled: no error is
    raised at the point of mismatch.  The sibling
    [UniDiffuserTextGenerationPipeline.prepare_latents] rejects the same
    override with [ValueError]. *)
Theorem wrong_shape_override_is_not_rejected `{Collaborators}
        (cfg : PipelineConfig) (x : F) (W : World) :
  let bad := mkTensor [1; 2; 3] (repeat x 6) in
  let sigma := scheduler_init_noise_sigma (w_scheduler W) in
  prepare_text_latents 1 77 64 GenNone (Some bad) W = (OK (mul_scalar bad sigma), W)
  /\ prepare_image_vae_latents cfg 1 4 512 512 GenNone (Some bad) W
     = (OK (mul_scalar bad sigma), W)
  /\ prepare_image_clip_latents 1 512 GenNone (Some bad) W
     = (OK (mul_scalar bad sigma), W)
  /\ TextGeneration.prepare_latents 8 1 4 512 512 GenNone (Some bad) W
     = (Raise ValueError, W).
Proof.
  intros bad sigma; repeat split; reflexivity.
Qed.

Section Validation.
Context `{Collaborators}.
Variable cfg : PipelineConfig.

(** [__call__] hands [check_inputs] the prompt but not the prompt
    embedding, so a call without [prompt] never passes validation. *)
Lemma check_inputs_without_prompt (height width : nat) (callback_steps : CallbackSteps) :
  check_inputs None height width callback_steps None None None = Raise ValueError.
Proof.
  unfold check_inputs.
  destruct (negb (Nat.eqb (height mod 8) 0) || negb (Nat.eqb (width mod 8) 0));
    [reflexivity|].
  destruct callback_steps as [|k|]; try reflexivity.
  now destruct (Z.leb k 0).
Qed.

Lemma call_without_prompt (a : CallArgs) (W : World) :
  a_prompt a = None -> __call__ cfg a W = (Raise ValueError, W).
Proof.
  intros Hp; unfold __call__, prepare_call.
  rewrite Hp, check_inputs_without_prompt; reflexivity.
Qed.

End Validation.

(** A "t2i" call that supplies both [prompt] and [prompt_embeds] passes
    validation and latent preparation: the conflict is not detected. *)
Lemma both_prompt_and_embeds_pass_validation `{Collaborators}
      (cfg : PipelineConfig) (s : string) (prompt_embeds : Tensor F) (g eta : F)
      (W : World) :
  is_ok (fst (prepare_call cfg
                (mkCallArgs m_t2i None (Some (PromptStr s)) (Some 512) (Some 512) 50 g
                            None 1 1 1 eta GenNone None None None (Some prompt_embeds)
                            None true None (StepsInt 1))
                W)) = true.
Proof.
  unfold prepare_call; cbv zeta.
  cbn [a_mode a_generator a_height a_width a_prompt a_callback_steps a_prompt_embeds
       a_image a_num_samples a_num_images_per_prompt a_vae_latents a_clip_latents
       or_default].
  assert (Hc : check_inputs (Some (PromptStr s)) 512 512 (StepsInt 1) None None None
               = OK tt) by (vm_compute; reflexivity).
  rewrite Hc; unfold bind, lift, ret; cbn [_infer_batch_size _encode_prompt].
  rewrite prepare_image_vae_latents_run; unfold prepared; cbn [generator_mismatch].
  rewrite prepare_image_clip_latents_run; unfold prepared; cbn [generator_mismatch].
  reflexivity.
Qed.

(** C8 (the code departs from the claim).  Validation does not enforce the
    per-mode requirements: [check_inputs] is called with the prompt only, in
    every mode.  The call of the repository's own example,
    [pipe(mode="i2t", image=image, prompt=None)], which supplies the image
    an image-conditioned mode needs, is rejected with [ValueError] before
    any network call; so is a "t2i" call that supplies [prompt_embeds]
    instead of [prompt]; and a "t2i" call that supplies both [prompt] and
    [prompt_embeds] is let through. *)
Theorem validation_is_not_per_mode `{Collaborators}
        (cfg : PipelineConfig) (image : Image) (s : string) (prompt_embeds : Tensor F)
        (g eta : F) (W : World) :
  __call__ cfg (default_args m_i2t (Some image) None g eta) W = (Raise ValueError, W)
  /\ __call__ cfg
              (mkCallArgs m_t2i None None None None 50 g None 1 1 1 eta GenNone
                          None None None (Some prompt_embeds) None true None (StepsInt 1))
              W
     = (Raise ValueError, W)
  /\ is_ok (fst (prepare_call cfg
                   (mkCallArgs m_t2i None (Some (PromptStr s)) (Some 512) (Some 512) 50 g
                               None 1 1 1 eta GenNone None None None (Some prompt_embeds)
                               None true None (StepsInt 1))
                   W)) = true.
Proof.
  split; [|split]; try (now apply call_without_prompt).
  apply both_prompt_and_embeds_pass_validation.
Qed.

(* ------------------------------------------------------------------ *)
(** ** The stub instance meets the contracts *)

Section StubFacts.

Lemma stub_fit_shape (s : list nat) (x : Tensor Z) :
  shape x = s -> has_shape s (Stub.fit x).
Proof.
  intros <-; split; [reflexivity|].
  unfold Stub.fit; cbn [data].
  rewrite length_firstn, length_app, repeat_length; lia.
Qed.

Lemma stub_unet_ok : @unet_respects_shapes Stub.float_ops Stub.collaborators.
Proof.
  intros c; cbn; repeat split; try (apply stub_fit_shape; reflexivity).
Qed.

Lemma stub_step_ok : @step_respects_shapes Stub.float_ops Stub.collaborators.
Proof. intros mo t s kw ss Hmo _; exact Hmo. Qed.

Lemma stub_positive_is_nonzero : @positive_is_nonzero Stub.float_ops.
Proof.
  intros g Hg; cbn in *.
  apply Z.ltb_lt in Hg; apply Z.eqb_neq; lia.
Qed.

End StubFacts.

(* ------------------------------------------------------------------ *)
(** ** Claims on the noise predictor *)

(** C3. For every mode [get_noise_pred] has a branch for and every packed
    latent of that mode, a guidance scale equal to 0 makes
    [get_noise_pred] return exactly the conditioned-pass output (the subset
    of the network's outputs that is relevant to the mode) after exactly
    one call of the denoising network: the trace grows by that single call
    and no noise is drawn. *)
Theorem zero_guidance_is_one_conditioned_pass `{Collaborators}
        (cfg : PipelineConfig) (mode : Mode) (B height width n : nat)
        (latents : Tensor F) (t : Tensor Z) (prompt_embeds img_vae img_clip : Tensor F)
        (N : Z) (g : F) (dt : Z) (W : World) :
  unet_respects_shapes ->
  In mode stage_modes ->
  latent_ok cfg mode B height width latents ->
  shape0 t = OK n ->
  feqb g fzero = true ->
  exists c x_out,
    get_noise_pred cfg mode latents t prompt_embeds img_vae img_clip
                   N g height width dt W
    = (OK (Some x_out), add_event W (EvUnet c))
    /\ relevant_output mode (unet c) = OK x_out
    /\ count_unet (w_trace (add_event W (EvUnet c))) = count_unet (w_trace W) + 1.
Proof.
  intros unet_ok Hm Hl Ht Hg.
  assert (Hcount : forall c,
             count_unet (w_trace (add_event W (EvUnet c))) = count_unet (w_trace W) + 1).
  { intros c; cbn [add_event w_trace]; now rewrite count_unet_app. }
  destruct Hm as [<-|[<-|[<-|[<-|[<-|[]]]]]]; cbn [latent_ok] in Hl.
  - destruct (get_noise_pred_joint unet_ok t prompt_embeds img_vae img_clip N g dt W Hl)
      as (a & b & x & x_out & _ & _ & _ & _ & Hr & _ & R0 & _).
    eexists _, x_out; split; [apply (R0 Hg) | split; [exact Hr | apply Hcount]].
  - destruct (get_noise_pred_t2i unet_ok t prompt_embeds img_vae img_clip N g dt W Hl Ht)
      as (a & b & x_out & _ & _ & _ & Hr & _ & R0 & _).
    eexists _, x_out; split; [apply (R0 Hg) | split; [exact Hr | apply Hcount]].
  - destruct (get_noise_pred_i2t cfg unet_ok latents t prompt_embeds img_vae img_clip
                                 N g height width dt W Ht)
      as (_ & R0 & _).
    eexists _, _; split; [apply (R0 Hg) | split; [reflexivity | apply Hcount]].
  - destruct (get_noise_pred_t cfg unet_ok latents t prompt_embeds img_vae img_clip
                               N g height width dt W)
      as (_ & R0).
    eexists _, _; split; [apply R0 | split; [reflexivity | apply Hcount]].
  - destruct (get_noise_pred_i unet_ok t prompt_embeds img_vae img_clip N g dt W Hl)
      as (a & b & x_out & _ & _ & _ & Hr & _ & R0).
    eexists _, x_out; split; [apply R0 | split; [exact Hr | apply Hcount]].
Qed.


(** C2. In every unconditioned guidance pass of [get_noise_pred] (modes
    "t2i", "i2t" and "joint", guidance scale different from 0) the
    conditioning modality is handed to the network with timestep
    [ones_like(t) * N] and with content drawn from the random source at
    that moment (a function of the random state and of the shape of the
    caller's tensor only, never its content), while the target modality
    keeps timestep [t] and its current latent.  The sentinel differs from
    every scheduled timestep, whose values are below [N]. *)
Theorem unconditioned_pass_masks_the_conditioning `{Collaborators}
        (cfg : PipelineConfig) (B height width n : nat)
        (latents : Tensor F) (t : Tensor Z) (prompt_embeds img_vae img_clip : Tensor F)
        (N : Z) (g : F) (dt : Z) (W : World) :
  unet_respects_shapes ->
  shape0 t = OK n ->
  feqb g fzero = false ->
  (* "t2i": the text is masked *)
  (has_shape (pair_shape cfg B height width) latents ->
   let r := randn (shape prompt_embeds) GenNone (w_random W) in
   exists a b c1 res,
     _split cfg latents height width = OK (a, b)
     /\ get_noise_pred cfg m_t2i latents t prompt_embeds img_vae img_clip
                       N g height width dt W
        = (OK (Some res),
           mkWorld (snd r) (w_scheduler W)
                   (w_trace W ++
                      [EvUnet c1;
                       EvUnet (mkUnetCall a b (fst r) t (ones_like_times t N)
                                          (zeros_like_plus (zeros1 n) dt))])))
  (* "i2t": the image pair is masked *)
  /\ (let r1 := randn (shape img_vae) GenNone (w_random W) in
      let r2 := randn (shape img_clip) GenNone (snd r1) in
      exists c1 res,
        get_noise_pred cfg m_i2t latents t prompt_embeds img_vae img_clip
                       N g height width dt W
        = (OK (Some res),
           mkWorld (snd r2) (w_scheduler W)
                   (w_trace W ++
                      [EvUnet c1;
                       EvUnet (mkUnetCall (fst r1) (fst r2) latents (ones_like_times t N) t
                                          (zeros_like_plus t dt))])))
  (* "joint": first the image pair is masked, then the text *)
  /\ (has_shape (joint_shape cfg B height width) latents ->
      let r1 := randn (shape img_vae) GenNone (w_random W) in
      let r2 := randn (shape img_clip) GenNone (snd r1) in
      let r3 := randn (shape prompt_embeds) GenNone (snd r2) in
      exists a b x c1 res,
        _split_joint cfg latents height width = OK (a, b, x)
        /\ get_noise_pred cfg m_joint latents t prompt_embeds img_vae img_clip
                          N g height width dt W
           = (OK (Some res),
              mkWorld (snd r3) (w_scheduler W)
                      (w_trace W ++
                         [EvUnet c1;
                          EvUnet (mkUnetCall (fst r1) (fst r2) x (ones_like_times t N) t
                                             (zeros_like_plus t dt));
                          EvUnet (mkUnetCall a b (fst r3) t (ones_like_times t N)
                                             (zeros_like_plus t dt))])))
  (* the sentinel is never a scheduled value *)
  /\ (data t <> [] -> (forall z, In z (data t) -> (z < N)%Z) ->
      ones_like_times t N <> t).
Proof.
  intros unet_ok Ht Hg; split; [|split; [|split]].
  - intros Hl r.
    destruct (get_noise_pred_t2i unet_ok t prompt_embeds img_vae img_clip N g dt W Hl Ht)
      as (a & b & x_out & Hs & _ & _ & _ & _ & _ & R1).
    destruct (R1 Hg) as (xu & res & _ & _ & _ & R).
    exists a, b; eexists _, res; split; [exact Hs | exact R].
  - intros r1 r2.
    destruct (get_noise_pred_i2t cfg unet_ok latents t prompt_embeds img_vae img_clip
                                 N g height width dt W Ht)
      as (_ & _ & R1).
    destruct (R1 Hg) as (res & _ & _ & R).
    eexists _, res; exact R.
  - intros Hl r1 r2 r3.
    destruct (get_noise_pred_joint unet_ok t prompt_embeds img_vae img_clip N g dt W Hl)
      as (a & b & x & x_out & Hs & _ & _ & _ & _ & _ & _ & R1).
    destruct (R1 Hg) as (xu & res & _ & _ & _ & _ & R).
    exists a, b, x; eexists _, res; split; [exact Hs | exact R].
  - intros Hne Hlt Heq.
    destruct t as [st dt0]; cbn [data] in *.
    apply (f_equal (@data Z)) in Heq; cbn [data ones_like_times] in Heq.
    destruct dt0 as [|z rest]; [congruence|].
    specialize (Hlt z (or_introl eq_refl)).
    apply (f_equal (hd 0%Z)) in Heq; cbn [map hd] in Heq; lia.
Qed.


(* ------------------------------------------------------------------ *)
(** ** Elementwise operators commute with packing *)

Section ElementwiseFacts.
Context `{FloatOps}.
Variable f : F -> F -> F.

Lemma map2_nil_r (l : list F) : map2 f l [] = [].
Proof. unfold map2; now rewrite combine_nil. Qed.

Lemma map2_app (x x' y y' : list F) :
  length x = length x' ->
  map2 f (x ++ y) (x' ++ y') = map2 f x x' ++ map2 f y y'.
Proof.
  unfold map2; revert x'; induction x as [|a x IH]; intros [|a' x'] Hl;
    try discriminate; [reflexivity|].
  simpl in *; f_equal; apply IH; lia.
Qed.

Lemma map2_firstn (n : nat) (l l' : list F) :
  firstn n (map2 f l l') = map2 f (firstn n l) (firstn n l').
Proof.
  unfold map2; revert l l'; induction n as [|n IH]; intros [|a l] [|a' l'];
    simpl; try reflexivity.
  f_equal; apply IH.
Qed.

Lemma map2_skipn (n : nat) (l l' : list F) :
  skipn n (map2 f l l') = map2 f (skipn n l) (skipn n l').
Proof.
  unfold map2; revert l l'; induction n as [|n IH]; intros [|a l] [|a' l'];
    simpl; try reflexivity; try (now rewrite combine_nil).
  apply IH.
Qed.

Lemma chunk_map2 (B n : nat) (l l' : list F) :
  chunk B n (map2 f l l') = rows_map2 f (chunk B n l) (chunk B n l').
Proof.
  revert l l'; induction B as [|B IH]; intros l l'; [reflexivity|].
  cbn [chunk]; unfold rows_map2; cbn [combine map fst snd].
  now rewrite map2_firstn, map2_skipn, IH.
Qed.

Lemma rows_map2_block (B a : nat) (R R' : list (list F)) :
  block_ok B a R -> block_ok B a R' -> block_ok B a (rows_map2 f R R').
Proof.
  revert B R'; induction R as [|r R IH]; intros B [|r' R'] [Hl Hr] [Hl' Hr'];
    simpl in Hl, Hl'; subst B; try discriminate.
  - split; [reflexivity | constructor].
  - inversion Hr; inversion Hr'; subst.
    destruct (IH (length R) R') as [Hl2 Hr2]; try (split; auto; lia).
    split.
    + unfold rows_map2 in *; simpl; now rewrite Hl2.
    + unfold rows_map2 in *; simpl; constructor; [|exact Hr2].
      unfold map2; rewrite length_map, length_combine; cbn [fst snd]; lia.
Qed.

Lemma concat_rows_map2 (B a : nat) (R R' : list (list F)) :
  block_ok B a R -> block_ok B a R' ->
  concat (rows_map2 f R R') = map2 f (concat R) (concat R').
Proof.
  revert B R'; induction R as [|r R IH]; intros B [|r' R'] [Hl Hr] [Hl' Hr'];
    simpl in Hl, Hl'; subst B; try discriminate; [reflexivity|].
  inversion Hr; inversion Hr'; subst.
  unfold rows_map2 in *; simpl.
  rewrite map2_app by congruence.
  f_equal; apply (IH (length R)); split; auto; lia.
Qed.

Lemma zip_app_rows_map2 (B a b : nat) (r r' X X' : list (list F)) :
  block_ok B a r -> block_ok B a r' ->
  block_ok B b X -> block_ok B b X' ->
  zip_app (rows_map2 f r r') (rows_map2 f X X')
  = rows_map2 f (zip_app r X) (zip_app r' X').
Proof.
  revert B r' X X'; induction r as [|x r IH];
    intros B [|x' r'] [|y X] [|y' X'] [Hl Hr] [Hl' Hr'] [HlX HrX] [HlX' HrX'];
    simpl in Hl, Hl', HlX, HlX'; subst B; try discriminate; try reflexivity.
  inversion Hr; inversion Hr'; inversion HrX; inversion HrX'; subst.
  unfold rows_map2 in *; simpl.
  rewrite map2_app by congruence.
  f_equal; apply (IH (length r)); split; auto; lia.
Qed.

Lemma rows_map2_repeat_nil (B : nat) :
  rows_map2 f (repeat [] B) (repeat [] B) = repeat [] B.
Proof.
  unfold rows_map2; induction B as [|B IH]; simpl; [reflexivity | now rewrite IH].
Qed.

Lemma hcat_blocks_map2 (B : nat) (secs : list nat) (Bs Bs' : list (list (list F))) :
  Forall2 (block_ok B) secs Bs ->
  Forall2 (block_ok B) secs Bs' ->
  hcat B (blocks_map2 f Bs Bs') = rows_map2 f (hcat B Bs) (hcat B Bs').
Proof.
  intros HB; revert Bs'.
  induction HB as [|a r secs Bs Hr Hall IH]; intros Bs' HB'; inversion HB'; subst.
  - cbn; symmetry; apply rows_map2_repeat_nil.
  - unfold blocks_map2; cbn [combine map hcat fst snd].
    fold (blocks_map2 f Bs l').
    rewrite IH by assumption.
    eapply zip_app_rows_map2; eauto using hcat_block.
Qed.

Lemma blocks_of_tensors_map2 (B : nat) (secs : list nat) (xs ys : list (Tensor F)) :
  Forall2 (fun a x => has_shape [B; a] x) secs xs ->
  Forall2 (fun a x => has_shape [B; a] x) secs ys ->
  blocks_of B secs (tensors_map2 f xs ys)
  = blocks_map2 f (blocks_of B secs xs) (blocks_of B secs ys).
Proof.
  intros Hx; revert ys.
  induction Hx as [|a x secs xs Hxa Hall IH]; intros ys Hy; inversion Hy; subst.
  - reflexivity.
  - unfold tensors_map2; cbn [combine map fst snd].
    fold (tensors_map2 f xs l').
    rewrite !blocks_of_cons, IH by assumption.
    unfold blocks_map2; cbn [combine map fst snd tensor_map2 data].
    now rewrite chunk_map2.
Qed.

Lemma tensors_map2_shapes (B : nat) (secs : list nat) (xs ys : list (Tensor F)) :
  Forall2 (fun a x => has_shape [B; a] x) secs xs ->
  Forall2 (fun a x => has_shape [B; a] x) secs ys ->
  Forall2 (fun a x => has_shape [B; a] x) secs (tensors_map2 f xs ys).
Proof.
  intros Hx; revert ys.
  induction Hx as [|a x secs xs [Hs Hd] Hall IH]; intros ys Hy; inversion Hy as [|? y ? ys' [Hs' Hd'] Hy']; subst.
  - constructor.
  - unfold tensors_map2; cbn [combine map fst snd]; constructor; [|now apply IH].
    split; [exact Hs|]; cbn [tensor_map2 data].
    unfold map2; rewrite length_map, length_combine; lia.
Qed.

Lemma tensor_concat_sections (B : nat) (secs : list nat) (xs : list (Tensor F)) :
  xs <> [] ->
  Forall2 (fun a x => has_shape [B; a] x) secs xs ->
  tensor_concat xs
  = OK (mkTensor [B; list_sum secs] (concat (hcat B (blocks_of B secs xs)))).
Proof.
  intros Hne Hall.
  pose proof (widths_sections Hall) as Hw.
  destruct xs as [|x0 xs']; [congruence|].
  inversion Hall as [|a0 ? secs' ? [Hs0 _] _]; subst.
  unfold tensor_concat; rewrite Hs0, Hw; reflexivity.
Qed.

(** Concatenation along the feature axis commutes with an elementwise
    binary operator. *)
Lemma tensor_concat_map2 (B : nat) (secs : list nat) (xs ys : list (Tensor F))
      (X Y : Tensor F) :
  xs <> [] ->
  Forall2 (fun a x => has_shape [B; a] x) secs xs ->
  Forall2 (fun a x => has_shape [B; a] x) secs ys ->
  tensor_concat xs = OK X ->
  tensor_concat ys = OK Y ->
  tensor_concat (tensors_map2 f xs ys) = OK (tensor_map2 f X Y).
Proof.
  intros Hne Hx Hy HX HY.
  assert (Hney : ys <> []).
  { destruct xs; [congruence|]; inversion Hx; subst; inversion Hy; subst; discriminate. }
  assert (Hnez : tensors_map2 f xs ys <> []).
  { destruct xs; [congruence|]; destruct ys; [congruence|]; discriminate. }
  rewrite (tensor_concat_sections Hne Hx) in HX.
  rewrite (tensor_concat_sections Hney Hy) in HY.
  injection HX as <-; injection HY as <-.
  rewrite (tensor_concat_sections Hnez (tensors_map2_shapes Hx Hy)).
  unfold tensor_map2; cbn [shape data].
  rewrite (blocks_of_tensors_map2 Hx Hy).
  pose proof (blocks_of_sections Hx) as Bx.
  pose proof (blocks_of_sections Hy) as By.
  rewrite (hcat_blocks_map2 Bx By).
  now rewrite (concat_rows_map2 (hcat_block Bx) (hcat_block By)).
Qed.

End ElementwiseFacts.

Section GuidanceFacts.
Context `{FloatOps}.

Lemma tensor_map2_shape (f : F -> F -> F) (s : list nat) (x y : Tensor F) :
  has_shape s x -> has_shape s y -> has_shape s (tensor_map2 f x y).
Proof.
  intros [Hs Hd] [Hs' Hd']; split; [exact Hs|]; cbn [tensor_map2 data].
  unfold map2; rewrite length_map, length_combine; lia.
Qed.

Lemma guided_is_tensor_guide (g : F) (x y res : Tensor F) :
  guided x g y = OK res -> res = tensor_guide g x y.
Proof.
  unfold guided, tensor_sub, tensor_add, tensor_zip.
  destruct (shape_eqb (shape x) (shape y)); [|discriminate].
  cbn [res_bind scalar_mul shape data].
  rewrite shape_eqb_refl, map2_guide.
  now intros [= <-].
Qed.

Lemma flat_BCHW_map2 (f : F -> F -> F) (B C Hh Ww : nat) (a a' : Tensor F) :
  has_shape [B; C; Hh; Ww] a -> has_shape [B; C; Hh; Ww] a' ->
  exists fa fa',
    rearrange_BCHW_to_flat a = OK fa
    /\ rearrange_BCHW_to_flat a' = OK fa'
    /\ has_shape [B; C * Hh * Ww] fa
    /\ has_shape [B; C * Hh * Ww] fa'
    /\ rearrange_BCHW_to_flat (tensor_map2 f a a') = OK (tensor_map2 f fa fa').
Proof.
  intros [Hs Hd] [Hs' Hd']; rewrite numel4 in Hd, Hd'.
  exists (mkTensor [B; C * Hh * Ww] (data a)), (mkTensor [B; C * Hh * Ww] (data a')).
  unfold rearrange_BCHW_to_flat, has_shape; cbn [tensor_map2 shape data].
  rewrite Hs, Hs', numel2; repeat split; auto.
Qed.

Lemma flat_BLD_map2 (f : F -> F -> F) (B l d : nat) (a a' : Tensor F) :
  has_shape [B; l; d] a -> has_shape [B; l; d] a' ->
  exists fa fa',
    rearrange_BLD_to_flat a = OK fa
    /\ rearrange_BLD_to_flat a' = OK fa'
    /\ has_shape [B; l * d] fa
    /\ has_shape [B; l * d] fa'
    /\ rearrange_BLD_to_flat (tensor_map2 f a a') = OK (tensor_map2 f fa fa').
Proof.
  intros [Hs Hd] [Hs' Hd']; rewrite numel3 in Hd, Hd'.
  exists (mkTensor [B; l * d] (data a)), (mkTensor [B; l * d] (data a')).
  unfold rearrange_BLD_to_flat, has_shape; cbn [tensor_map2 shape data].
  rewrite Hs, Hs', numel2; repeat split; auto.
Qed.

(** [_combine] commutes with an elementwise operator. *)
Lemma combine_map2 (f : F -> F -> F) (B C Hh Ww l d : nat)
      (a a' b b' X X' : Tensor F) :
  has_shape [B; C; Hh; Ww] a -> has_shape [B; C; Hh; Ww] a' ->
  has_shape [B; l; d] b -> has_shape [B; l; d] b' ->
  _combine a b = OK X -> _combine a' b' = OK X' ->
  _combine (tensor_map2 f a a') (tensor_map2 f b b') = OK (tensor_map2 f X X').
Proof.
  intros Ha Ha' Hb Hb'.
  destruct (flat_BCHW_map2 f Ha Ha') as (fa & fa' & Ea & Ea' & Sa & Sa' & Ma).
  destruct (flat_BLD_map2 f Hb Hb') as (fb & fb' & Eb & Eb' & Sb & Sb' & Mb).
  unfold _combine; rewrite Ea, Ea', Eb, Eb', Ma, Mb; cbn [res_bind].
  apply (@tensor_concat_map2 _ f B [C * Hh * Ww; l * d] [fa; fb] [fa'; fb']);
    [discriminate
    | repeat (first [apply Forall2_nil | apply Forall2_cons; [assumption|]])
    | repeat (first [apply Forall2_nil | apply Forall2_cons; [assumption|]])].
Qed.

(** [_combine_joint] commutes with an elementwise operator. *)
Lemma combine_joint_map2 (f : F -> F -> F) (B C Hh Ww l d l2 d2 : nat)
      (a a' b b' x x' X X' : Tensor F) :
  has_shape [B; C; Hh; Ww] a -> has_shape [B; C; Hh; Ww] a' ->
  has_shape [B; l; d] b -> has_shape [B; l; d] b' ->
  has_shape [B; l2; d2] x -> has_shape [B; l2; d2] x' ->
  _combine_joint a b x = OK X -> _combine_joint a' b' x' = OK X' ->
  _combine_joint (tensor_map2 f a a') (tensor_map2 f b b') (tensor_map2 f x x')
  = OK (tensor_map2 f X X').
Proof.
  intros Ha Ha' Hb Hb' Hx Hx'.
  destruct (flat_BCHW_map2 f Ha Ha') as (fa & fa' & Ea & Ea' & Sa & Sa' & Ma).
  destruct (flat_BLD_map2 f Hb Hb') as (fb & fb' & Eb & Eb' & Sb & Sb' & Mb).
  destruct (flat_BLD_map2 f Hx Hx') as (fx & fx' & Ex & Ex' & Sx & Sx' & Mx).
  unfold _combine_joint; rewrite Ea, Ea', Eb, Eb', Ex, Ex', Ma, Mb, Mx; cbn [res_bind].
  apply (@tensor_concat_map2 _ f B [C * Hh * Ww; l * d; l2 * d2]
                             [fa; fb; fx] [fa'; fb'; fx']);
    [discriminate
    | repeat (first [apply Forall2_nil | apply Forall2_cons; [assumption|]])
    | repeat (first [apply Forall2_nil | apply Forall2_cons; [assumption|]])].
Qed.

End GuidanceFacts.

(** C4. For every guidance scale [g > 0] the output of [get_noise_pred] is
    [xo + g * (xo - xu)], computed elementwise on the target modality's
    slice only, where [xo] is the conditioned-pass output and [xu] the
    unconditioned-pass output for that slice: the packed image pair in
    "t2i", the text latent in "i2t".  In "joint" mode the image slices of
    the pass that forces the text to noise and the text slice of the pass
    that forces the image to noise are merged into one joint [xu], and the
    joint output satisfies the same equation slice by slice. *)
Theorem guided_output_is_xo_plus_g_times_xo_minus_xu `{Collaborators}
        (cfg : PipelineConfig) (B height width n : nat)
        (latents : Tensor F) (t : Tensor Z) (prompt_embeds img_vae img_clip : Tensor F)
        (N : Z) (g : F) (dt : Z) (W : World) :
  unet_respects_shapes ->
  positive_is_nonzero ->
  shape0 t = OK n ->
  fltb fzero g = true ->
  (* "t2i": the image pair is guided *)
  (has_shape (pair_shape cfg B height width) latents ->
   exists c1 c2 xo xu W',
     get_noise_pred cfg m_t2i latents t prompt_embeds img_vae img_clip
                    N g height width dt W
     = (OK (Some (tensor_guide g xo xu)), W')
     /\ w_trace W' = w_trace W ++ [EvUnet c1; EvUnet c2]
     /\ c_t_text c2 = ones_like_times t N
     /\ relevant_output m_t2i (unet c1) = OK xo
     /\ relevant_output m_t2i (unet c2) = OK xu
     /\ _split cfg (tensor_guide g xo xu) height width
        = OK (tensor_guide g (fst (fst (unet c1))) (fst (fst (unet c2))),
              tensor_guide g (snd (fst (unet c1))) (snd (fst (unet c2)))))
  (* "i2t": the text latent is guided *)
  /\ (exists c1 c2 W',
         get_noise_pred cfg m_i2t latents t prompt_embeds img_vae img_clip
                        N g height width dt W
         = (OK (Some (tensor_guide g (snd (unet c1)) (snd (unet c2)))), W')
         /\ w_trace W' = w_trace W ++ [EvUnet c1; EvUnet c2]
         /\ c_t_img c2 = ones_like_times t N)
  (* "joint": image slices guided by the text-to-noise pass [c3], text
     slice guided by the image-to-noise pass [c2] *)
  /\ (has_shape (joint_shape cfg B height width) latents ->
      exists c1 c2 c3 xo xu W',
        get_noise_pred cfg m_joint latents t prompt_embeds img_vae img_clip
                       N g height width dt W
        = (OK (Some (tensor_guide g xo xu)), W')
        /\ w_trace W' = w_trace W ++ [EvUnet c1; EvUnet c2; EvUnet c3]
        /\ c_t_img c2 = ones_like_times t N
        /\ c_t_text c3 = ones_like_times t N
        /\ relevant_output m_joint (unet c1) = OK xo
        /\ _combine_joint (fst (fst (unet c3))) (snd (fst (unet c3))) (snd (unet c2))
           = OK xu
        /\ _split_joint cfg (tensor_guide g xo xu) height width
           = OK (tensor_guide g (fst (fst (unet c1))) (fst (fst (unet c3))),
                 tensor_guide g (snd (fst (unet c1))) (snd (fst (unet c3))),
                 tensor_guide g (snd (unet c1)) (snd (unet c2)))).
Proof.
  intros unet_ok Hpos Ht Hgt.
  pose proof (Hpos g Hgt) as Hg.
  split; [|split].
  - intros Hl.
    destruct (get_noise_pred_t2i unet_ok t prompt_embeds img_vae img_clip N g dt W Hl Ht)
      as (a & b & xo & Hs & Ha & Hb & Hr & Sx & _ & R1).
    destruct (R1 Hg) as (xu & res & Hu & Hgd & _ & R).
    apply guided_is_tensor_guide in Hgd; subst res.
    set (c1 := mkUnetCall a b prompt_embeds t (zeros1 n)
                          (zeros_like_plus (zeros1 n) dt)) in *.
    set (c2 := mkUnetCall a b (fst (randn (shape prompt_embeds) GenNone (w_random W)))
                          t (ones_like_times t N) (zeros_like_plus (zeros1 n) dt)) in *.
    exists c1, c2, xo, xu; eexists; split; [exact R|].
    split; [reflexivity | split; [reflexivity | split; [exact Hr | split; [exact Hu|]]]].
    cbn [relevant_output] in Hr, Hu.
    pose proof (unet_out_img unet_ok c1 (proj1 Ha)) as A1.
    pose proof (unet_out_clip unet_ok c1 (proj1 Hb)) as B1.
    pose proof (unet_out_img unet_ok c2 (proj1 Ha)) as A2.
    pose proof (unet_out_clip unet_ok c2 (proj1 Hb)) as B2.
    pose proof (combine_map2 (guide g) A1 A2 B1 B2 Hr Hu) as Hc.
    destruct (split_combine cfg height width
                (tensor_map2_shape (guide g) A1 A2) (tensor_map2_shape (guide g) B1 B2))
      as (x & Hx & _ & Hsp).
    rewrite Hc in Hx; injection Hx as <-.
    exact Hsp.
  - destruct (get_noise_pred_i2t cfg unet_ok latents t prompt_embeds img_vae img_clip
                                 N g height width dt W Ht)
      as (_ & _ & R1).
    destruct (R1 Hg) as (res & Hgd & _ & R).
    apply guided_is_tensor_guide in Hgd; subst res.
    eexists _, _, _; split; [exact R | split; reflexivity].
  - intros Hl.
    destruct (get_noise_pred_joint unet_ok t prompt_embeds img_vae img_clip N g dt W Hl)
      as (a & b & x & xo & Hs & Ha & Hb & Hx & Hr & Sx & _ & R1).
    destruct (R1 Hg) as (xu & res & Hu & _ & Hgd & _ & R).
    apply guided_is_tensor_guide in Hgd; subst res.
    set (c1 := mkUnetCall a b x t t (zeros_like_plus t dt)) in *.
    set (r1 := randn (shape img_vae) GenNone (w_random W)) in *.
    set (r2 := randn (shape img_clip) GenNone (snd r1)) in *.
    set (c2 := mkUnetCall (fst r1) (fst r2) x (ones_like_times t N) t
                          (zeros_like_plus t dt)) in *.
    set (c3 := mkUnetCall a b (fst (randn (shape prompt_embeds) GenNone (snd r2)))
                          t (ones_like_times t N) (zeros_like_plus t dt)) in *.
    exists c1, c2, c3, xo, xu; eexists; split; [exact R|].
    split; [reflexivity | split; [reflexivity | split; [reflexivity |
      split; [exact Hr | split; [exact Hu|]]]]].
    cbn [relevant_output] in Hr.
    pose proof (unet_out_img unet_ok c1 (proj1 Ha)) as A1.
    pose proof (unet_out_clip unet_ok c1 (proj1 Hb)) as B1.
    pose proof (unet_out_text unet_ok c1 (proj1 Hx)) as X1.
    pose proof (unet_out_img unet_ok c3 (proj1 Ha)) as A3.
    pose proof (unet_out_clip unet_ok c3 (proj1 Hb)) as B3.
    pose proof (unet_out_text unet_ok c2 (proj1 Hx)) as X2.
    pose proof (combine_joint_map2 (guide g) A1 A3 B1 B3 X1 X2 Hr Hu) as Hc.
    destruct (split_combine_joint cfg height width
                (tensor_map2_shape (guide g) A1 A3) (tensor_map2_shape (guide g) B1 B3)
                (tensor_map2_shape (guide g) X1 X2))
      as (y & Hy & _ & Hsp).
    rewrite Hc in Hy; injection Hy as <-.
    exact Hsp.
Qed.

(* ------------------------------------------------------------------ *)
(** ** Claims on the denoising loop *)

(** C5, as the code has it.  For every mode the loop has a branch for and
    every number of inference steps [S] (the schedule installed by
    [set_timesteps(S)] has [S] entries), one run of the denoising loop calls
    [scheduler.step] exactly [S] times; it calls the network exactly [S]
    times when the guidance scale is 0, and when the guidance scale is
    positive [2 S] times in modes "t2i" and "i2t", [3 S] times in mode
    "joint" (one conditioned and two unconditioned passes per step) and [S]
    times in modes "t" and "i", which have no unconditioned pass. *)
Theorem denoising_loop_call_counts `{Collaborators}
        (cfg : PipelineConfig) (mode : Mode) (B height width : nat)
        (image_vae_latents image_clip_latents prompt_embeds : Tensor F)
        (S : nat) (kw : StepKwargs) (g : F) (generator : Generator)
        (cb : option Callback) (k : Z) (W : World) :
  unet_respects_shapes ->
  step_respects_shapes ->
  positive_is_nonzero ->
  In mode stage_modes ->
  stage_inputs_ok cfg mode B height width image_vae_latents image_clip_latents
                  prompt_embeds ->
  schedule_has_length S (w_scheduler W) ->
  cb = None \/ k <> 0%Z ->
  exists outs W' tr,
    _denoising_sample_fn cfg mode image_vae_latents image_clip_latents prompt_embeds
                         S kw g generator height width cb k W
    = (OK outs, W')
    /\ w_trace W' = w_trace W ++ tr
    /\ count_step tr = S
    /\ (feqb g fzero = true -> count_unet tr = S)
    /\ (fltb fzero g = true ->
        count_unet tr = S * match mode with
                            | m_joint => 3
                            | m_t2i | m_i2t => 2
                            | _ => 1
                            end).
Proof.
  intros unet_ok step_ok Hpos Hm Hin Hlen Hk.
  destruct (@denoising_sample_fn_run _ _ cfg unet_ok step_ok mode B height width
              image_vae_latents image_clip_latents prompt_embeds
              S kw g generator cb k W Hm Hin Hk)
    as (outs & W' & tr & Hrun & _ & Htr & Hcu & Hcs & _ & _).
  unfold schedule_has_length in Hlen; rewrite Hlen in Hcu, Hcs.
  exists outs, W', tr; repeat split; auto.
  - intros Hg; rewrite Hcu; unfold calls_per_step; rewrite Hg; lia.
  - intros Hg; rewrite Hcu; unfold calls_per_step; now rewrite (Hpos g Hg).
Qed.

Section CallbackFacts.
Context `{Collaborators}.

Lemma map_filter_comm {X Y : Type} (p : Y -> bool) (h : X -> Y) (l : list X) :
  map h (filter (fun x => p (h x)) l) = filter p (map h l).
Proof.
  induction l as [|x l IH]; simpl; [reflexivity|].
  destruct (p (h x)); simpl; now rewrite IH.
Qed.

Lemma map_fst_combine_same_length {X Y : Type} (a : list X) (b : list Y) :
  length a = length b -> map fst (combine a b) = a.
Proof.
  revert b; induction a as [|x a IH]; intros [|y b] Hl; try discriminate;
    [reflexivity|].
  simpl in *; f_equal; apply IH; lia.
Qed.

Lemma expected_callbacks_indices (len : nat) (warm : Z) (cb : option Callback) (k : Z)
      (ts : list Z) (results : list (Tensor F)) :
  length results = length ts ->
  map (fun e : nat * Tensor Z * Tensor F => fst (fst e))
      (expected_callbacks len warm cb k 0 ts results)
  = filter (fires len warm cb k) (seq 0 (length ts)).
Proof.
  intros Hl; unfold expected_callbacks.
  rewrite map_map; cbn [fst snd].
  rewrite (map_filter_comm (fires len warm cb k)
                           (fun e : nat * Z * Tensor F => fst (fst e))).
  f_equal.
  rewrite <- (map_map fst fst), map_fst_combine_same_length, map_fst_combine_same_length;
    [reflexivity | now rewrite length_seq |].
  rewrite length_combine, length_seq; lia.
Qed.

Lemma expected_callbacks_length (len : nat) (warm : Z) (cb : option Callback) (k : Z)
      (ts : list Z) (results : list (Tensor F)) :
  length (expected_callbacks len warm cb k 0 ts results) <= length ts.
Proof.
  unfold expected_callbacks; rewrite length_map.
  etransitivity; [apply filter_length_le|].
  rewrite !length_combine, length_seq; lia.
Qed.

Lemma fires_first_order (S : nat) (c : Callback) (k : Z) (i : nat) :
  scheduler_order = 1%Z ->
  fires S (Z.of_nat S - Z.of_nat S * scheduler_order) (Some c) k i
  = Z.eqb (Z.of_nat i mod k) 0.
Proof.
  intros Ho; unfold fires, progress_at; rewrite Ho.
  replace (Z.of_nat S - Z.of_nat S * 1)%Z with 0%Z by lia.
  rewrite Z.mod_1_r.
  replace (Z.ltb 0 (Z.of_nat i + 1)) with true by (symmetry; apply Z.ltb_lt; lia).
  cbn [andb]; now rewrite orb_true_r.
Qed.

End CallbackFacts.

(** C6, as the code has it.  For every callback interval [k >= 1] the
    callback supplied to the denoising loop fires exactly at the iterations
    [i] at which the progress bar is updated and [i mod k = 0]; for a
    first-order scheduler whose schedule has [S] entries these are the
    iterations 0, k, 2k, ... below [S], so the final iteration fires only
    when [(S - 1) mod k = 0].  It fires at most once per iteration, never
    more than the number of steps in total, and receives the iteration
    index, that iteration's timestep and the latent returned by that
    iteration's scheduler step. *)
Theorem callback_fires_when_index_is_multiple_of_k `{Collaborators}
        (cfg : PipelineConfig) (mode : Mode) (B height width : nat)
        (image_vae_latents image_clip_latents prompt_embeds : Tensor F)
        (S : nat) (kw : StepKwargs) (g : F) (generator : Generator)
        (c : Callback) (k : Z) (W : World) :
  unet_respects_shapes ->
  step_respects_shapes ->
  In mode stage_modes ->
  stage_inputs_ok cfg mode B height width image_vae_latents image_clip_latents
                  prompt_embeds ->
  (1 <= k)%Z ->
  exists outs W' tr,
    _denoising_sample_fn cfg mode image_vae_latents image_clip_latents prompt_embeds
                         S kw g generator height width (Some c) k W
    = (OK outs, W')
    /\ w_trace W' = w_trace W ++ tr
    /\ length (step_results tr)
       = length (scheduler_timesteps (scheduler_set_timesteps S (w_scheduler W)))
    /\ callback_events tr
       = expected_callbacks
           (length (scheduler_timesteps (scheduler_set_timesteps S (w_scheduler W))))
           (Z.of_nat (length (scheduler_timesteps
                                (scheduler_set_timesteps S (w_scheduler W))))
            - Z.of_nat S * scheduler_order)
           (Some c) k 0
           (scheduler_timesteps (scheduler_set_timesteps S (w_scheduler W)))
           (step_results tr)
    /\ count_callback tr
       <= length (scheduler_timesteps (scheduler_set_timesteps S (w_scheduler W)))
    /\ (scheduler_order = 1%Z ->
        schedule_has_length S (w_scheduler W) ->
        callback_indices tr
        = filter (fun i => Z.eqb (Z.of_nat i mod k) 0) (seq 0 S)).
Proof.
  intros unet_ok step_ok Hm Hin Hk.
  assert (Hk' : Some c = None \/ k <> 0%Z) by (right; lia).
  destruct (@denoising_sample_fn_run _ _ cfg unet_ok step_ok mode B height width
              image_vae_latents image_clip_latents prompt_embeds
              S kw g generator (Some c) k W Hm Hin Hk')
    as (outs & W' & tr & Hrun & _ & Htr & _ & _ & Hsr & Hce).
  exists outs, W', tr.
  split; [exact Hrun | split; [exact Htr | split; [exact Hsr | split; [exact Hce|]]]].
  split.
  - rewrite count_callback_events, Hce; apply expected_callbacks_length.
  - intros Ho Hlen; unfold schedule_has_length in Hlen.
    rewrite callback_indices_events, Hce, (@expected_callbacks_indices _ _ _ _ _ _ _ _ Hsr).
    rewrite Hlen; apply filter_ext; intros i.
    now apply fires_first_order.
Qed.

(* ------------------------------------------------------------------ *)
(** ** Claims on mode dispatch *)

(** C7. For a fixed random state and a deterministic network, a call in
    mode "t2i2t" is the sequence of two loop-controller runs the
    specification describes: a "t2i" run on the prepared latents, then an
    "i2t" run seeded with the image latents the first run produced; result,
    random state, scheduler state and trace are the same.  Symmetrically a
    call in mode "i2t2i" is an "i2t" run followed by a "t2i" run seeded with
    the text latent the first run produced. *)
Theorem compound_modes_are_two_stage_sequences `{Collaborators}
        (cfg : PipelineConfig) (a : CallArgs) (W : World) :
  (a_mode a = m_t2i2t ->
   __call__ cfg a W
   = bind (prepare_call cfg a)
          (fun inputs =>
             match inputs with
             | (prompt_embeds, image_vae_latents, image_clip_latents, height, width) =>
                 bind (spec_t2i2t (sample_stage cfg a height width)
                                  image_vae_latents image_clip_latents prompt_embeds)
                      (fun produced =>
                         match produced with
                         | OutText text_latents =>
                             finish a None (Some (caption_generate_captions text_latents))
                         | _ => raise TypeError
                         end)
             end) W)
  /\ (a_mode a = m_i2t2i ->
      __call__ cfg a W
      = bind (prepare_call cfg a)
             (fun inputs =>
                match inputs with
                | (prompt_embeds, image_vae_latents, image_clip_latents, height, width) =>
                    bind (spec_i2t2i (sample_stage cfg a height width)
                                     image_vae_latents image_clip_latents prompt_embeds)
                         (fun produced =>
                            match produced with
                            | OutImage image_vae_latents _ =>
                                finish a (Some (vae_decode_image image_vae_latents)) None
                            | _ => raise TypeError
                            end)
                end) W).
Proof.
  split; intros Hm; unfold __call__, spec_t2i2t, spec_i2t2i; cbv zeta; rewrite Hm;
    unfold bind;
    destruct (prepare_call cfg a W) as [[[[[[pe vae] clip] h] w]|e] W1];
    try reflexivity.
  - destruct (sample_stage cfg a h w m_t2i vae clip pe W1) as [[outs|e] W2];
      [|reflexivity].
    destruct outs as [? ? ?|vae' clip'|?|]; try reflexivity.
    destruct (sample_stage cfg a h w m_i2t vae' clip' pe W2) as [[r|e] W3];
      [|reflexivity].
    destruct r; reflexivity.
  - destruct (sample_stage cfg a h w m_i2t vae clip pe W1) as [[outs|e] W2];
      [|reflexivity].
    destruct outs as [? ? ?|? ?|text'|]; try reflexivity.
    destruct (sample_stage cfg a h w m_t2i vae clip text' W2) as [[r|e] W3];
      [|reflexivity].
    destruct r; reflexivity.
Qed.

(* ------------------------------------------------------------------ *)
(** ** Concrete runs on the stub instance *)

Section Concrete.
#[local] Existing Instance Stub.float_ops.
#[local] Existing Instance Stub.collaborators.

Lemma zero_guidance_is_one_conditioned_pass_witness :
  exists c x_out,
    get_noise_pred Stub.cfg m_joint Stub.joint0 (mkTensor [1] [999%Z])
                   Stub.text0 Stub.vae0 Stub.clip0 N_betas 0%Z 8 8 1%Z Stub.world0
    = (OK (Some x_out), add_event Stub.world0 (EvUnet c))
    /\ relevant_output m_joint (unet c) = OK x_out
    /\ count_unet (w_trace (add_event Stub.world0 (EvUnet c)))
       = count_unet (w_trace Stub.world0) + 1.
Proof.
  apply (@zero_guidance_is_one_conditioned_pass
           Stub.float_ops Stub.collaborators Stub.cfg m_joint 1 8 8 1).
  - exact stub_unet_ok.
  - simpl; auto.
  - vm_compute; split; reflexivity.
  - reflexivity.
  - reflexivity.
Defined.

Lemma unconditioned_pass_masks_the_conditioning_witness :
  (exists a b c1 res,
      _split Stub.cfg Stub.pair0 8 8 = OK (a, b)
      /\ get_noise_pred Stub.cfg m_t2i Stub.pair0 (mkTensor [1] [999%Z])
                        Stub.text0 Stub.vae0 Stub.clip0 N_betas 7%Z 8 8 1%Z Stub.world0
         = (OK (Some res),
            mkWorld (snd (randn (shape Stub.text0) GenNone (w_random Stub.world0)))
                    (w_scheduler Stub.world0)
                    (w_trace Stub.world0 ++
                       [EvUnet c1;
                        EvUnet (mkUnetCall
                                  a b
                                  (fst (randn (shape Stub.text0) GenNone
                                              (w_random Stub.world0)))
                                  (mkTensor [1] [999%Z])
                                  (ones_like_times (mkTensor [1] [999%Z]) N_betas)
                                  (zeros_like_plus (zeros1 1) 1%Z))])))
  /\ ones_like_times (mkTensor [1] [999%Z]) N_betas <> mkTensor [1] [999%Z].
Proof.
  pose proof (@unconditioned_pass_masks_the_conditioning
                Stub.float_ops Stub.collaborators Stub.cfg 1 8 8 1
                Stub.pair0 (mkTensor [1] [999%Z]) Stub.text0 Stub.vae0 Stub.clip0
                N_betas 7%Z 1%Z Stub.world0
                stub_unet_ok eq_refl eq_refl) as (T1 & _ & _ & T4).
  split.
  - apply T1; vm_compute; split; reflexivity.
  - apply T4; [discriminate|].
    intros z [<-|[]]; vm_compute; reflexivity.
Defined.

Lemma guided_output_is_xo_plus_g_times_xo_minus_xu_witness :
  exists c1 c2 xo xu W',
    get_noise_pred Stub.cfg m_t2i Stub.pair0 (mkTensor [1] [999%Z])
                   Stub.text0 Stub.vae0 Stub.clip0 N_betas 7%Z 8 8 1%Z Stub.world0
    = (OK (Some (tensor_guide 7%Z xo xu)), W')
    /\ w_trace W' = w_trace Stub.world0 ++ [EvUnet c1; EvUnet c2]
    /\ c_t_text c2 = ones_like_times (mkTensor [1] [999%Z]) N_betas
    /\ relevant_output m_t2i (unet c1) = OK xo
    /\ relevant_output m_t2i (unet c2) = OK xu
    /\ _split Stub.cfg (tensor_guide 7%Z xo xu) 8 8
       = OK (tensor_guide 7%Z (fst (fst (unet c1))) (fst (fst (unet c2))),
             tensor_guide 7%Z (snd (fst (unet c1))) (snd (fst (unet c2)))).
Proof.
  apply (proj1 (@guided_output_is_xo_plus_g_times_xo_minus_xu
                  Stub.float_ops Stub.collaborators Stub.cfg 1 8 8 1
                  Stub.pair0 (mkTensor [1] [999%Z]) Stub.text0 Stub.vae0 Stub.clip0
                  N_betas 7%Z 1%Z Stub.world0
                  stub_unet_ok stub_positive_is_nonzero eq_refl eq_refl)).
  vm_compute; split; reflexivity.
Defined.

(** C5 as stated fails: one guided step in mode "joint" calls the network
    three times, not twice. *)
Lemma joint_guided_step_calls_network_three_times :
  Z.ltb 0 7 = true
  /\ is_ok (fst (_denoising_sample_fn Stub.cfg m_joint Stub.vae0 Stub.clip0 Stub.text0
                                      1 Stub.kwargs0 7%Z GenNone 8 8 None 1%Z
                                      Stub.world0)) = true
  /\ count_step
       (w_trace (snd (_denoising_sample_fn Stub.cfg m_joint Stub.vae0 Stub.clip0
                                           Stub.text0 1 Stub.kwargs0 7%Z GenNone 8 8
                                           None 1%Z Stub.world0))) = 1
  /\ count_unet
       (w_trace (snd (_denoising_sample_fn Stub.cfg m_joint Stub.vae0 Stub.clip0
                                           Stub.text0 1 Stub.kwargs0 7%Z GenNone 8 8
                                           None 1%Z Stub.world0))) = 3
  /\ count_unet
       (w_trace (snd (_denoising_sample_fn Stub.cfg m_joint Stub.vae0 Stub.clip0
                                           Stub.text0 1 Stub.kwargs0 7%Z GenNone 8 8
                                           None 1%Z Stub.world0))) <> 2 * 1.
Proof.
  split; [reflexivity|].
  split; [vm_compute; reflexivity|].
  split; [vm_compute; reflexivity|].
  split; [vm_compute; reflexivity|].
  vm_compute; discriminate.
Qed.

Lemma denoising_loop_call_counts_witness :
  exists outs W' tr,
    _denoising_sample_fn Stub.cfg m_t2i Stub.vae0 Stub.clip0 Stub.text0
                         2 Stub.kwargs0 7%Z GenNone 8 8 None 1%Z Stub.world0
    = (OK outs, W')
    /\ w_trace W' = w_trace Stub.world0 ++ tr
    /\ count_step tr = 2
    /\ (feqb 7%Z fzero = true -> count_unet tr = 2)
    /\ (fltb fzero 7%Z = true -> count_unet tr = 2 * 2).
Proof.
  apply (@denoising_loop_call_counts
           Stub.float_ops Stub.collaborators Stub.cfg m_t2i 1 8 8
           Stub.vae0 Stub.clip0 Stub.text0 2 Stub.kwargs0 7%Z GenNone None 1%Z
           Stub.world0 stub_unet_ok stub_step_ok stub_positive_is_nonzero).
  - simpl; auto.
  - vm_compute; repeat split; reflexivity.
  - reflexivity.
  - now left.
Defined.

(** C6 as stated fails: with interval 2 and 4 steps the callback fires at
    iterations 0 and 2, not at iteration 1 = k - 1 and not at the final
    iteration 3. *)
Lemma callback_misses_iteration_k_minus_1_and_the_last :
  callback_indices
    (w_trace (snd (_denoising_sample_fn Stub.cfg m_t2i Stub.vae0 Stub.clip0 Stub.text0
                                        4 Stub.kwargs0 0%Z GenNone 8 8
                                        (Some UserCallback) 2%Z Stub.world0)))
  = [0; 2]
  /\ ~ In 1 (callback_indices
               (w_trace (snd (_denoising_sample_fn Stub.cfg m_t2i Stub.vae0 Stub.clip0
                                                   Stub.text0 4 Stub.kwargs0 0%Z GenNone
                                                   8 8 (Some UserCallback) 2%Z
                                                   Stub.world0))))
  /\ ~ In 3 (callback_indices
               (w_trace (snd (_denoising_sample_fn Stub.cfg m_t2i Stub.vae0 Stub.clip0
                                                   Stub.text0 4 Stub.kwargs0 0%Z GenNone
                                                   8 8 (Some UserCallback) 2%Z
                                                   Stub.world0)))).
Proof.
  assert (E : callback_indices
                (w_trace (snd (_denoising_sample_fn Stub.cfg m_t2i Stub.vae0 Stub.clip0
                                                    Stub.text0 4 Stub.kwargs0 0%Z GenNone
                                                    8 8 (Some UserCallback) 2%Z
                                                    Stub.world0)))
              = [0; 2]) by (vm_compute; reflexivity).
  rewrite E; split; [reflexivity|].
  split; intros [H|[H|[]]]; discriminate.
Qed.

Lemma callback_fires_when_index_is_multiple_of_k_witness :
  exists outs W' tr,
    _denoising_sample_fn Stub.cfg m_t2i Stub.vae0 Stub.clip0 Stub.text0
                         4 Stub.kwargs0 0%Z GenNone 8 8 (Some UserCallback) 2%Z
                         Stub.world0
    = (OK outs, W')
    /\ w_trace W' = w_trace Stub.world0 ++ tr
    /\ length (step_results tr)
       = length (scheduler_timesteps (scheduler_set_timesteps 4 (w_scheduler Stub.world0)))
    /\ callback_events tr
       = expected_callbacks
           (length (scheduler_timesteps
                      (scheduler_set_timesteps 4 (w_scheduler Stub.world0))))
           (Z.of_nat (length (scheduler_timesteps
                                (scheduler_set_timesteps 4 (w_scheduler Stub.world0))))
            - Z.of_nat 4 * scheduler_order)
           (Some UserCallback) 2%Z 0
           (scheduler_timesteps (scheduler_set_timesteps 4 (w_scheduler Stub.world0)))
           (step_results tr)
    /\ count_callback tr
       <= length (scheduler_timesteps (scheduler_set_timesteps 4 (w_scheduler Stub.world0)))
    /\ (scheduler_order = 1%Z ->
        schedule_has_length 4 (w_scheduler Stub.world0) ->
        callback_indices tr
        = filter (fun i => Z.eqb (Z.of_nat i mod 2) 0) (seq 0 4)).
Proof.
  apply (@callback_fires_when_index_is_multiple_of_k
           Stub.float_ops Stub.collaborators Stub.cfg m_t2i 1 8 8
           Stub.vae0 Stub.clip0 Stub.text0 4 Stub.kwargs0 0%Z GenNone UserCallback 2%Z
           Stub.world0 stub_unet_ok stub_step_ok).
  - simpl; auto.
  - vm_compute; repeat split; reflexivity.
  - lia.
Defined.

Lemma compound_modes_are_two_stage_sequences_witness :
  __call__ Stub.cfg Stub.args_t2i2t Stub.world0
  = bind (prepare_call Stub.cfg Stub.args_t2i2t)
         (fun inputs =>
            match inputs with
            | (prompt_embeds, image_vae_latents, image_clip_latents, height, width) =>
                bind (spec_t2i2t (sample_stage Stub.cfg Stub.args_t2i2t height width)
                                 image_vae_latents image_clip_latents prompt_embeds)
                     (fun produced =>
                        match produced with
                        | OutText text_latents =>
                            finish Stub.args_t2i2t None
                                   (Some (caption_generate_captions text_latents))
                        | _ => raise TypeError
                        end)
            end) Stub.world0.
Proof.
  apply (proj1 (@compound_modes_are_two_stage_sequences
                  Stub.float_ops Stub.collaborators Stub.cfg Stub.args_t2i2t
                  Stub.world0)).
  reflexivity.
Defined.

End Concrete.

(* ================================================================== *)
(** * Further properties *)

(* ------------------------------------------------------------------ *)
(** ** Validation: [check_inputs] *)

(** X1.  [check_inputs] returns normally exactly when height and width are
    multiples of 8, [callback_steps] is a positive integer, exactly one of
    [prompt] (a [str] or a [list]) and [prompt_embeds] is given, not both
    [negative_prompt] and [negative_prompt_embeds] are given, and the two
    embeddings, when both present, have one shape.  Every rejection is a
    [ValueError]. *)
Theorem check_inputs_accepts_exactly `{Collaborators}
        (prompt : option Prompt) (height width : nat) (callback_steps : CallbackSteps)
        (negative_prompt : option Prompt)
        (prompt_embeds negative_prompt_embeds : option (Tensor F)) :
  (check_inputs prompt height width callback_steps negative_prompt
                prompt_embeds negative_prompt_embeds = OK tt
   <->
   height mod 8 = 0 /\ width mod 8 = 0
   /\ (exists k, callback_steps = StepsInt k /\ (0 < k)%Z)
   /\ (((exists s, prompt = Some (PromptStr s)) \/ (exists l, prompt = Some (PromptList l)))
       /\ prompt_embeds = None
       \/ prompt = None /\ prompt_embeds <> None)
   /\ (negative_prompt = None \/ negative_prompt_embeds = None)
   /\ (forall pe npe, prompt_embeds = Some pe -> negative_prompt_embeds = Some npe ->
                      shape pe = shape npe))
  /\ (check_inputs prompt height width callback_steps negative_prompt
                   prompt_embeds negative_prompt_embeds = OK tt
      \/ check_inputs prompt height width callback_steps negative_prompt
                      prompt_embeds negative_prompt_embeds = Raise ValueError).
Proof.
  unfold check_inputs.
  destruct (Nat.eqb (height mod 8) 0) eqn:Hh; cbn [negb orb].
  2:{ apply Nat.eqb_neq in Hh; split; [split; [discriminate | tauto] | now right]. }
  destruct (Nat.eqb (width mod 8) 0) eqn:Hw; cbn [negb].
  2:{ apply Nat.eqb_neq in Hw; split; [split; [discriminate | tauto] | now right]. }
  apply Nat.eqb_eq in Hh, Hw.
  destruct callback_steps as [|k|].
  1,3: split; [split; [discriminate | intros (_ & _ & (k & E & _) & _); discriminate]
              | now right].
  destruct (Z.leb k 0) eqn:Hk.
  { apply Z.leb_le in Hk; split; [split; [discriminate|] | now right].
    intros (_ & _ & (k' & E & Hk') & _); injection E as <-; lia. }
  apply Z.leb_gt in Hk.
  assert (Hsteps : exists k0, StepsInt k = StepsInt k0 /\ (0 < k0)%Z) by (exists k; auto).
  destruct prompt as [[s|l|]|], prompt_embeds as [pe|]; cbn [res_bind];
    try (split; [split; [discriminate|] | now right];
         intros (_ & _ & _ & [[[[s' E]|[l' E]] E']|[E E']] & _);
         congruence);
    destruct negative_prompt as [np|], negative_prompt_embeds as [npe|]; cbn [res_bind];
    try (split; [split; [discriminate|] | now right];
         intros (_ & _ & _ & _ & [E|E] & _); discriminate);
    try (split; [split; [intros _ | reflexivity] | now left];
         repeat split; eauto; try discriminate;
         try solve [ left; split; eauto ];
         try solve [ right; split; [reflexivity | discriminate] ]).
  destruct (shape_eqb (shape pe) (shape npe)) eqn:Hs.
  - apply shape_eqb_eq in Hs.
    split; [split; [intros _ | reflexivity] | now left].
    repeat split; eauto.
    + right; split; [reflexivity | discriminate].
    + intros pe' npe' E1 E2; congruence.
  - split; [split; [discriminate|] | now right].
    intros (_ & _ & _ & _ & _ & Hsh).
    rewrite (Hsh pe npe eq_refl eq_refl), shape_eqb_refl in Hs; discriminate.
Qed.

(* ------------------------------------------------------------------ *)
(** ** Steps 0 to 4 of [__call__] *)

Section PreparationFrame.
Context `{Collaborators}.
Variable cfg : PipelineConfig.

Lemma only_draws_ret {A : Type} (a : A) : only_draws (ret a).
Proof. intros W; split; reflexivity. Qed.

Lemma only_draws_raise {A : Type} (e : Exn) : only_draws (@raise _ _ A e).
Proof. intros W; split; reflexivity. Qed.

Lemma only_draws_lift {A : Type} (r : Res A) : only_draws (lift r).
Proof. intros W; split; reflexivity. Qed.

Lemma only_draws_bind {A B : Type} (m : M A) (k : A -> M B) :
  only_draws m -> (forall a, only_draws (k a)) -> only_draws (bind m k).
Proof.
  intros Hm Hk W; unfold bind.
  destruct (Hm W) as [Ht Hs].
  destruct (m W) as [[a|e] W1]; cbn [snd] in *.
  - destruct (Hk a W1) as [Ht' Hs']; split; congruence.
  - split; assumption.
Qed.

Lemma only_draws_prepared (shape_ : list nat) (batch_size : nat) (generator : Generator)
      (latents : option (Tensor F)) :
  only_draws (prepared shape_ batch_size generator latents).
Proof.
  intros W; unfold prepared.
  destruct (generator_mismatch generator batch_size); [split; reflexivity|].
  destruct latents; split; reflexivity.
Qed.

Lemma only_draws_ext {A : Type} (m m' : M A) :
  (forall W, m W = m' W) -> only_draws m' -> only_draws m.
Proof. intros E Hm W; rewrite E; apply Hm. Qed.

Lemma only_draws_prepare_text_latents (b l d : nat) (g : Generator)
      (latents : option (Tensor F)) :
  only_draws (prepare_text_latents b l d g latents).
Proof.
  eapply only_draws_ext; [apply prepare_text_latents_run | apply only_draws_prepared].
Qed.

Lemma only_draws_prepare_image_vae_latents (b c h w : nat) (g : Generator)
      (latents : option (Tensor F)) :
  only_draws (prepare_image_vae_latents cfg b c h w g latents).
Proof.
  eapply only_draws_ext; [apply prepare_image_vae_latents_run | apply only_draws_prepared].
Qed.

Lemma only_draws_prepare_image_clip_latents (b d : nat) (g : Generator)
      (latents : option (Tensor F)) :
  only_draws (prepare_image_clip_latents b d g latents).
Proof.
  eapply only_draws_ext; [apply prepare_image_clip_latents_run | apply only_draws_prepared].
Qed.

Lemma only_draws_encode_image_vae_latents (x : Tensor F) (b n : nat) (g : Generator) :
  only_draws (encode_image_vae_latents x b n g).
Proof.
  intros W; unfold encode_image_vae_latents.
  destruct (vae_encode_image x b n g (w_random W)); split; reflexivity.
Qed.

Lemma only_draws_encode_image_clip_latents (image : Image) (b n : nat) (g : Generator) :
  only_draws (encode_image_clip_latents image b n g).
Proof.
  intros W; unfold encode_image_clip_latents.
  destruct image as [x|p|]; [| |split; reflexivity].
  - destruct (clip_encode_image (inl x) b n g (w_random W)); split; reflexivity.
  - destruct (clip_encode_image (inr p) b n g (w_random W)); split; reflexivity.
Qed.

Lemma only_draws_prepare_call (a : CallArgs) : only_draws (prepare_call cfg a).
Proof.
  unfold prepare_call; cbv zeta.
  apply only_draws_bind; [apply only_draws_lift | intros _].
  apply only_draws_bind; [apply only_draws_lift | intros batch_size].
  apply only_draws_bind.
  - destruct (a_mode a); try apply only_draws_prepare_text_latents.
    destruct (a_prompt a), (a_prompt_embeds a);
      try apply only_draws_raise;
      (apply only_draws_bind; [apply only_draws_lift | intros pe; apply only_draws_ret]).
  - intros prompt_embeds.
    assert (Hprep :
              only_draws
                (bind (prepare_image_vae_latents cfg (batch_size * a_num_images_per_prompt a)
                         (num_channels_latents cfg) (call_height cfg a) (call_width cfg a)
                         (a_generator a) (a_vae_latents a))
                      (fun image_vae_latents =>
                         bind (prepare_image_clip_latents
                                 (batch_size * a_num_images_per_prompt a)
                                 image_encoder_clip_img_dim (a_generator a)
                                 (a_clip_latents a))
                              (fun image_clip_latents =>
                                 ret (prompt_embeds, image_vae_latents, image_clip_latents,
                                      call_height cfg a, call_width cfg a))))).
    { apply only_draws_bind; [apply only_draws_prepare_image_vae_latents | intros v].
      apply only_draws_bind; [apply only_draws_prepare_image_clip_latents | intros c].
      apply only_draws_ret. }
    destruct (a_mode a); try exact Hprep.
    destruct (a_image a) as [image|]; [|apply only_draws_raise].
    apply only_draws_bind; [apply only_draws_lift | intros image_vae].
    apply only_draws_bind; [apply only_draws_lift | intros [hh ww]].
    apply only_draws_bind; [apply only_draws_encode_image_vae_latents | intros v].
    apply only_draws_bind; [apply only_draws_encode_image_clip_latents | intros c].
    apply only_draws_ret.
Qed.

End PreparationFrame.

(** X2.  Steps 0 to 4 of [__call__] (defaults, validation, batch size, encoding
    or drawing of the initial latents) make no network call, no scheduler
    step, no progress or callback call and leave the scheduler untouched,
    in every mode and for every argument list; and an exception raised
    there is the outcome of the whole call.  So every error of these steps
    is reported before any network call. *)
Theorem preparation_makes_no_network_call `{Collaborators}
        (cfg : PipelineConfig) (a : CallArgs) (W : World) :
  w_trace (snd (prepare_call cfg a W)) = w_trace W
  /\ w_scheduler (snd (prepare_call cfg a W)) = w_scheduler W
  /\ (forall (e : Exn) (W' : World),
         prepare_call cfg a W = (Raise e, W') ->
         __call__ cfg a W = (Raise e, W') /\ w_trace W' = w_trace W).
Proof.
  destruct (only_draws_prepare_call cfg a W) as [Ht Hs].
  split; [exact Ht | split; [exact Hs|]].
  intros e W' Hp; rewrite Hp in Ht; split; [|exact Ht].
  unfold __call__; cbv zeta; now rewrite (bind_Raise Hp).
Qed.

(** X3.  A height or width that is not a multiple of 8, or a [callback_steps]
    that is not a positive integer, makes [__call__] raise [ValueError] at
    once, in every mode and whatever the other arguments: nothing is drawn,
    encoded or computed before. *)
Theorem bad_dimensions_or_callback_steps_are_rejected `{Collaborators}
        (cfg : PipelineConfig) (a : CallArgs) (W : World) :
  call_height cfg a mod 8 <> 0
  \/ call_width cfg a mod 8 <> 0
  \/ (forall k, a_callback_steps a = StepsInt k -> (k <= 0)%Z) ->
  __call__ cfg a W = (Raise ValueError, W).
Proof.
  intros Hbad.
  assert (Hc : check_inputs (a_prompt a) (call_height cfg a) (call_width cfg a)
                            (a_callback_steps a) None None None = Raise ValueError).
  { unfold check_inputs.
    destruct (Nat.eqb (call_height cfg a mod 8) 0) eqn:Hh; [|reflexivity].
    destruct (Nat.eqb (call_width cfg a mod 8) 0) eqn:Hw; [|reflexivity].
    apply Nat.eqb_eq in Hh, Hw; cbn [negb orb].
    destruct Hbad as [Hb|[Hb|Hb]]; try contradiction.
    destruct (a_callback_steps a) as [|k|]; try reflexivity.
    specialize (Hb k eq_refl).
    apply Z.leb_le in Hb; now rewrite Hb. }
  unfold __call__, prepare_call; cbv zeta.
  unfold call_height, call_width in Hc; rewrite Hc; reflexivity.
Qed.

(** X4.  [negative_prompt] and [negative_prompt_embeds] are never read by
    [__call__]: two calls that differ in these arguments only behave
    alike.  They are not validated either: [check_inputs] rejects every
    argument list that gives both of them, but [__call__] calls it without
    them, so this rule is never exercised. *)
Theorem negative_prompts_are_never_read `{Collaborators}
        (cfg : PipelineConfig) (mode : Mode) (image : option Image)
        (prompt : option Prompt) (height width : option nat) (num_inference_steps : nat)
        (guidance_scale : F) (negative_prompt negative_prompt' : option Prompt)
        (num_images_per_prompt num_prompts_per_image num_samples : nat) (eta : F)
        (generator : Generator) (prompt_latents vae_latents clip_latents : option (Tensor F))
        (prompt_embeds negative_prompt_embeds negative_prompt_embeds' : option (Tensor F))
        (output_type_is_pil : bool) (callback : option Callback)
        (callback_steps : CallbackSteps) (W : World) :
  __call__ cfg
           (mkCallArgs mode image prompt height width num_inference_steps guidance_scale
                       negative_prompt num_images_per_prompt num_prompts_per_image
                       num_samples eta generator prompt_latents vae_latents clip_latents
                       prompt_embeds negative_prompt_embeds output_type_is_pil callback
                       callback_steps) W
  = __call__ cfg
             (mkCallArgs mode image prompt height width num_inference_steps guidance_scale
                         negative_prompt' num_images_per_prompt num_prompts_per_image
                         num_samples eta generator prompt_latents vae_latents clip_latents
                         prompt_embeds negative_prompt_embeds' output_type_is_pil callback
                         callback_steps) W
  /\ (forall (h w : nat) (np : Prompt) (npe : Tensor F),
         check_inputs prompt h w callback_steps (Some np) prompt_embeds (Some npe)
         = Raise ValueError).
Proof.
  split; [reflexivity|].
  intros h w np npe; unfold check_inputs.
  destruct (negb (Nat.eqb (h mod 8) 0) || negb (Nat.eqb (w mod 8) 0)); [reflexivity|].
  destruct callback_steps as [|k|]; try reflexivity.
  destruct (Z.leb k 0); [reflexivity|].
  destruct prompt as [[s|l|]|], prompt_embeds as [pe|]; reflexivity.
Qed.

(** X5.  Outside mode "i2t" the arguments [image] and [num_prompts_per_image]
    are never read: in particular the compound mode "i2t2i" does not
    encode the image it is given, its first stage runs on drawn image
    latents. *)
Theorem image_is_read_in_mode_i2t_only `{Collaborators}
        (cfg : PipelineConfig) (mode : Mode) (image image' : option Image)
        (prompt : option Prompt) (height width : option nat) (num_inference_steps : nat)
        (guidance_scale : F) (negative_prompt : option Prompt)
        (num_images_per_prompt num_prompts_per_image num_prompts_per_image' : nat)
        (num_samples : nat) (eta : F)
        (generator : Generator) (prompt_latents vae_latents clip_latents : option (Tensor F))
        (prompt_embeds negative_prompt_embeds : option (Tensor F))
        (output_type_is_pil : bool) (callback : option Callback)
        (callback_steps : CallbackSteps) (W : World) :
  mode <> m_i2t ->
  __call__ cfg
           (mkCallArgs mode image prompt height width num_inference_steps guidance_scale
                       negative_prompt num_images_per_prompt num_prompts_per_image
                       num_samples eta generator prompt_latents vae_latents clip_latents
                       prompt_embeds negative_prompt_embeds output_type_is_pil callback
                       callback_steps) W
  = __call__ cfg
             (mkCallArgs mode image' prompt height width num_inference_steps guidance_scale
                         negative_prompt num_images_per_prompt num_prompts_per_image'
                         num_samples eta generator prompt_latents vae_latents clip_latents
                         prompt_embeds negative_prompt_embeds output_type_is_pil callback
                         callback_steps) W.
Proof.
  intros Hm; destruct mode; try reflexivity; contradiction.
Qed.

(** X6.  Outside mode "t2i" the prompt is validated but its text is never
    read, and [prompt_embeds] is not read at all: two calls that differ in
    the text of a [str] / [list] prompt and in [prompt_embeds] behave
    alike.  In particular the compound mode "t2i2t" does not encode its
    prompt, its first stage is conditioned on a drawn text latent. *)
Theorem prompt_is_read_in_mode_t2i_only `{Collaborators}
        (cfg : PipelineConfig) (mode : Mode) (image : option Image)
        (prompt prompt' : Prompt) (height width : option nat) (num_inference_steps : nat)
        (guidance_scale : F) (negative_prompt : option Prompt)
        (num_images_per_prompt num_prompts_per_image : nat)
        (num_samples : nat) (eta : F)
        (generator : Generator) (prompt_latents vae_latents clip_latents : option (Tensor F))
        (prompt_embeds prompt_embeds' negative_prompt_embeds : option (Tensor F))
        (output_type_is_pil : bool) (callback : option Callback)
        (callback_steps : CallbackSteps) (W : World) :
  mode <> m_t2i ->
  prompt <> PromptOther ->
  prompt' <> PromptOther ->
  __call__ cfg
           (mkCallArgs mode image (Some prompt) height width num_inference_steps
                       guidance_scale
                       negative_prompt num_images_per_prompt num_prompts_per_image
                       num_samples eta generator prompt_latents vae_latents clip_latents
                       prompt_embeds negative_prompt_embeds output_type_is_pil callback
                       callback_steps) W
  = __call__ cfg
             (mkCallArgs mode image (Some prompt') height width num_inference_steps
                         guidance_scale
                         negative_prompt num_images_per_prompt num_prompts_per_image
                         num_samples eta generator prompt_latents vae_latents clip_latents
                         prompt_embeds' negative_prompt_embeds output_type_is_pil callback
                         callback_steps) W.
Proof.
  intros Hm Hp Hp'.
  destruct prompt; try contradiction; destruct prompt'; try contradiction;
    destruct mode; try reflexivity; contradiction.
Qed.

(* ------------------------------------------------------------------ *)
(** ** Runs of [__call__] *)

Section CallRuns.
Context `{Collaborators}.
Variable cfg : PipelineConfig.
Hypothesis randn_ok : randn_respects_shapes.

Lemma has_shape_mul_scalar (s : list nat) (x : Tensor F) (sigma : F) :
  has_shape s x -> has_shape s (mul_scalar x sigma).
Proof. intros [Hs Hd]; split; [exact Hs | cbn; now rewrite length_map]. Qed.

Lemma has_shape_wf (s : list nat) (x : Tensor F) : has_shape s x -> wf x.
Proof. intros [Hs Hd]; unfold wf; now rewrite Hs. Qed.

Lemma prepared_fresh_run (s : list nat) (b : nat) (g : Generator) (W : World) :
  generator_mismatch g b = false ->
  exists x W1,
    prepared s b g None W = (OK x, W1)
    /\ has_shape s x
    /\ w_trace W1 = w_trace W
    /\ w_scheduler W1 = w_scheduler W.
Proof.
  intros Hg; unfold prepared; rewrite Hg.
  eexists _, _; split; [reflexivity|].
  split; [apply has_shape_mul_scalar, randn_ok | split; reflexivity].
Qed.

Lemma check_inputs_prompt (prompt : option Prompt) (h w : nat) (cs : CallbackSteps) :
  check_inputs prompt h w cs None None None = OK tt ->
  (exists p, prompt = Some p /\ p <> PromptOther)
  /\ exists k, cs = StepsInt k /\ (0 < k)%Z.
Proof.
  unfold check_inputs.
  destruct (negb (Nat.eqb (h mod 8) 0) || negb (Nat.eqb (w mod 8) 0));
    [discriminate|].
  destruct cs as [|k|]; try discriminate.
  destruct (Z.leb k 0) eqn:Hk; [discriminate|].
  apply Z.leb_gt in Hk.
  destruct prompt as [[s|l|]|]; cbn; try discriminate; intros _;
    (split; [eexists; split; [reflexivity | discriminate] | eauto]).
Qed.

(** The image half of step 4 outside mode "i2t". *)
Lemma prepare_image_latents_run (b height width : nat) (g : Generator) (W : World)
      {X : Type} (k : Tensor F -> Tensor F -> X) :
  generator_mismatch g b = false ->
  exists vae clip W1,
    bind (prepare_image_vae_latents cfg b (num_channels_latents cfg) height width g None)
         (fun image_vae_latents =>
            bind (prepare_image_clip_latents b image_encoder_clip_img_dim g None)
                 (fun image_clip_latents =>
                    ret (k image_vae_latents image_clip_latents))) W
    = (OK (k vae clip), W1)
    /\ has_shape (vae_shape cfg b height width) vae
    /\ has_shape (clip_shape b) clip
    /\ w_trace W1 = w_trace W
    /\ w_scheduler W1 = w_scheduler W.
Proof.
  intros Hg.
  destruct (@prepared_fresh_run (vae_shape cfg b height width) b g W Hg)
    as (vae & W1 & R1 & S1 & T1 & Q1).
  destruct (@prepared_fresh_run (clip_shape b) b g W1 Hg)
    as (clip & W2 & R2 & S2 & T2 & Q2).
  exists vae, clip, W2.
  split; [|split; [exact S1 | split; [exact S2 | split; congruence]]].
  unfold vae_shape in R1; unfold clip_shape in R2.
  rewrite <- prepare_image_vae_latents_run in R1.
  rewrite <- prepare_image_clip_latents_run in R2.
  now rewrite (bind_OK R1), (bind_OK R2).
Qed.

Lemma prepare_call_run (a : CallArgs) (B : nat) (W : World) :
  a_mode a <> m_i2t ->
  check_inputs (a_prompt a) (call_height cfg a) (call_width cfg a)
               (a_callback_steps a) None None None = OK tt ->
  call_batch_size a = OK B ->
  a_mode a = m_t2i \/ generator_mismatch (a_generator a) B = false ->
  generator_mismatch (a_generator a) (B * a_num_images_per_prompt a) = false ->
  a_prompt_latents a = None ->
  a_vae_latents a = None ->
  a_clip_latents a = None ->
  exists pe vae clip W1,
    prepare_call cfg a W
    = (OK (pe, vae, clip, call_height cfg a, call_width cfg a), W1)
    /\ has_shape (vae_shape cfg (B * a_num_images_per_prompt a)
                            (call_height cfg a) (call_width cfg a)) vae
    /\ has_shape (clip_shape (B * a_num_images_per_prompt a)) clip
    /\ (a_mode a <> m_t2i -> has_shape (text_shape cfg B) pe)
    /\ (a_mode a = m_t2i ->
        exists e, _encode_prompt (a_prompt a) (a_prompt_embeds a) = OK e
                  /\ pe = caption_encode_prefix e)
    /\ w_trace W1 = w_trace W
    /\ w_scheduler W1 = w_scheduler W.
Proof.
  intros Hm Hc Hb Hg1 Hg2 Hpl Hvl Hcl.
  destruct (check_inputs_prompt _ _ _ _ Hc) as [(p & Hp & Hpo) _].
  unfold prepare_call; cbv zeta.
  unfold call_height, call_width, call_batch_size in *.
  rewrite Hc, lift_bind, Hb, lift_bind, Hpl, Hvl, Hcl.
  destruct (a_mode a) eqn:Hmode; try contradiction.
  2:{ (* t2i *)
    rewrite Hp.
    assert (He : exists e, _encode_prompt (Some p) (a_prompt_embeds a) = OK e).
    { unfold _encode_prompt; destruct (a_prompt_embeds a); eauto. }
    destruct He as (e & He).
    replace (match a_prompt_embeds a with
             | Some _ | _ =>
                 bind (lift (_encode_prompt (Some p) (a_prompt_embeds a)))
                      (fun pe => ret (caption_encode_prefix pe))
             end)
      with (bind (lift (_encode_prompt (Some p) (a_prompt_embeds a)))
                 (fun pe => ret (caption_encode_prefix pe)))
      by (now destruct (a_prompt_embeds a)).
    assert (Re : bind (lift (_encode_prompt (Some p) (a_prompt_embeds a)))
                      (fun pe => ret (caption_encode_prefix pe)) W
                 = (OK (caption_encode_prefix e), W)) by (now rewrite He).
    rewrite (bind_OK Re).
    destruct (@prepare_image_latents_run
                (B * a_num_images_per_prompt a) (call_height cfg a) (call_width cfg a)
                (a_generator a) W _
                (fun v c => (caption_encode_prefix e, v, c,
                             call_height cfg a, call_width cfg a)) Hg2)
      as (vae & clip & W1 & R & Sv & Sc & T & Q).
    exists (caption_encode_prefix e), vae, clip, W1.
    split; [exact R | split; [exact Sv | split; [exact Sc | split; [congruence|]]]].
    split; [intros _; eauto | split; assumption]. }
  all: destruct Hg1 as [Hg1|Hg1]; [discriminate|].
  all: destruct (@prepared_fresh_run (text_shape cfg B) B (a_generator a) W Hg1)
      as (pe & W0 & R0 & S0 & T0 & Q0);
    unfold text_shape in R0; rewrite <- prepare_text_latents_run in R0;
    rewrite (bind_OK R0);
    destruct (@prepare_image_latents_run
                (B * a_num_images_per_prompt a) (call_height cfg a) (call_width cfg a)
                (a_generator a) W0 _
                (fun v c => (pe, v, c, call_height cfg a, call_width cfg a)) Hg2)
      as (vae & clip & W1 & R & Sv & Sc & T & Q);
    exists pe, vae, clip, W1;
    (split; [exact R | split; [exact Sv | split; [exact Sc | split; [intros _; exact S0|]]]]);
    (split; [discriminate | split; congruence]).
Qed.

End CallRuns.

Section StageRuns.
Context `{Collaborators}.
Variable cfg : PipelineConfig.
Hypothesis unet_ok : unet_respects_shapes.
Hypothesis step_ok : step_respects_shapes.

(** One stage of a validated call. *)
Lemma sample_stage_run (a : CallArgs) (B height width : nat) (stage : Mode)
      (image_vae_latents image_clip_latents prompt_embeds : Tensor F) (W : World) :
  (exists k, a_callback_steps a = StepsInt k /\ (0 < k)%Z) ->
  In stage stage_modes ->
  stage_inputs_ok cfg stage B height width image_vae_latents image_clip_latents
                  prompt_embeds ->
  exists outs W' tr,
    sample_stage cfg a height width stage image_vae_latents image_clip_latents
                 prompt_embeds W
    = (OK outs, W')
    /\ outs_ok cfg stage B height width outs
    /\ w_trace W' = w_trace W ++ tr
    /\ count_step tr
       = length (scheduler_timesteps
                   (scheduler_set_timesteps (a_num_inference_steps a) (w_scheduler W)))
    /\ count_unet tr
       = length (scheduler_timesteps
                   (scheduler_set_timesteps (a_num_inference_steps a) (w_scheduler W)))
         * calls_per_step stage (a_guidance_scale a).
Proof.
  intros (k & Hk & Hpos) Hs Hin.
  assert (Hcb : a_callback a = None \/ steps_value (a_callback_steps a) <> 0%Z)
    by (right; rewrite Hk; cbn; lia).
  destruct (@denoising_sample_fn_run _ _ cfg unet_ok step_ok stage B height width
              image_vae_latents image_clip_latents prompt_embeds
              (a_num_inference_steps a)
              (prepare_extra_step_kwargs (a_generator a) (a_eta a))
              (a_guidance_scale a) (a_generator a) (a_callback a)
              (steps_value (a_callback_steps a)) W Hs Hin Hcb)
    as (outs & W' & tr & Hrun & Houts & Htr & Hcu & Hcs & _ & _).
  exists outs, W', tr; repeat split; assumption.
Qed.

End StageRuns.

Lemma stub_randn_ok : @randn_respects_shapes Stub.float_ops Stub.collaborators.
Proof.
  intros s g r; split; [reflexivity | cbn; apply repeat_length].
Qed.

(** X7.  Outside mode "i2t", once validation has passed and no latent override
    is given, steps 2 to 4 of [__call__] return image latents of shapes
    (B k, C, height // scale, width // scale) and (B k, 1, 512), where [B]
    is the inferred batch size and [k] is [num_images_per_prompt], and,
    outside mode "t2i", a text latent of shape (B, seq_len, 64); in mode
    "t2i" the text conditioning is the down-projected prompt embedding.
    The requested height and width are returned unchanged. *)
Theorem prepared_latents_have_the_mode_shapes `{Collaborators}
        (cfg : PipelineConfig) (a : CallArgs) (B : nat) (W : World) :
  randn_respects_shapes ->
  a_mode a <> m_i2t ->
  check_inputs (a_prompt a) (call_height cfg a) (call_width cfg a)
               (a_callback_steps a) None None None = OK tt ->
  call_batch_size a = OK B ->
  a_mode a = m_t2i \/ generator_mismatch (a_generator a) B = false ->
  generator_mismatch (a_generator a) (B * a_num_images_per_prompt a) = false ->
  a_prompt_latents a = None ->
  a_vae_latents a = None ->
  a_clip_latents a = None ->
  exists pe vae clip W1,
    prepare_call cfg a W
    = (OK (pe, vae, clip, call_height cfg a, call_width cfg a), W1)
    /\ has_shape (vae_shape cfg (B * a_num_images_per_prompt a)
                            (call_height cfg a) (call_width cfg a)) vae
    /\ has_shape (clip_shape (B * a_num_images_per_prompt a)) clip
    /\ (a_mode a <> m_t2i -> has_shape (text_shape cfg B) pe)
    /\ (a_mode a = m_t2i ->
        exists e, _encode_prompt (a_prompt a) (a_prompt_embeds a) = OK e
                  /\ pe = caption_encode_prefix e)
    /\ w_trace W1 = w_trace W
    /\ w_scheduler W1 = w_scheduler W.
Proof. intros randn_ok; now apply prepare_call_run. Qed.

(** X8.  End to end.  With a shape-preserving network and scheduler step, a
    validated call without latent overrides in any supported mode other
    than "i2t" returns normally, and which outputs it populates depends on
    the mode only: images in "joint", "t2i", "i" and "i2t2i", texts in
    "joint", "t" and "t2i2t" (mode "joint" needs one image per prompt, its
    three latents sharing one batch).  When the scheduler installs [S]
    timesteps for [S] requested steps, the scheduler is stepped [S] times
    in a single-stage mode and [2 S] times in a compound mode. *)
Theorem call_populates_the_outputs_of_its_mode `{Collaborators}
        (cfg : PipelineConfig) (a : CallArgs) (B : nat) (W : World) :
  unet_respects_shapes ->
  step_respects_shapes ->
  randn_respects_shapes ->
  a_mode a <> m_i2t ->
  a_mode a <> m_unsupported ->
  check_inputs (a_prompt a) (call_height cfg a) (call_width cfg a)
               (a_callback_steps a) None None None = OK tt ->
  call_batch_size a = OK B ->
  a_mode a = m_t2i \/ generator_mismatch (a_generator a) B = false ->
  generator_mismatch (a_generator a) (B * a_num_images_per_prompt a) = false ->
  a_prompt_latents a = None ->
  a_vae_latents a = None ->
  a_clip_latents a = None ->
  (a_mode a = m_joint -> a_num_images_per_prompt a = 1) ->
  exists out W' tr,
    __call__ cfg a W = (OK out, W')
    /\ w_trace W' = w_trace W ++ tr
    /\ (images out <> None <-> In (a_mode a) [m_joint; m_t2i; m_i; m_i2t2i])
    /\ (texts out <> None <-> In (a_mode a) [m_joint; m_t; m_t2i2t])
    /\ ((forall s, schedule_has_length (a_num_inference_steps a) s) ->
        count_step tr
        = match a_mode a with
          | m_t2i2t | m_i2t2i => 2 * a_num_inference_steps a
          | _ => a_num_inference_steps a
          end).
Proof.
  intros unet_ok step_ok randn_ok Hi2t Hsup Hc Hb Hg1 Hg2 Hpl Hvl Hcl Hjoint.
  destruct (@prepare_call_run _ _ cfg randn_ok a B W Hi2t Hc Hb Hg1 Hg2 Hpl Hvl Hcl)
    as (pe & vae & clip & W1 & Rp & Sv & Sc & Spe & _ & T1 & _).
  destruct (check_inputs_prompt _ _ _ _ Hc) as [_ Hk].
  set (h := call_height cfg a) in *; set (w := call_width cfg a) in *.
  assert (Hfin : forall (im : option DecodedImages) (tx : option (list string)) (W0 : World),
             exists out, finish a im tx W0 = (OK out, W0)
                         /\ (images out <> None <-> im <> None)
                         /\ texts out = tx).
  { intros im tx W0; unfold finish, ret.
    destruct im as [im|]; [destruct (a_output_type_is_pil a)|];
      eexists; (split; [reflexivity|]); cbn [images texts];
      (split; [split; intros; (discriminate || assumption) | reflexivity]). }
  unfold __call__; cbv zeta; rewrite (bind_OK Rp).
  destruct (a_mode a) eqn:Hm; try contradiction.
  - (* joint *)
    rewrite (Hjoint eq_refl), Nat.mul_1_r in Sv, Sc.
    destruct (@sample_stage_run _ _ cfg unet_ok step_ok a B h w m_joint vae clip pe W1 Hk)
      as (outs & W2 & tr & R & Houts & Htr & Hcs & _);
      [simpl; auto 10 | repeat split; try apply Sv; try apply Sc; apply Spe; discriminate |].
    rewrite (bind_OK R).
    destruct outs as [x1 x2 x3|x1 x2|x3|]; cbn [outs_ok] in Houts; try contradiction.
    rewrite ret_bind.
    destruct (Hfin (Some (vae_decode_image x1)) (Some (caption_generate_captions x3)) W2)
      as (out & Rf & Him & Htx).
    exists out, W2, tr; split; [exact Rf | split; [congruence|]].
    split; [|split].
    + rewrite Him; split; [intros _; simpl; auto 10 | discriminate].
    + rewrite Htx; split; [intros _; simpl; auto 10 | discriminate].
    + intros Hlen; rewrite Hcs; apply Hlen.
  - (* t2i *)
    destruct (@sample_stage_run _ _ cfg unet_ok step_ok a (B * a_num_images_per_prompt a)
                                h w m_t2i vae clip pe W1 Hk)
      as (outs & W2 & tr & R & Houts & Htr & Hcs & _);
      [simpl; auto 10 | split; assumption |].
    rewrite (bind_OK R).
    destruct outs as [x1 x2 x3|x1 x2|x3|]; cbn [outs_ok] in Houts; try contradiction.
    rewrite ret_bind.
    destruct (Hfin (Some (vae_decode_image x1)) None W2) as (out & Rf & Him & Htx).
    exists out, W2, tr; split; [exact Rf | split; [congruence|]].
    split; [|split].
    + rewrite Him; split; [intros _; simpl; auto 10 | discriminate].
    + rewrite Htx; split; [congruence | intros [E|[E|[E|[]]]]; discriminate].
    + intros Hlen; rewrite Hcs; apply Hlen.
  - (* t *)
    destruct (@sample_stage_run _ _ cfg unet_ok step_ok a B h w m_t vae clip pe W1 Hk)
      as (outs & W2 & tr & R & Houts & Htr & Hcs & _);
      [simpl; auto 10 | apply (has_shape_wf (Spe ltac:(discriminate))) |].
    rewrite (bind_OK R).
    destruct outs as [x1 x2 x3|x1 x2|x3|]; cbn [outs_ok] in Houts; try contradiction.
    rewrite ret_bind.
    destruct (Hfin None (Some (caption_generate_captions x3)) W2) as (out & Rf & Him & Htx).
    exists out, W2, tr; split; [exact Rf | split; [congruence|]].
    split; [|split].
    + rewrite Him; split; [congruence | intros [E|[E|[E|[E|[]]]]]; discriminate].
    + rewrite Htx; split; [intros _; simpl; auto 10 | discriminate].
    + intros Hlen; rewrite Hcs; apply Hlen.
  - (* i *)
    destruct (@sample_stage_run _ _ cfg unet_ok step_ok a (B * a_num_images_per_prompt a)
                                h w m_i vae clip pe W1 Hk)
      as (outs & W2 & tr & R & Houts & Htr & Hcs & _);
      [simpl; auto 10 | split; assumption |].
    rewrite (bind_OK R).
    destruct outs as [x1 x2 x3|x1 x2|x3|]; cbn [outs_ok] in Houts; try contradiction.
    rewrite ret_bind.
    destruct (Hfin (Some (vae_decode_image x1)) None W2) as (out & Rf & Him & Htx).
    exists out, W2, tr; split; [exact Rf | split; [congruence|]].
    split; [|split].
    + rewrite Him; split; [intros _; simpl; auto 10 | discriminate].
    + rewrite Htx; split; [congruence | intros [E|[E|[E|[]]]]; discriminate].
    + intros Hlen; rewrite Hcs; apply Hlen.
  - (* t2i2t *)
    destruct (@sample_stage_run _ _ cfg unet_ok step_ok a (B * a_num_images_per_prompt a)
                                h w m_t2i vae clip pe W1 Hk)
      as (outs & W2 & tr & R & Houts & Htr & Hcs & _);
      [simpl; auto 10 | split; assumption |].
    rewrite (bind_OK R).
    destruct outs as [x1 x2 x3|x1 x2|x3|]; cbn [outs_ok] in Houts; try contradiction.
    destruct (@sample_stage_run _ _ cfg unet_ok step_ok a B h w m_i2t x1 x2 pe W2 Hk)
      as (outs' & W3 & tr' & R' & Houts' & Htr' & Hcs' & _);
      [simpl; auto 10 | apply (has_shape_wf (Spe ltac:(discriminate))) |].
    destruct outs' as [y1 y2 y3|y1 y2|y3|]; cbn [outs_ok] in Houts'; try contradiction.
    assert (Rin : bind (sample_stage cfg a h w m_i2t x1 x2 pe)
                       (fun text_latents =>
                          match text_latents with
                          | OutText text_latents =>
                              ret (@None DecodedImages,
                                   Some (caption_generate_captions text_latents))
                          | _ => raise TypeError
                          end) W2
                  = (OK (None, Some (caption_generate_captions y3)), W3))
      by (now rewrite (bind_OK R')).
    rewrite (bind_OK Rin).
    destruct (Hfin None (Some (caption_generate_captions y3)) W3) as (out & Rf & Him & Htx).
    exists out, W3, (tr ++ tr'); split; [exact Rf | split].
    { rewrite Htr', Htr, T1; now rewrite app_assoc. }
    split; [|split].
    + rewrite Him; split; [congruence | intros [E|[E|[E|[E|[]]]]]; discriminate].
    + rewrite Htx; split; [intros _; simpl; auto 10 | discriminate].
    + intros Hlen; unfold schedule_has_length in Hlen.
      rewrite count_step_app, Hcs, Hcs', !Hlen; lia.
  - (* i2t2i *)
    destruct (@sample_stage_run _ _ cfg unet_ok step_ok a B h w m_i2t vae clip pe W1 Hk)
      as (outs & W2 & tr & R & Houts & Htr & Hcs & _);
      [simpl; auto 10 | apply (has_shape_wf (Spe ltac:(discriminate))) |].
    rewrite (bind_OK R).
    destruct outs as [x1 x2 x3|x1 x2|x3|]; cbn [outs_ok] in Houts; try contradiction.
    destruct (@sample_stage_run _ _ cfg unet_ok step_ok a (B * a_num_images_per_prompt a)
                                h w m_t2i vae clip x3 W2 Hk)
      as (outs' & W3 & tr' & R' & Houts' & Htr' & Hcs' & _);
      [simpl; auto 10 | split; assumption |].
    destruct outs' as [y1 y2 y3|y1 y2|y3|]; cbn [outs_ok] in Houts'; try contradiction.
    assert (Rin : bind (sample_stage cfg a h w m_t2i vae clip x3)
                       (fun outs2 =>
                          match outs2 with
                          | OutImage image_vae_latents _ =>
                              ret (Some (vae_decode_image image_vae_latents),
                                   @None (list string))
                          | _ => raise TypeError
                          end) W2
                  = (OK (Some (vae_decode_image y1), None), W3))
      by (now rewrite (bind_OK R')).
    rewrite (bind_OK Rin).
    destruct (Hfin (Some (vae_decode_image y1)) None W3) as (out & Rf & Him & Htx).
    exists out, W3, (tr ++ tr'); split; [exact Rf | split].
    { rewrite Htr', Htr, T1; now rewrite app_assoc. }
    split; [|split].
    + rewrite Him; split; [intros _; simpl; auto 10 | discriminate].
    + rewrite Htx; split; [congruence | intros [E|[E|[E|[]]]]; discriminate].
    + intros Hlen; unfold schedule_has_length in Hlen.
      rewrite count_step_app, Hcs, Hcs', !Hlen; lia.
Qed.

Section CallErrors.
Context `{Collaborators}.
Variable cfg : PipelineConfig.

Lemma check_inputs_raises_value_error (prompt : option Prompt) (h w : nat)
      (cs : CallbackSteps) :
  check_inputs prompt h w cs None None None = OK tt
  \/ check_inputs prompt h w cs None None None = Raise ValueError.
Proof.
  unfold check_inputs.
  destruct (negb (Nat.eqb (h mod 8) 0) || negb (Nat.eqb (w mod 8) 0)); [now right|].
  destruct cs as [|k|]; try (now right).
  destruct (Z.leb k 0); [now right|].
  destruct prompt as [[s|l|]|]; cbn; auto.
Qed.

Lemma call_fails_in_preparation (a : CallArgs) (e : Exn) (W W' : World) :
  prepare_call cfg a W = (Raise e, W') ->
  __call__ cfg a W = (Raise e, W') /\ w_trace W' = w_trace W.
Proof.
  intros Hp; split.
  - unfold __call__; cbv zeta; now rewrite (bind_Raise Hp).
  - pose proof (proj1 (only_draws_prepare_call cfg a W)) as Ht.
    now rewrite Hp in Ht.
Qed.

Lemma prepared_run_ok (s : list nat) (b : nat) (g : Generator)
      (latents : option (Tensor F)) (W : World) :
  generator_mismatch g b = false ->
  exists x W1, prepared s b g latents W = (OK x, W1).
Proof.
  intros Hg; unfold prepared; rewrite Hg.
  destruct latents; eexists _, _; reflexivity.
Qed.

Lemma prepared_run_mismatch (s : list nat) (b : nat) (g : Generator)
      (latents : option (Tensor F)) (W : World) :
  generator_mismatch g b = true ->
  prepared s b g latents W = (Raise ValueError, W).
Proof. intros Hg; unfold prepared; now rewrite Hg. Qed.

Lemma prepare_call_generator_mismatch (a : CallArgs) (B : nat) (gs : list nat)
      (W : World) :
  a_mode a <> m_i2t ->
  call_batch_size a = OK B ->
  a_generator a = GenList gs ->
  length gs <> B * a_num_images_per_prompt a ->
  exists W', prepare_call cfg a W = (Raise ValueError, W').
Proof.
  intros Hm Hb Hg Hlen.
  assert (Hg2 : generator_mismatch (GenList gs) (B * a_num_images_per_prompt a) = true).
  { cbn; apply negb_true_iff, Nat.eqb_neq; exact Hlen. }
  unfold prepare_call; cbv zeta.
  unfold call_batch_size in Hb; rewrite Hg.
  destruct (check_inputs_raises_value_error
              (a_prompt a)
              (or_default (a_height a) (unet_img_size cfg * vae_scale_factor cfg))
              (or_default (a_width a) (unet_img_size cfg * vae_scale_factor cfg))
              (a_callback_steps a)) as [Hc|Hc].
  2:{ rewrite Hc; exists W; reflexivity. }
  destruct (check_inputs_prompt _ _ _ _ Hc) as [(p & Hp & Hpo) _].
  rewrite Hc, lift_bind, Hb, lift_bind.
  assert (Himg : forall (pe : Tensor F) (W0 : World),
             bind (prepare_image_vae_latents cfg (B * a_num_images_per_prompt a)
                     (num_channels_latents cfg)
                     (or_default (a_height a) (unet_img_size cfg * vae_scale_factor cfg))
                     (or_default (a_width a) (unet_img_size cfg * vae_scale_factor cfg))
                     (GenList gs) (a_vae_latents a))
                  (fun image_vae_latents =>
                     bind (prepare_image_clip_latents
                             (B * a_num_images_per_prompt a)
                             image_encoder_clip_img_dim (GenList gs) (a_clip_latents a))
                          (fun image_clip_latents =>
                             ret (pe, image_vae_latents, image_clip_latents,
                                  or_default (a_height a)
                                             (unet_img_size cfg * vae_scale_factor cfg),
                                  or_default (a_width a)
                                             (unet_img_size cfg * vae_scale_factor cfg)))) W0
             = (Raise ValueError, W0)).
  { intros pe W0; apply bind_Raise.
    rewrite prepare_image_vae_latents_run; now apply prepared_run_mismatch. }
  destruct (a_mode a) eqn:Hmode; try contradiction.
  2:{ (* t2i *)
    rewrite Hp.
    assert (He : exists e, _encode_prompt (Some p) (a_prompt_embeds a) = OK e).
    { unfold _encode_prompt; destruct (a_prompt_embeds a); eauto. }
    destruct He as (e & He).
    replace (match a_prompt_embeds a with
             | Some _ | _ =>
                 bind (lift (_encode_prompt (Some p) (a_prompt_embeds a)))
                      (fun pe => ret (caption_encode_prefix pe))
             end)
      with (bind (lift (_encode_prompt (Some p) (a_prompt_embeds a)))
                 (fun pe => ret (caption_encode_prefix pe)))
      by (now destruct (a_prompt_embeds a)).
    assert (Re : bind (lift (_encode_prompt (Some p) (a_prompt_embeds a)))
                      (fun pe => ret (caption_encode_prefix pe)) W
                 = (OK (caption_encode_prefix e), W)) by (now rewrite He).
    rewrite (bind_OK Re), Himg; eauto. }
  all: destruct (generator_mismatch (GenList gs) B) eqn:Hg1;
    [ exists W; apply bind_Raise;
      rewrite prepare_text_latents_run; now apply prepared_run_mismatch
    | destruct (@prepared_run_ok
                  [B; text_encoder_seq_len cfg; text_encoder_text_dim] B (GenList gs)
                  (a_prompt_latents a) W Hg1) as (pe & W0 & R0);
      rewrite <- prepare_text_latents_run in R0;
      rewrite (bind_OK R0), Himg; eauto ].
Qed.

End CallErrors.

(** X9.  A list of generators whose length differs from the effective batch
    size (inferred batch size times [num_images_per_prompt]) makes every
    call outside mode "i2t" raise [ValueError], before any network call. *)
Theorem generator_list_of_wrong_length_is_rejected `{Collaborators}
        (cfg : PipelineConfig) (a : CallArgs) (B : nat) (gs : list nat) (W : World) :
  a_mode a <> m_i2t ->
  call_batch_size a = OK B ->
  a_generator a = GenList gs ->
  length gs <> B * a_num_images_per_prompt a ->
  exists W', __call__ cfg a W = (Raise ValueError, W') /\ w_trace W' = w_trace W.
Proof.
  intros Hm Hb Hg Hlen.
  destruct (prepare_call_generator_mismatch cfg a W Hm Hb Hg Hlen) as (W' & Hp).
  exists W'; now apply call_fails_in_preparation.
Qed.

(** X10.  A mode string other than the seven supported ones never yields a
    result and never reaches the network, but it is detected late: first
    validation and latent preparation run (their errors take precedence
    and random numbers are drawn), then [ValueError] is raised. *)
Theorem unsupported_mode_is_rejected_after_preparation `{Collaborators}
        (cfg : PipelineConfig) (a : CallArgs) (W : World) :
  a_mode a = m_unsupported ->
  (exists e W', __call__ cfg a W = (Raise e, W') /\ w_trace W' = w_trace W)
  /\ (forall r W1, prepare_call cfg a W = (OK r, W1) ->
                   __call__ cfg a W = (Raise ValueError, W1))
  /\ (forall e W1, prepare_call cfg a W = (Raise e, W1) ->
                   __call__ cfg a W = (Raise e, W1)).
Proof.
  intros Hm.
  assert (Hok : forall r W1, prepare_call cfg a W = (OK r, W1) ->
                             __call__ cfg a W = (Raise ValueError, W1)).
  { intros [[[[pe vae] clip] h] w] W1 Hp.
    unfold __call__; cbv zeta; rewrite (bind_OK Hp), Hm; reflexivity. }
  split; [|split; [exact Hok | intros e W1 Hp; now apply call_fails_in_preparation]].
  pose proof (proj1 (only_draws_prepare_call cfg a W)) as Ht.
  destruct (prepare_call cfg a W) as [[r|e] W1] eqn:Hp; cbn [snd] in Ht.
  - exists ValueError, W1; split; [exact (Hok r W1 eq_refl) | exact Ht].
  - exists e, W1; split; [now apply call_fails_in_preparation | exact Ht].
Qed.

(** X11.  Mode "joint" packs the three latents into one tensor, so they must
    share one batch: with [num_images_per_prompt] other than 1 (and a
    non-empty batch) a validated "joint" call fails when the loop packs its
    latents, before any network call. *)
Theorem joint_mode_needs_one_image_per_prompt `{Collaborators}
        (cfg : PipelineConfig) (a : CallArgs) (W : World) :
  randn_respects_shapes ->
  a_mode a = m_joint ->
  check_inputs (a_prompt a) (call_height cfg a) (call_width cfg a)
               (a_callback_steps a) None None None = OK tt ->
  generator_mismatch (a_generator a) (a_num_samples a) = false ->
  generator_mismatch (a_generator a) (a_num_samples a * a_num_images_per_prompt a)
  = false ->
  a_prompt_latents a = None ->
  a_vae_latents a = None ->
  a_clip_latents a = None ->
  0 < a_num_samples a ->
  a_num_images_per_prompt a <> 1 ->
  exists W', __call__ cfg a W = (Raise PaddleError, W') /\ w_trace W' = w_trace W.
Proof.
  intros randn_ok Hm Hc Hg1 Hg2 Hpl Hvl Hcl Hn Hk.
  assert (Hb : call_batch_size a = OK (a_num_samples a))
    by (unfold call_batch_size; now rewrite Hm).
  assert (Hi : a_mode a <> m_i2t) by (rewrite Hm; discriminate).
  destruct (@prepare_call_run _ _ cfg randn_ok a (a_num_samples a) W Hi Hc Hb
                              (or_intror Hg1) Hg2 Hpl Hvl Hcl)
    as (pe & vae & clip & W1 & Rp & Sv & Sc & Spe & _ & T1 & _).
  assert (Spe' : has_shape (text_shape cfg (a_num_samples a)) pe)
    by (apply Spe; rewrite Hm; discriminate).
  exists W1; split; [|exact T1].
  unfold __call__; cbv zeta; rewrite (bind_OK Rp), Hm.
  apply bind_Raise.
  unfold sample_stage, _denoising_sample_fn.
  apply bind_Raise.
  unfold lift, pack_latents, _combine_joint, rearrange_BCHW_to_flat, rearrange_BLD_to_flat.
  rewrite (proj1 Sv), (proj1 Sc), (proj1 Spe').
  unfold vae_shape, clip_shape, text_shape; cbn [res_bind shape].
  unfold tensor_concat; cbn [shape widths width2].
  rewrite !Nat.eqb_refl.
  replace (Nat.eqb (a_num_samples a) (a_num_samples a * a_num_images_per_prompt a))
    with false; [reflexivity|].
  symmetry; apply Nat.eqb_neq; nia.
Qed.

(* ------------------------------------------------------------------ *)
(** ** The denoising loop, step by step *)

Section Threading.
Context `{Collaborators}.
Variable cfg : PipelineConfig.
Hypothesis unet_ok : unet_respects_shapes.
Hypothesis step_ok : step_respects_shapes.

Lemma count_progress_app (a b : list Event) :
  count_progress (a ++ b) = count_progress a + count_progress b.
Proof. unfold count_progress; now rewrite filter_app, length_app. Qed.

Lemma step_samples_app (a b : list Event) :
  step_samples (a ++ b) = step_samples a ++ step_samples b.
Proof. induction a as [|[] a IH]; simpl; congruence. Qed.

Lemma step_timesteps_app (a b : list Event) :
  step_timesteps (a ++ b) = step_timesteps a ++ step_timesteps b.
Proof. induction a as [|[] a IH]; simpl; congruence. Qed.

Lemma unet_events_silent (calls : list UnetCall) :
  count_progress (map EvUnet calls) = 0
  /\ step_samples (map EvUnet calls) = []
  /\ step_timesteps (map EvUnet calls) = [].
Proof.
  unfold count_progress.
  induction calls as [|c calls (IH1 & IH2 & IH3)]; simpl; auto.
Qed.

Lemma reports_progress (len : nat) (warm : Z) (cb : option Callback) (k : Z)
      (i : nat) (t : Tensor Z) (l : Tensor F) :
  count_progress (iteration_reports len warm cb k i t l)
  = (if progress_at len warm i then 1 else 0)
  /\ step_samples (iteration_reports len warm cb k i t l) = []
  /\ step_timesteps (iteration_reports len warm cb k i t l) = [].
Proof.
  unfold iteration_reports, count_progress.
  destruct (progress_at len warm i); [|auto].
  destruct (fires len warm cb k i); cbn; auto.
Qed.

Lemma last_cons {X : Type} (a d : X) (l : list X) : last (a :: l) d = last l a.
Proof.
  revert a d; induction l as [|b l IH]; intros a d; [reflexivity|].
  change (last (a :: b :: l) d) with (last (b :: l) d).
  now rewrite (IH b d), (IH b a).
Qed.

Lemma denoising_loop_thread (mode : Mode) (B height width len : nat) (warm : Z)
      (prompt_embeds image_vae_latents image_clip_latents : Tensor F)
      (N : Z) (g : F) (kw : StepKwargs) (cb : option Callback) (k : Z) :
  In mode stage_modes ->
  cb = None \/ k <> 0%Z ->
  scheduler_order <> 0%Z \/ (Z.of_nat len <= warm)%Z ->
  forall (ts : list Z) (start : nat) (cur : Tensor F) (W : World),
    start + length ts <= len ->
    latent_ok cfg mode B height width cur ->
    exists final W' tr,
      denoising_loop cfg mode (combine (seq start (length ts)) ts) len warm (Some cur)
                     prompt_embeds image_vae_latents image_clip_latents
                     N g height width kw cb k W
      = (OK (Some final), W')
      /\ latent_ok cfg mode B height width final
      /\ w_trace W' = w_trace W ++ tr
      /\ step_timesteps tr = map (fun tz => mkTensor [1] [tz]) ts
      /\ step_samples tr = removelast (cur :: step_results tr)
      /\ final = last (step_results tr) cur
      /\ count_progress tr
         = length (filter (progress_at len warm) (seq start (length ts))).
Proof.
  intros Hm Hk Ho ts.
  induction ts as [|tz ts IH]; intros start cur W Hlen Hl.
  - exists cur, W, []; cbn; rewrite app_nil_r; repeat split; auto.
  - cbn [length] in Hlen.
    set (t := mkTensor [1] [tz]).
    destruct (@get_noise_pred_total _ _ cfg unet_ok mode B height width 1 cur t
                                    prompt_embeds image_vae_latents image_clip_latents
                                    N g 1%Z W Hm Hl eq_refl)
      as (np & rs & calls & Hrun & Snp & Hcalls).
    pose proof (@step_ok np t cur kw (w_scheduler W) Snp
                         (@latent_ok_wf _ cfg mode B height width cur Hl)) as Snext.
    set (W1 := mkWorld rs (w_scheduler W) (w_trace W ++ map EvUnet calls)) in *.
    pose proof (step_run np t cur kw W1) as Hstep.
    cbn [W1 w_random w_scheduler w_trace] in Hstep.
    set (next := fst (scheduler_step np t cur kw (w_scheduler W))) in *.
    set (W2 := mkWorld rs (snd (scheduler_step np t cur kw (w_scheduler W)))
                       ((w_trace W ++ map EvUnet calls) ++ [EvStep np t cur next])) in *.
    assert (Hi : start < len) by lia.
    pose proof (@after_step_run _ _ start len warm t next cb k W2 Hi Hk Ho) as Hafter.
    cbn [W2 w_random w_scheduler w_trace] in Hafter.
    set (W3 := mkWorld rs (snd (scheduler_step np t cur kw (w_scheduler W)))
                       (((w_trace W ++ map EvUnet calls) ++ [EvStep np t cur next])
                          ++ iteration_reports len warm cb k start t next)) in *.
    destruct (IH (S start) next W3)
      as (final & W' & tr & Hloop & Hf & Htr & Hts & Hss & Hfin & Hcp);
      [lia | exact (@latent_ok_next _ cfg mode B height width cur next Hl Snext) |].
    exists final, W',
      (map EvUnet calls ++ [EvStep np t cur next]
         ++ iteration_reports len warm cb k start t next ++ tr).
    destruct (unet_events calls) as (_ & _ & U3 & _).
    destruct (unet_events_silent calls) as (V1 & V2 & V3).
    destruct (reports_events len warm cb k start t next) as (_ & _ & R3 & _).
    destruct (reports_progress len warm cb k start t next) as (P1 & P2 & P3).
    split; [|split; [exact Hf | split; [|split; [|split; [|split]]]]].
    + cbn [length seq combine denoising_loop]; fold t.
      rewrite ret_bind, (bind_OK Hrun), ret_bind, (bind_OK Hstep), (bind_OK Hafter).
      exact Hloop.
    + rewrite Htr; cbn [W3 w_trace]; now rewrite <- !app_assoc.
    + rewrite !step_timesteps_app, V3, P3, Hts; reflexivity.
    + rewrite !step_samples_app, !step_results_app, V2, P2, U3, R3, Hss; reflexivity.
    + rewrite !step_results_app, U3, R3; cbn [app step_results].
      rewrite last_cons; exact Hfin.
    + rewrite !count_progress_app, V1, P1, Hcp.
      cbn [length seq filter].
      destruct (progress_at len warm start); cbn [length]; unfold count_progress; cbn; lia.
Qed.

End Threading.

(** X12.  The loop threads one latent through the scheduler: the stage packs its
    initial sub-latents, every [scheduler.step] call receives the sample
    returned by the previous call (the packed initial latent for the first
    one) and the schedule's timesteps in order, one each, and what the
    stage returns is the unpacking of the sample returned by the last step
    (of the packed initial latent when the schedule is empty). *)
Theorem steps_thread_the_latent `{Collaborators}
        (cfg : PipelineConfig) (mode : Mode) (B height width : nat)
        (image_vae_latents image_clip_latents prompt_embeds : Tensor F)
        (S : nat) (kw : StepKwargs) (g : F) (generator : Generator)
        (cb : option Callback) (k : Z) (W : World) :
  unet_respects_shapes ->
  step_respects_shapes ->
  In mode stage_modes ->
  stage_inputs_ok cfg mode B height width image_vae_latents image_clip_latents
                  prompt_embeds ->
  cb = None \/ k <> 0%Z ->
  exists init outs W' tr,
    pack_latents mode image_vae_latents image_clip_latents prompt_embeds
    = OK (Some init)
    /\ _denoising_sample_fn cfg mode image_vae_latents image_clip_latents prompt_embeds
                            S kw g generator height width cb k W
       = (OK outs, W')
    /\ w_trace W' = w_trace W ++ tr
    /\ step_timesteps tr
       = map (fun tz => mkTensor [1] [tz])
             (scheduler_timesteps (scheduler_set_timesteps S (w_scheduler W)))
    /\ step_samples tr = removelast (init :: step_results tr)
    /\ unpack_latents cfg mode (Some (last (step_results tr) init)) height width W'
       = (OK outs, W').
Proof.
  intros unet_ok step_ok Hm Hin Hk.
  set (ts := scheduler_timesteps (scheduler_set_timesteps S (w_scheduler W))).
  set (warm := (Z.of_nat (length ts) - Z.of_nat S * scheduler_order)%Z).
  destruct (@pack_latents_run _ cfg mode B height width image_vae_latents
                              image_clip_latents prompt_embeds Hin)
    as (init & Hpack & Hinit).
  assert (Ho : scheduler_order <> 0%Z \/ (Z.of_nat (length ts) <= warm)%Z).
  { destruct (Z.eq_dec scheduler_order 0) as [E|E]; [right | now left].
    unfold warm; rewrite E; lia. }
  set (W0 := mkWorld (w_random W) (scheduler_set_timesteps S (w_scheduler W))
                     (w_trace W)).
  destruct (@denoising_loop_thread _ _ cfg unet_ok step_ok mode B height width
              (length ts) warm prompt_embeds image_vae_latents image_clip_latents
              N_betas g kw cb k Hm Hk Ho ts 0 init W0 (le_n _) Hinit)
    as (final & W' & tr & Hloop & Hf & Htr & Hts & Hss & Hfin & _).
  destruct (@unpack_latents_run _ _ cfg mode B height width final W' Hf)
    as (outs & Hunpack & _).
  exists init, outs, W', tr.
  split; [exact Hpack | split; [|split; [exact Htr | split; [exact Hts | split;
    [exact Hss | now rewrite <- Hfin]]]]].
  unfold _denoising_sample_fn.
  rewrite Hpack, lift_bind.
  unfold set_timesteps, timesteps.
  unfold bind at 1; unfold bind at 1; cbn [w_random w_scheduler w_trace].
  fold ts; fold W0; fold warm; unfold enumerate.
  now rewrite (bind_OK Hloop).
Qed.

(** X13.  The progress bar, created with [total = num_inference_steps], is
    updated once for every iteration that is the last one or that ends a
    group of [scheduler.order] steps after the warm-up; with a first-order
    scheduler that installs [S] timesteps for [S] requested steps this is
    exactly [S] updates, so the bar ends full. *)
Theorem progress_bar_is_updated_once_per_scheduler_group `{Collaborators}
        (cfg : PipelineConfig) (mode : Mode) (B height width : nat)
        (image_vae_latents image_clip_latents prompt_embeds : Tensor F)
        (S : nat) (kw : StepKwargs) (g : F) (generator : Generator)
        (cb : option Callback) (k : Z) (W : World) :
  unet_respects_shapes ->
  step_respects_shapes ->
  In mode stage_modes ->
  stage_inputs_ok cfg mode B height width image_vae_latents image_clip_latents
                  prompt_embeds ->
  cb = None \/ k <> 0%Z ->
  let ts := scheduler_timesteps (scheduler_set_timesteps S (w_scheduler W)) in
  exists outs W' tr,
    _denoising_sample_fn cfg mode image_vae_latents image_clip_latents prompt_embeds
                         S kw g generator height width cb k W
    = (OK outs, W')
    /\ w_trace W' = w_trace W ++ tr
    /\ count_progress tr
       = length (filter (progress_at (length ts)
                                     (Z.of_nat (length ts) - Z.of_nat S * scheduler_order))
                        (seq 0 (length ts)))
    /\ (scheduler_order = 1%Z -> length ts = S -> count_progress tr = S).
Proof.
  intros unet_ok step_ok Hm Hin Hk ts.
  set (warm := (Z.of_nat (length ts) - Z.of_nat S * scheduler_order)%Z).
  destruct (@pack_latents_run _ cfg mode B height width image_vae_latents
                              image_clip_latents prompt_embeds Hin)
    as (init & Hpack & Hinit).
  assert (Ho : scheduler_order <> 0%Z \/ (Z.of_nat (length ts) <= warm)%Z).
  { destruct (Z.eq_dec scheduler_order 0) as [E|E]; [right | now left].
    unfold warm; rewrite E; lia. }
  set (W0 := mkWorld (w_random W) (scheduler_set_timesteps S (w_scheduler W))
                     (w_trace W)).
  destruct (@denoising_loop_thread _ _ cfg unet_ok step_ok mode B height width
              (length ts) warm prompt_embeds image_vae_latents image_clip_latents
              N_betas g kw cb k Hm Hk Ho ts 0 init W0 (le_n _) Hinit)
    as (final & W' & tr & Hloop & Hf & Htr & _ & _ & _ & Hcp).
  destruct (@unpack_latents_run _ _ cfg mode B height width final W' Hf)
    as (outs & Hunpack & _).
  exists outs, W', tr.
  split; [|split; [exact Htr | split; [exact Hcp|]]].
  - unfold _denoising_sample_fn.
    rewrite Hpack, lift_bind.
    unfold set_timesteps, timesteps.
    unfold bind at 1; unfold bind at 1; cbn [w_random w_scheduler w_trace].
    fold ts; fold W0; fold warm; unfold enumerate.
    now rewrite (bind_OK Hloop).
  - intros Hord Hlen; rewrite Hcp.
    replace (filter (progress_at (length ts) warm) (seq 0 (length ts)))
      with (seq 0 (length ts)); [now rewrite length_seq|].
    symmetry; apply forallb_filter_id, forallb_forall.
    intros i Hi; apply in_seq in Hi.
    unfold progress_at, warm; rewrite Hord, Hlen, Z.mod_1_r.
    replace (Z.ltb (Z.of_nat S - Z.of_nat S * 1) (Z.of_nat i + 1)) with true
      by (symmetry; apply Z.ltb_lt; lia).
    cbn [andb]; apply orb_true_r.
Qed.

(** X14.  Edge case: when the scheduler installs an empty schedule (as for zero
    inference steps) a stage makes no network call and no scheduler step
    and returns exactly the sub-latents it was given, by the codec's round
    trip. *)
Theorem empty_schedule_returns_the_inputs `{Collaborators}
        (cfg : PipelineConfig) (mode : Mode) (B height width : nat)
        (image_vae_latents image_clip_latents prompt_embeds : Tensor F)
        (S : nat) (kw : StepKwargs) (g : F) (generator : Generator)
        (cb : option Callback) (k : Z) (W : World) :
  In mode stage_modes ->
  stage_inputs_ok cfg mode B height width image_vae_latents image_clip_latents
                  prompt_embeds ->
  scheduler_timesteps (scheduler_set_timesteps S (w_scheduler W)) = [] ->
  _denoising_sample_fn cfg mode image_vae_latents image_clip_latents prompt_embeds
                       S kw g generator height width cb k W
  = (OK match mode with
        | m_joint => OutJoint image_vae_latents image_clip_latents prompt_embeds
        | m_t2i | m_i => OutImage image_vae_latents image_clip_latents
        | _ => OutText prompt_embeds
        end,
     mkWorld (w_random W) (scheduler_set_timesteps S (w_scheduler W)) (w_trace W)).
Proof.
  intros Hm Hin Hts.
  unfold _denoising_sample_fn, set_timesteps, timesteps.
  destruct Hm as [<-|[<-|[<-|[<-|[<-|[]]]]]]; cbn [stage_inputs_ok pack_latents] in *.
  - destruct Hin as (Ha & Hb & Hx).
    destruct (split_combine_joint cfg height width Ha Hb Hx) as (l & Hc & _ & Hsp).
    rewrite Hc; cbn [res_bind]; rewrite lift_bind.
    unfold bind at 1; unfold bind at 1; cbn [w_random w_scheduler w_trace].
    rewrite Hts; cbn [enumerate length seq combine denoising_loop].
    rewrite ret_bind; cbn [unpack_latents]; now rewrite Hsp.
  - destruct Hin as (Ha & Hb).
    destruct (split_combine cfg height width Ha Hb) as (l & Hc & _ & Hsp).
    rewrite Hc; cbn [res_bind]; rewrite lift_bind.
    unfold bind at 1; unfold bind at 1; cbn [w_random w_scheduler w_trace].
    rewrite Hts; cbn [enumerate length seq combine denoising_loop].
    rewrite ret_bind; cbn [unpack_latents]; now rewrite Hsp.
  - rewrite lift_bind.
    unfold bind at 1; unfold bind at 1; cbn [w_random w_scheduler w_trace].
    rewrite Hts; reflexivity.
  - rewrite lift_bind.
    unfold bind at 1; unfold bind at 1; cbn [w_random w_scheduler w_trace].
    rewrite Hts; reflexivity.
  - destruct Hin as (Ha & Hb).
    destruct (split_combine cfg height width Ha Hb) as (l & Hc & _ & Hsp).
    rewrite Hc; cbn [res_bind]; rewrite lift_bind.
    unfold bind at 1; unfold bind at 1; cbn [w_random w_scheduler w_trace].
    rewrite Hts; cbn [enumerate length seq combine denoising_loop].
    rewrite ret_bind; cbn [unpack_latents]; now rewrite Hsp.
Qed.

(* ------------------------------------------------------------------ *)
(** ** The latent codec outside its domain *)

Section CodecErrors.
Context {A : Type}.
Variable cfg : PipelineConfig.

Lemma split_accepts (x : Tensor A) (height width : nat) :
  (is_ok (_split cfg x height width) = true
   <-> exists B, shape x = pair_shape cfg B height width)
  /\ (forall B n e, shape x = [B; n] ->
                    _split cfg x height width = Raise e -> e = PaddleError).
Proof.
  unfold _split, tensor_split, pair_shape, img_vae_dim; cbv zeta.
  set (d := num_channels_latents cfg * (height / vae_scale_factor cfg)
            * (width / vae_scale_factor cfg)).
  destruct (shape x) as [|B [|n [|m s]]];
    try (split; [split; [discriminate | intros (B0 & E); discriminate]
                | intros B0 n0 e E; discriminate]).
  rewrite list_sum2.
  destruct (Nat.eqb n (d + image_encoder_clip_img_dim)) eqn:Hn.
  - apply Nat.eqb_eq in Hn; subst n.
    cbn [res_bind hsplit mk_sections rearrange_flat_to_BCHW rearrange_flat_to_BLD shape].
    fold d; rewrite !Nat.eqb_refl; cbn [res_bind].
    cbn [res_bind is_ok].
    split; [split; [intros _; now exists B | reflexivity] | discriminate].
  - cbn [res_bind is_ok].
    split; [split; [discriminate|] | intros B0 n0 e _ E; now injection E as <-].
    intros (B0 & E); injection E as _ E.
    apply Nat.eqb_neq in Hn; contradiction.
Qed.

Lemma split_joint_accepts (x : Tensor A) (height width : nat) :
  (is_ok (_split_joint cfg x height width) = true
   <-> exists B, shape x = joint_shape cfg B height width)
  /\ (forall B n e, shape x = [B; n] ->
                    _split_joint cfg x height width = Raise e -> e = PaddleError).
Proof.
  unfold _split_joint, tensor_split, joint_shape, img_vae_dim; cbv zeta.
  set (d := num_channels_latents cfg * (height / vae_scale_factor cfg)
            * (width / vae_scale_factor cfg)).
  set (td := text_encoder_seq_len cfg * text_encoder_text_dim).
  destruct (shape x) as [|B [|n [|m s]]];
    try (split; [split; [discriminate | intros (B0 & E); discriminate]
                | intros B0 n0 e E; discriminate]).
  rewrite list_sum3.
  destruct (Nat.eqb n (d + image_encoder_clip_img_dim + td)) eqn:Hn.
  - apply Nat.eqb_eq in Hn; subst n.
    cbn [res_bind hsplit mk_sections rearrange_flat_to_BCHW rearrange_flat_to_BLD shape].
    fold d; fold td; rewrite !Nat.eqb_refl; cbn [res_bind].
    cbn [res_bind is_ok].
    split; [split; [intros _; now exists B | reflexivity] | discriminate].
  - cbn [res_bind is_ok].
    split; [split; [discriminate|] | intros B0 n0 e _ E; now injection E as <-].
    intros (B0 & E); injection E as _ E.
    apply Nat.eqb_neq in Hn; contradiction.
Qed.

Lemma combine_accepts (img_vae img_clip : Tensor A) :
  (forall x, _combine img_vae img_clip = OK x ->
             exists B C H W L D,
               shape img_vae = [B; C; H; W] /\ shape img_clip = [B; L; D]
               /\ shape x = [B; C * H * W + L * D])
  /\ (forall B C H W L D,
         shape img_vae = [B; C; H; W] -> shape img_clip = [B; L; D] ->
         is_ok (_combine img_vae img_clip) = true).
Proof.
  unfold _combine, rearrange_BCHW_to_flat, rearrange_BLD_to_flat, tensor_concat.
  split.
  - intros x.
    destruct (shape img_vae) as [|B [|C [|Hh [|Ww [|? ?]]]]]; try discriminate.
    destruct (shape img_clip) as [|B' [|L [|D [|? ?]]]]; try discriminate.
    cbn [res_bind shape widths width2]; rewrite Nat.eqb_refl.
    destruct (Nat.eqb B' B) eqn:HB; [|discriminate].
    apply Nat.eqb_eq in HB; subst B'.
    intros E; injection E as <-.
    exists B, C, Hh, Ww, L, D; repeat split; cbn [shape list_sum].
    f_equal; f_equal; lia.
  - intros B C Hh Ww L D -> ->.
    cbn [res_bind shape widths width2]; now rewrite !Nat.eqb_refl.
Qed.

End CodecErrors.

(** X15.  [_split] and [_split_joint] return normally exactly on 2-D tensors
    whose second dimension is the packed width of the given height and
    width ([C h w + 512], plus [seq_len * 64] for the joint layout, with
    [h = height // scale] and [w = width // scale]; the height and width
    enter through these quotients only).  A 2-D tensor of another width is
    rejected by the tensor split itself, before any reshape. *)
Theorem split_accepts_exactly_the_packed_width (A : Type) (cfg : PipelineConfig)
        (x : Tensor A) (height width : nat) :
  (is_ok (_split cfg x height width) = true
   <-> exists B, shape x = pair_shape cfg B height width)
  /\ (forall B n e, shape x = [B; n] ->
                    _split cfg x height width = Raise e -> e = PaddleError)
  /\ (is_ok (_split_joint cfg x height width) = true
      <-> exists B, shape x = joint_shape cfg B height width)
  /\ (forall B n e, shape x = [B; n] ->
                    _split_joint cfg x height width = Raise e -> e = PaddleError).
Proof.
  destruct (split_accepts cfg x height width) as [H1 H2].
  destruct (split_joint_accepts cfg x height width) as [H3 H4].
  auto.
Qed.

(** X16.  [_combine] checks ranks and the batch dimension only: it returns
    normally exactly on a 4-D and a 3-D tensor of equal first dimension,
    with a result of shape (B, C H W + L D).  The CLIP embedding is not
    required to be (B, 1, 512). *)
Theorem combine_checks_ranks_and_batch_only (A : Type)
        (img_vae img_clip : Tensor A) :
  (forall x, _combine img_vae img_clip = OK x ->
             exists B C H W L D,
               shape img_vae = [B; C; H; W] /\ shape img_clip = [B; L; D]
               /\ shape x = [B; C * H * W + L * D])
  /\ (forall B C H W L D,
         shape img_vae = [B; C; H; W] -> shape img_clip = [B; L; D] ->
         is_ok (_combine img_vae img_clip) = true).
Proof. apply combine_accepts. Qed.

(* ------------------------------------------------------------------ *)
(** ** The sibling pipelines against the main pipeline *)

Section MonadLaws.
Context `{Collaborators}.

Lemma bind_assoc {A B C : Type} (m : M A) (k : A -> M B) (k' : B -> M C) (W : World) :
  bind (bind m k) k' W = bind m (fun a => bind (k a) k') W.
Proof. unfold bind; destruct (m W) as [[a|e] W1]; reflexivity. Qed.

Lemma bind_ext {A B : Type} (m : M A) (k k' : A -> M B) (W : World) :
  (forall a W1, k a W1 = k' a W1) -> bind m k W = bind m k' W.
Proof. intros E; unfold bind; destruct (m W) as [[a|e] W1]; [apply E | reflexivity]. Qed.

Lemma bind_ret_r {A : Type} (m : M A) (W : World) : bind m (fun a => ret a) W = m W.
Proof. unfold bind, ret; destruct (m W) as [[a|e] W1]; reflexivity. Qed.

End MonadLaws.

Section SiblingCodec.
Context {A : Type}.
Variable cfg : PipelineConfig.
Variables height width : nat.
Hypothesis channels : num_channels_latents cfg = 4.
Hypothesis latent_height : height / vae_scale_factor cfg = 64.
Hypothesis latent_width : width / vae_scale_factor cfg = 64.

Lemma sibling_split (x : Tensor A) :
  TextVariation.split x (4, 64, 64) 512 = _split cfg x height width.
Proof.
  unfold TextVariation.split, _split; cbv zeta.
  now rewrite channels, latent_height, latent_width.
Qed.

Lemma sibling_split_joint (x : Tensor A) :
  text_encoder_seq_len cfg = 77 ->
  TextVariation.split_joint x = _split_joint cfg x height width.
Proof.
  intros seq_len.
  unfold TextVariation.split_joint, _split_joint; cbv zeta.
  now rewrite channels, latent_height, latent_width, seq_len.
Qed.

End SiblingCodec.

(** X17.  The module-level codec of pipeline_unidiffuser_t2i2t.py, with its
    hard-coded latent grid (4, 64, 64), 512 CLIP features and 77 x 64 text
    features, is the main pipeline's codec at every configuration and
    image size that give this grid (4 latent channels, height // scale =
    width // scale = 64, 77 tokens), such as the released one at
    512 x 512. *)
Theorem sibling_codec_is_the_pipeline_codec (A : Type) (cfg : PipelineConfig)
        (height width : nat) (x z clip_img text : Tensor A) :
  num_channels_latents cfg = 4 ->
  height / vae_scale_factor cfg = 64 ->
  width / vae_scale_factor cfg = 64 ->
  text_encoder_seq_len cfg = 77 ->
  TextVariation.split x (4, 64, 64) 512 = _split cfg x height width
  /\ TextVariation.combine z clip_img = _combine z clip_img
  /\ TextVariation.split_joint x = _split_joint cfg x height width
  /\ TextVariation.combine_joint z clip_img text = _combine_joint z clip_img text.
Proof.
  intros Hc Hh Hw Hs.
  split; [now apply sibling_split | split; [reflexivity | split; [|reflexivity]]].
  now apply sibling_split_joint.
Qed.

(** X18.  The two noise predictors of pipeline_unidiffuser_t2i2t.py are
    [get_noise_pred] in modes "t2i" and "i2t" with the guidance scale fixed
    to their local constant [sample_scale] and the 64 x 64 latent grid: same
    network calls, same draws, same result. *)
Theorem sibling_noise_predictors_are_get_noise_pred `{Collaborators}
        (cfg : PipelineConfig) (sample_scale : F) (height width : nat)
        (x : Tensor F) (timesteps : Tensor Z) (text z clip_img : Tensor F)
        (prompt_embeds img_vae img_clip : Tensor F) (W : World) :
  num_channels_latents cfg = 4 ->
  height / vae_scale_factor cfg = 64 ->
  width / vae_scale_factor cfg = 64 ->
  bind (TextVariation.t2i_nnet sample_scale x timesteps text)
       (fun r => ret (Some r)) W
  = get_noise_pred cfg m_t2i x timesteps text img_vae img_clip N_betas sample_scale
                   height width 1 W
  /\ bind (TextVariation.i2t_nnet sample_scale x timesteps z clip_img)
          (fun r => ret (Some r)) W
     = get_noise_pred cfg m_i2t x timesteps prompt_embeds z clip_img N_betas
                      sample_scale height width 1 W.
Proof.
  intros Hc Hh Hw; split.
  - unfold TextVariation.t2i_nnet, get_noise_pred; cbv zeta.
    rewrite <- (sibling_split cfg height width Hc Hh Hw x).
    rewrite bind_assoc; apply bind_ext; intros [zz cc] W1.
    rewrite bind_assoc; apply bind_ext; intros n W2.
    rewrite bind_assoc; apply bind_ext; intros [[zo co] to] W3.
    rewrite bind_assoc; apply bind_ext; intros xo W4.
    destruct (feqb sample_scale fzero); [reflexivity|].
    rewrite bind_assoc; apply bind_ext; intros tN W5.
    rewrite bind_assoc; apply bind_ext; intros [[zu cu] tu] W6.
    rewrite bind_assoc; apply bind_ext; intros xu W7.
    reflexivity.
  - unfold TextVariation.i2t_nnet, get_noise_pred; cbv zeta.
    rewrite bind_assoc; apply bind_ext; intros n W2.
    rewrite bind_assoc; apply bind_ext; intros [[zo co] to] W3.
    destruct (feqb sample_scale fzero); [reflexivity|].
    rewrite bind_assoc; apply bind_ext; intros zN W4.
    rewrite bind_assoc; apply bind_ext; intros cN W5.
    rewrite bind_assoc; apply bind_ext; intros [[zu cu] tu] W6.
    reflexivity.
Qed.

(** X19.  [t_nnet] of pipeline_unidiffuser_t.py is [get_noise_pred] in mode "t"
    with image latents drawn afresh at every call, of shapes
    (B, 4, 64, 64) and (B, 1, 512) for the batch B of its input: one
    network call with the image timestep at the sentinel N.  (The main
    pipeline draws the image latents of mode "t" once per call of
    [__call__].)  A 0-dimensional input is an [IndexError]. *)
Theorem t_nnet_is_mode_t_with_fresh_image_noise `{Collaborators}
        (cfg : PipelineConfig) (x : Tensor F) (timesteps : Tensor Z)
        (prompt_embeds : Tensor F) (g : F) (height width : nat) (W : World) :
  (forall b, shape0 x = OK b ->
     bind (TextGeneration.t_nnet x timesteps) (fun r => ret (Some r)) W
     = bind (paddle_randn [b; 4; 64; 64])
            (fun z =>
               bind (paddle_randn [b; 1; 512])
                    (fun clip_img =>
                       get_noise_pred cfg m_t x timesteps prompt_embeds z clip_img
                                      N_betas g height width 1)) W)
  /\ (shape x = [] -> TextGeneration.t_nnet x timesteps W = (Raise IndexError, W)).
Proof.
  split.
  - intros b Hb.
    unfold TextGeneration.t_nnet, get_noise_pred; cbv zeta.
    rewrite Hb, bind_assoc, lift_bind.
    rewrite bind_assoc; apply bind_ext; intros zz W1.
    rewrite bind_assoc, lift_bind.
    rewrite bind_assoc; apply bind_ext; intros cc W2.
    rewrite bind_assoc; apply bind_ext; intros [[zo co] to] W3.
    reflexivity.
  - intros Hs; unfold TextGeneration.t_nnet, shape0; now rewrite Hs.
Qed.

(* ------------------------------------------------------------------ *)
(** ** The image encoders of mode "i2t" *)

Section EncodingFacts.
Context `{Collaborators}.
Variable vae_encode_sample : Tensor F -> RandomState -> Res (Tensor F) * RandomState.
Variable vae_scaling_factor : F.
Variable image_embeds : Tensor F + PILImage -> Res (Tensor F).

Lemma concat0_single {X : Type} (x : Tensor X) (b : nat) (rest : list nat) :
  shape x = b :: rest -> ImageEncoding.concat0 [x] = OK x.
Proof.
  intros Hs; unfold ImageEncoding.concat0; rewrite Hs.
  cbn [ImageEncoding.batches]; rewrite Hs, shape_eqb_refl.
  cbn [list_sum fold_right map concat]; rewrite Nat.add_0_r, app_nil_r.
  destruct x as [s d]; cbn in *; now subst.
Qed.

Lemma batches_repeat {X : Type} (x : Tensor X) (n m : nat) (rest : list nat) :
  shape x = n :: rest ->
  ImageEncoding.batches rest (repeat x m) = Some (repeat n m).
Proof.
  intros Hs; induction m as [|m IH]; [reflexivity|].
  cbn [repeat ImageEncoding.batches]; now rewrite Hs, IH, shape_eqb_refl.
Qed.

Lemma list_sum_repeat (n m : nat) : list_sum (repeat n m) = m * n.
Proof. induction m as [|m IH]; [reflexivity|]; cbn [repeat list_sum fold_right] in *; unfold list_sum in IH; rewrite IH; lia. Qed.

Lemma concat0_repeat {X : Type} (x : Tensor X) (n m : nat) (rest : list nat) :
  shape x = n :: rest ->
  0 < m ->
  ImageEncoding.concat0 (repeat x m)
  = OK (mkTensor (m * n :: rest) (concat (repeat (data x) m))).
Proof.
  intros Hs Hm; unfold ImageEncoding.concat0.
  destruct m as [|m]; [lia|].
  cbn [repeat]; rewrite Hs.
  change (x :: repeat x m) with (repeat x (S m)).
  rewrite (@batches_repeat X x n (S m) rest Hs), list_sum_repeat, map_repeat; reflexivity.
Qed.

(** The block that follows the encoder in both functions. *)
Lemma expand_for_batch (image_latents : Tensor F) (batch_size n : nat)
      (rest : list nat) (W : World) :
  shape image_latents = n :: rest ->
  0 < n ->
  (if Nat.ltb n batch_size then
     if Nat.eqb n 0 then raise ZeroDivisionError
     else if Nat.eqb (batch_size mod n) 0 then
            lift (ImageEncoding.concat0 (repeat image_latents (batch_size / n)))
          else raise ValueError
   else lift (ImageEncoding.concat0 [image_latents])) W
  = if Nat.ltb n batch_size then
      if Nat.eqb (batch_size mod n) 0
      then (OK (mkTensor (batch_size :: rest)
                         (concat (repeat (data image_latents) (batch_size / n)))), W)
      else (Raise ValueError, W)
    else (OK image_latents, W).
Proof.
  intros Hs Hn.
  destruct (Nat.ltb n batch_size) eqn:Hlt.
  - apply Nat.ltb_lt in Hlt.
    replace (Nat.eqb n 0) with false by (symmetry; apply Nat.eqb_neq; lia).
    destruct (Nat.eqb (batch_size mod n) 0) eqn:Hmod; [|reflexivity].
    apply Nat.eqb_eq in Hmod.
    assert (Hdiv : batch_size = n * (batch_size / n))
      by (apply Nat.Div0.div_exact; exact Hmod).
    assert (Hpos : 0 < batch_size / n) by nia.
    unfold lift; rewrite (@concat0_repeat _ image_latents n (batch_size / n) rest Hs Hpos).
    replace (batch_size / n * n) with batch_size by lia; reflexivity.
  - unfold lift; now rewrite (@concat0_single _ image_latents n rest Hs).
Qed.

Lemma not_list_no_mismatch (g : Generator) (b : nat) :
  (forall gs, g <> GenList gs) -> generator_mismatch g b = false.
Proof. intros Hg; destruct g; try reflexivity; now destruct (Hg gs). Qed.

Lemma encode_image_vae_latents_run (image : Tensor F) (b k : nat) (g : Generator)
      (W : World) (l : Tensor F) (rs : RandomState) (n : nat) (rest : list nat) :
  (forall gs, g <> GenList gs) ->
  vae_encode_sample image (w_random W) = (OK l, rs) ->
  shape l = n :: rest ->
  0 < n ->
  ImageEncoding.encode_image_vae_latents vae_encode_sample vae_scaling_factor
                                         image b k g W
  = if Nat.ltb n (b * k) then
      if Nat.eqb ((b * k) mod n) 0
      then (OK (mkTensor (b * k :: rest)
                         (concat (repeat (data (mul_scalar l vae_scaling_factor))
                                         (b * k / n)))),
            mkWorld rs (w_scheduler W) (w_trace W))
      else (Raise ValueError, mkWorld rs (w_scheduler W) (w_trace W))
    else (OK (mul_scalar l vae_scaling_factor), mkWorld rs (w_scheduler W) (w_trace W)).
Proof.
  intros Hg Hv Hs Hn.
  unfold ImageEncoding.encode_image_vae_latents; cbv zeta.
  rewrite (@not_list_no_mismatch g (b * k) Hg).
  assert (Hl : bind (ImageEncoding.vae_sample vae_encode_sample image)
                    (fun l0 => ret (mul_scalar l0 vae_scaling_factor)) W
               = (OK (mul_scalar l vae_scaling_factor),
                  mkWorld rs (w_scheduler W) (w_trace W))).
  { unfold bind, ImageEncoding.vae_sample; now rewrite Hv. }
  assert (Hs' : shape (mul_scalar l vae_scaling_factor) = n :: rest) by exact Hs.
  replace (match g with
           | GenList _ =>
               bind (ImageEncoding.mapM
                       (fun i =>
                          bind (lift (ImageEncoding.slice0 image i))
                               (fun image_i =>
                                  bind (ImageEncoding.vae_sample vae_encode_sample image_i)
                                       (fun l0 => ret (mul_scalar l0 vae_scaling_factor))))
                       (seq 0 (b * k)))
                    (fun image_latents => lift (ImageEncoding.concat0 image_latents))
           | _ => bind (ImageEncoding.vae_sample vae_encode_sample image)
                       (fun l0 => ret (mul_scalar l0 vae_scaling_factor))
           end)
    with (bind (ImageEncoding.vae_sample vae_encode_sample image)
               (fun l0 => ret (mul_scalar l0 vae_scaling_factor)))
    by (destruct g; try reflexivity; now destruct (Hg gs)).
  rewrite (bind_OK Hl).
  unfold shape0; rewrite Hs', lift_bind.
  now apply expand_for_batch.
Qed.

Lemma encode_image_clip_latents_run (image : Tensor F + PILImage) (b k : nat)
      (g : Generator) (W : World) (e : Tensor F) (n : nat) (rest : list nat) :
  (forall gs, g <> GenList gs) ->
  image_embeds image = OK e ->
  shape e = n :: rest ->
  0 < n ->
  ImageEncoding.encode_image_clip_latents image_embeds image b k g W
  = if Nat.ltb n b then
      if Nat.eqb (b mod n) 0
      then (OK (mkTensor (b :: 1 :: rest) (concat (repeat (data e) (b / n)))), W)
      else (Raise ValueError, W)
    else (OK (mkTensor (n :: 1 :: rest) (data e)), W).
Proof.
  intros Hg He Hs Hn.
  unfold ImageEncoding.encode_image_clip_latents; cbv zeta.
  rewrite (@not_list_no_mismatch g (b * k) Hg).
  set (u := mkTensor (n :: 1 :: rest) (data e)).
  assert (Hl : bind (lift (image_embeds image))
                    (fun e0 => lift (ImageEncoding.unsqueeze1 e0)) W
               = (OK u, W)).
  { rewrite He, lift_bind; unfold lift, ImageEncoding.unsqueeze1; now rewrite Hs. }
  replace (match g with
           | GenList _ =>
               bind (ImageEncoding.mapM
                       (fun i =>
                          bind (lift match image with
                                     | inl x =>
                                         let* s := ImageEncoding.slice0 x i in
                                         OK (inl s : Tensor F + PILImage)
                                     | inr _ => Raise TypeError
                                     end)
                               (fun image_i =>
                                  bind (lift (image_embeds image_i))
                                       (fun e0 => lift (ImageEncoding.unsqueeze1 e0))))
                       (seq 0 b))
                    (fun image_latents => lift (ImageEncoding.concat0 image_latents))
           | _ => bind (lift (image_embeds image))
                       (fun e0 => lift (ImageEncoding.unsqueeze1 e0))
           end)
    with (bind (lift (image_embeds image))
               (fun e0 => lift (ImageEncoding.unsqueeze1 e0)))
    by (destruct g; try reflexivity; now destruct (Hg gs)).
  rewrite (bind_OK Hl).
  assert (Hu : shape u = n :: 1 :: rest) by reflexivity.
  unfold shape0; rewrite Hu, lift_bind.
  pose proof (@expand_for_batch u b n (1 :: rest) W Hu Hn) as Hx.
  cbv zeta.
  destruct (Nat.ltb n b); [destruct (Nat.eqb (b mod n) 0)|];
    rewrite (bind_OK Hx) || rewrite (bind_Raise Hx); reflexivity.
Qed.

End EncodingFacts.

(** X20.  What the two image encoders return for a generator that is not a
    list, when the encoder yields [n >= 1] latents: with [E] the effective
    batch size ([batch_size * num_images_per_prompt] for the VAE latents,
    [batch_size] alone for the CLIP latents), the latents are repeated
    [E / n] times along the batch axis when [n < E] and [n] divides [E], a
    [ValueError] is raised when [n < E] and [n] does not divide [E], and
    they are returned as they are when [n >= E] (a larger batch of images
    is neither cut nor rejected). *)
Theorem encoded_latents_are_duplicated_to_the_batch `{Collaborators}
        (vae_encode_sample : Tensor F -> RandomState -> Res (Tensor F) * RandomState)
        (vae_scaling_factor : F) (image_embeds : Tensor F + PILImage -> Res (Tensor F))
        (image_vae : Tensor F) (image : Tensor F + PILImage) (b k : nat) (g : Generator)
        (W : World) (l e : Tensor F) (rs : RandomState) (n m : nat)
        (rest rest' : list nat) :
  (forall gs, g <> GenList gs) ->
  vae_encode_sample image_vae (w_random W) = (OK l, rs) ->
  shape l = n :: rest ->
  0 < n ->
  image_embeds image = OK e ->
  shape e = m :: rest' ->
  0 < m ->
  ImageEncoding.encode_image_vae_latents vae_encode_sample vae_scaling_factor
                                         image_vae b k g W
  = (if Nat.ltb n (b * k) then
       if Nat.eqb ((b * k) mod n) 0
       then (OK (mkTensor (b * k :: rest)
                          (concat (repeat (data (mul_scalar l vae_scaling_factor))
                                          (b * k / n)))),
             mkWorld rs (w_scheduler W) (w_trace W))
       else (Raise ValueError, mkWorld rs (w_scheduler W) (w_trace W))
     else (OK (mul_scalar l vae_scaling_factor), mkWorld rs (w_scheduler W) (w_trace W)))
  /\ ImageEncoding.encode_image_clip_latents image_embeds image b k g W
     = (if Nat.ltb m b then
          if Nat.eqb (b mod m) 0
          then (OK (mkTensor (b :: 1 :: rest') (concat (repeat (data e) (b / m)))), W)
          else (Raise ValueError, W)
        else (OK (mkTensor (m :: 1 :: rest') (data e)), W)).
Proof.
  intros Hg Hv Hs Hn He Hs' Hm; split.
  - now apply encode_image_vae_latents_run.
  - now apply encode_image_clip_latents_run.
Qed.

(** X21.  As [__call__] calls them in mode "i2t" (the batch size is the number
    [n] of images, both get [num_prompts_per_image = k]), the two encoders
    disagree on the batch: the VAE latents come back with batch [n k], the
    CLIP latents with batch [n]; for [k >= 2] the image latents handed to
    the loop have different batch sizes. *)
Theorem vae_and_clip_latents_disagree_on_batch `{Collaborators}
        (vae_encode_sample : Tensor F -> RandomState -> Res (Tensor F) * RandomState)
        (vae_scaling_factor : F) (image_embeds : Tensor F + PILImage -> Res (Tensor F))
        (image_vae : Tensor F) (image : Tensor F + PILImage) (n k : nat) (g : Generator)
        (W : World) (l e : Tensor F) (rs : RandomState) (rest rest' : list nat) :
  (forall gs, g <> GenList gs) ->
  vae_encode_sample image_vae (w_random W) = (OK l, rs) ->
  shape l = n :: rest ->
  image_embeds image = OK e ->
  shape e = n :: rest' ->
  0 < n ->
  0 < k ->
  exists v c W1,
    ImageEncoding.encode_image_vae_latents vae_encode_sample vae_scaling_factor
                                           image_vae n k g W = (OK v, W1)
    /\ ImageEncoding.encode_image_clip_latents image_embeds image n k g W1 = (OK c, W1)
    /\ shape v = n * k :: rest
    /\ shape c = n :: 1 :: rest'
    /\ (2 <= k -> shape0 v <> shape0 c).
Proof.
  intros Hg Hv Hs He Hs' Hn Hk.
  rewrite (@encode_image_vae_latents_run _ _ vae_encode_sample vae_scaling_factor
             image_vae n k g W l rs n rest Hg Hv Hs Hn).
  set (W1 := mkWorld rs (w_scheduler W) (w_trace W)).
  assert (Hc : ImageEncoding.encode_image_clip_latents image_embeds image n k g W1
               = (OK (mkTensor (n :: 1 :: rest') (data e)), W1)).
  { rewrite (@encode_image_clip_latents_run _ _ image_embeds image n k g W1 e n rest'
               Hg He Hs' Hn).
    now rewrite Nat.ltb_irrefl. }
  assert (Hne : 2 <= k -> OK (n * k) <> OK n).
  { intros H2 E; injection E as E; nia. }
  destruct (Nat.ltb n (n * k)) eqn:Hlt.
  - replace (Nat.eqb ((n * k) mod n) 0) with true
      by (symmetry; apply Nat.eqb_eq; rewrite Nat.mul_comm; apply Nat.Div0.mod_mul).
    eexists _, _, W1; split; [reflexivity | split; [exact Hc|]].
    cbn [shape shape0]; auto.
  - apply Nat.ltb_ge in Hlt.
    assert (k = 1) by nia; subst k.
    eexists _, _, W1; split; [reflexivity | split; [exact Hc|]].
    cbn [shape shape0 mul_scalar]; rewrite Hs, Nat.mul_1_r.
    repeat split; auto; intros; lia.
Qed.

(* ------------------------------------------------------------------ *)
(** ** The caption decoder *)

Section CaptionFacts.
Context `{FloatOps}.

Lemma paddle_split_one {X : Type} (x : Tensor X) (B : nat) (rest : list nat) :
  shape x = B :: rest -> wf x -> CaptionDecoder.paddle_split x 1 = OK [x].
Proof.
  intros Hs Hw; unfold CaptionDecoder.paddle_split; rewrite Hs.
  cbn [Nat.eqb]; rewrite Nat.mod_1_r, Nat.div_1_r; cbn [Nat.eqb chunk map].
  unfold wf in Hw; rewrite Hs in Hw.
  replace (B * numel rest) with (length (data x))
    by (rewrite Hw; unfold numel; reflexivity).
  rewrite firstn_all.
  destruct x as [s d]; cbn in *; now subst.
Qed.

End CaptionFacts.

(** X22.  [generate_captions] splits its batch of text latents with
    [paddle.split(features, 1, axis=0)], that is into one part: whatever
    the batch size, the decoder is run once, on the whole batch, and the
    result holds exactly one caption (the best beam with beam search). *)
Theorem generate_captions_returns_one_caption `{FloatOps}
        (use_beam_search : bool) (decode_prefix : Tensor F -> Tensor F)
        (generate_beam : Tensor F -> Res (list string))
        (generate2 : Tensor F -> Res string)
        (features : Tensor F) (B : nat) (rest : list nat) :
  shape features = B :: rest ->
  wf features ->
  CaptionDecoder.generate_captions use_beam_search decode_prefix generate_beam
                                   generate2 features
  = (if use_beam_search
     then match generate_beam (decode_prefix features) with
          | OK (text :: _) => OK [text]
          | OK [] => Raise IndexError
          | Raise e => Raise e
          end
     else match generate2 (decode_prefix features) with
          | OK text => OK [text]
          | Raise e => Raise e
          end)
  /\ (forall captions,
         CaptionDecoder.generate_captions use_beam_search decode_prefix generate_beam
                                          generate2 features = OK captions ->
         length captions = 1).
Proof.
  intros Hs Hw.
  assert (E : CaptionDecoder.generate_captions use_beam_search decode_prefix
                generate_beam generate2 features
              = (if use_beam_search
                 then match generate_beam (decode_prefix features) with
                      | OK (text :: _) => OK [text]
                      | OK [] => Raise IndexError
                      | Raise e => Raise e
                      end
                 else match generate2 (decode_prefix features) with
                      | OK text => OK [text]
                      | Raise e => Raise e
                      end)).
  { unfold CaptionDecoder.generate_captions.
    rewrite (@paddle_split_one _ features B rest Hs Hw).
    cbn [res_bind CaptionDecoder.generate_captions_loop].
    destruct use_beam_search.
    - destruct (generate_beam (decode_prefix features)) as [[|t ts]|e]; reflexivity.
    - destruct (generate2 (decode_prefix features)); reflexivity. }
  split; [exact E|].
  intros captions; rewrite E.
  destruct use_beam_search.
  - destruct (generate_beam (decode_prefix features)) as [[|t ts]|e]; try discriminate.
    now intros [= <-].
  - destruct (generate2 (decode_prefix features)); try discriminate.
    now intros [= <-].
Qed.

Section Generate2Facts.
Variable E : Type.
Variable next_token_of : list E -> Z.
Variable word_embeddings : Z -> E.
Variable stop_token_index : Z.

(** The tokens a run of the token loop appends. *)
Lemma generate2_loop_tokens (entry_length : nat) :
  forall (tokens : option (list Z)) (generated : list E),
  exists new,
    fst (CaptionDecoder.generate2_loop next_token_of word_embeddings stop_token_index
                                       entry_length tokens generated)
    = match new, tokens with
      | [], _ => tokens
      | _, None => Some new
      | _, Some old => Some (old ++ new)
      end
    /\ length new <= entry_length
    /\ (0 < entry_length -> 0 < length new)
    /\ Forall (fun z => z <> stop_token_index) (removelast new)
    /\ (length new < entry_length -> last new 0%Z = stop_token_index).
Proof.
  induction entry_length as [|L IH]; intros tokens generated.
  - exists []; cbn; repeat split; auto; lia.
  - cbn [CaptionDecoder.generate2_loop].
    set (next := next_token_of generated).
    set (toks := match tokens with None => [next] | Some old => old ++ [next] end).
    destruct (Z.eqb stop_token_index next) eqn:Hstop.
    + apply Z.eqb_eq in Hstop.
      exists [next]; cbn [fst length removelast last].
      split; [destruct tokens; reflexivity|].
      repeat split; auto; lia.
    + apply Z.eqb_neq in Hstop.
      destruct (IH (Some toks) (generated ++ [word_embeddings next]))
        as (new & Hr & Hlen & Hpos & Hall & Hlast).
      exists (next :: new); rewrite Hr.
      split; [|split; [cbn; lia | split; [cbn; lia | split]]].
      * unfold toks; destruct new as [|z new], tokens as [old|]; cbn [app];
          try reflexivity; now rewrite <- app_assoc.
      * destruct new as [|z new]; [constructor|].
        change (removelast (next :: z :: new)) with (next :: removelast (z :: new)).
        constructor; [congruence | exact Hall].
      * intros Hlt; cbn [length] in Hlt.
        destruct new as [|z new].
        -- cbn in Hlt; destruct L; [lia|]; specialize (Hpos ltac:(lia)); cbn in Hpos; lia.
        -- change (last (next :: z :: new) 0%Z) with (last (z :: new) 0%Z).
           apply Hlast; cbn [length] in *; lia.
Qed.

End Generate2Facts.

(** X23.  [generate2] (called with an embedding and one entry, as
    [generate_captions] does) decodes a token list that holds between 1
    and [entry_length] tokens, in which only the last token can be the stop
    token, and which is shorter than [entry_length] only if it ends with
    the stop token: generation stops right after the first stop token and
    never runs past [entry_length].  With [entry_length = 0] no token is
    produced and the call fails on [tokens.squeeze()] ([tokens] is
    [None]). *)
Theorem generate2_stops_at_the_stop_token
        (E : Type) (next_token_of : list E -> Z) (word_embeddings : Z -> E)
        (stop_token_index : Z) (decode_tokens : list Z -> Res string)
        (embedding : list E) (entry_length : nat) :
  (0 < entry_length ->
   exists output_list,
     CaptionDecoder.generate2 next_token_of word_embeddings stop_token_index
                              decode_tokens embedding 1 entry_length
     = decode_tokens output_list
     /\ 1 <= length output_list <= entry_length
     /\ Forall (fun z => z <> stop_token_index) (removelast output_list)
     /\ (length output_list < entry_length -> last output_list 0%Z = stop_token_index))
  /\ CaptionDecoder.generate2 next_token_of word_embeddings stop_token_index
                              decode_tokens embedding 1 0
     = Raise AttributeError.
Proof.
  split; [|reflexivity].
  intros Hpos.
  destruct (generate2_loop_tokens next_token_of word_embeddings stop_token_index
                                  entry_length None embedding)
    as (new & Hr & Hlen & Hp & Hall & Hlast).
  specialize (Hp Hpos).
  exists new; split; [|split; [lia | split; assumption]].
  unfold CaptionDecoder.generate2; cbn [CaptionDecoder.generate2_entries].
  destruct (CaptionDecoder.generate2_loop next_token_of word_embeddings stop_token_index
                                          entry_length None embedding) as [r gen].
  cbn [fst] in Hr; subst r.
  destruct new as [|z new]; [cbn in Hp; lia|].
  destruct (decode_tokens (z :: new)); reflexivity.
Qed.


(* ------------------------------------------------------------------ *)
(** ** Concrete runs on the stub instance, continued *)


(** X25.  Mode "i2t", end to end: with a shape-preserving network and scheduler
    step, a validated call (which needs a prompt, though it does not read
    it) on an image that preprocesses to a 4-D tensor and that the two
    encoders accept returns captions and no image. *)
Theorem i2t_call_returns_captions `{Collaborators}
        (cfg : PipelineConfig) (a : CallArgs) (image : Image) (image_vae : Tensor F)
        (B n c hh ww : nat) (W : World) :
  unet_respects_shapes ->
  step_respects_shapes ->
  randn_respects_shapes ->
  a_mode a = m_i2t ->
  check_inputs (a_prompt a) (call_height cfg a) (call_width cfg a)
               (a_callback_steps a) None None None = OK tt ->
  a_image a = Some image ->
  call_batch_size a = OK B ->
  generator_mismatch (a_generator a) B = false ->
  a_prompt_latents a = None ->
  preprocess image = OK image_vae ->
  shape image_vae = [n; c; hh; ww] ->
  (forall W0, is_ok (fst (encode_image_vae_latents
                            image_vae B (a_num_prompts_per_image a) (a_generator a) W0))
              = true) ->
  (forall W0, is_ok (fst (encode_image_clip_latents
                            image B (a_num_prompts_per_image a) (a_generator a) W0))
              = true) ->
  exists out W' tr,
    __call__ cfg a W = (OK out, W')
    /\ w_trace W' = w_trace W ++ tr
    /\ images out = None
    /\ texts out <> None.
Proof.
  intros unet_ok step_ok randn_ok Hm Hc Hi Hb Hg Hpl Hpre Hsh Hvae Hclip.
  destruct (check_inputs_prompt _ _ _ _ Hc) as [_ Hk].
  destruct (@prepared_fresh_run _ _ randn_ok (text_shape cfg B) B (a_generator a) W Hg)
    as (pe & W0 & R0 & S0 & T0 & _).
  unfold text_shape in R0; rewrite <- prepare_text_latents_run in R0.
  pose proof (proj1 (only_draws_encode_image_vae_latents
                       image_vae B (a_num_prompts_per_image a) (a_generator a) W0)) as Tv.
  specialize (Hvae W0).
  destruct (encode_image_vae_latents image_vae B (a_num_prompts_per_image a)
                                     (a_generator a) W0) as [[v|e] W1] eqn:Rv;
    [|discriminate].
  pose proof (proj1 (only_draws_encode_image_clip_latents
                       image B (a_num_prompts_per_image a) (a_generator a) W1)) as Tc.
  specialize (Hclip W1).
  destruct (encode_image_clip_latents image B (a_num_prompts_per_image a)
                                      (a_generator a) W1) as [[cl|e] W2] eqn:Rc;
    [|discriminate].
  cbn [snd] in Tv, Tc.
  assert (Rp : prepare_call cfg a W = (OK (pe, v, cl, hh, ww), W2)).
  { unfold prepare_call; cbv zeta.
    unfold call_height, call_width, call_batch_size in *.
    rewrite Hc, lift_bind, Hb, lift_bind, Hpl, Hm, (bind_OK R0), Hi, Hpre, lift_bind.
    rewrite Hsh, lift_bind, (bind_OK Rv), (bind_OK Rc); reflexivity. }
  destruct (@sample_stage_run _ _ cfg unet_ok step_ok a B hh ww m_i2t v cl pe W2 Hk)
    as (outs & W3 & tr & R & Houts & Htr & _);
    [simpl; auto 10 | exact (has_shape_wf S0) |].
  destruct outs as [x1 x2 x3|x1 x2|x3|]; cbn [outs_ok] in Houts; try contradiction.
  exists (mkOutput None (Some (caption_generate_captions x3))), W3, tr.
  split; [|split; [congruence | split; [reflexivity | discriminate]]].
  unfold __call__; cbv zeta.
  rewrite (bind_OK Rp), Hm, (bind_OK R); reflexivity.
Qed.

(** X26.  No generator reaches the guidance noise.  [_denoising_sample_fn] does
    not read its [generator] argument and [get_noise_pred] draws with
    [paddle.randn] from the global random source; so when the three initial
    latents are supplied and the scheduler step takes no generator, a call
    outside mode "i2t" behaves the same for every (single) generator, also
    with guidance on: the generator seeds the initial latents only. *)
Theorem guidance_noise_is_not_seeded_by_the_generator `{Collaborators}
        (cfg : PipelineConfig) (mode : Mode) (image : option Image)
        (prompt : option Prompt) (height width : option nat) (num_inference_steps : nat)
        (guidance_scale : F) (negative_prompt : option Prompt)
        (num_images_per_prompt num_prompts_per_image num_samples : nat) (eta : F)
        (generator generator' : Generator)
        (prompt_latents vae_latents clip_latents : Tensor F)
        (prompt_embeds negative_prompt_embeds : option (Tensor F))
        (output_type_is_pil : bool) (callback : option Callback)
        (callback_steps : CallbackSteps) (W : World) :
  step_accepts_generator = false ->
  mode <> m_i2t ->
  (forall gs, generator <> GenList gs) ->
  (forall gs, generator' <> GenList gs) ->
  __call__ cfg
           (mkCallArgs mode image prompt height width num_inference_steps guidance_scale
                       negative_prompt num_images_per_prompt num_prompts_per_image
                       num_samples eta generator (Some prompt_latents) (Some vae_latents)
                       (Some clip_latents) prompt_embeds negative_prompt_embeds
                       output_type_is_pil callback callback_steps) W
  = __call__ cfg
             (mkCallArgs mode image prompt height width num_inference_steps guidance_scale
                         negative_prompt num_images_per_prompt num_prompts_per_image
                         num_samples eta generator' (Some prompt_latents) (Some vae_latents)
                         (Some clip_latents) prompt_embeds negative_prompt_embeds
                         output_type_is_pil callback callback_steps) W
  /\ (forall (stage : Mode) (image_vae_latents image_clip_latents text : Tensor F)
             (kw : StepKwargs) (h w : nat) (k : Z) (W0 : World),
         _denoising_sample_fn cfg stage image_vae_latents image_clip_latents text
                              num_inference_steps kw guidance_scale generator h w
                              callback k W0
         = _denoising_sample_fn cfg stage image_vae_latents image_clip_latents text
                                num_inference_steps kw guidance_scale generator' h w
                                callback k W0).
Proof.
  intros Hstep Hm Hg Hg'.
  split; [|reflexivity].
  destruct generator as [|g|gs]; [| |now destruct (Hg gs)];
    (destruct generator' as [|g'|gs']; [| |now destruct (Hg' gs')]);
    unfold __call__, sample_stage, prepare_extra_step_kwargs; cbv zeta;
    cbn [a_generator a_eta]; rewrite Hstep;
    destruct mode; try contradiction; reflexivity.
Qed.

Section ForwardFacts.
Context {X : Type}.

Lemma length_chunk (B n : nat) (l : list X) : length (chunk B n l) = B.
Proof. revert l; induction B as [|B IH]; intros l; simpl; [reflexivity | now rewrite IH]. Qed.

Lemma chunk_repeat (B n : nat) (z : X) :
  chunk B n (repeat z (B * n)) = repeat (repeat z n) B.
Proof.
  induction B as [|B IH]; [reflexivity|].
  cbn [chunk repeat Nat.mul]; rewrite repeat_app.
  rewrite firstn_app, firstn_all2, repeat_length, Nat.sub_diag, firstn_O, app_nil_r
    by (rewrite repeat_length; lia).
  rewrite skipn_app, skipn_all2, repeat_length, Nat.sub_diag, skipn_O
    by (rewrite repeat_length; lia).
  cbn [app]; now rewrite IH.
Qed.

Lemma zip_app_nil_r (rows : list (list X)) :
  zip_app rows (repeat [] (length rows)) = rows.
Proof.
  induction rows as [|r rows IH]; [reflexivity|].
  cbn [length repeat zip_app]; now rewrite app_nil_r, IH.
Qed.

Lemma zip_app_repeat_l (p : list X) (rows : list (list X)) :
  zip_app (repeat p (length rows)) rows = map (app p) rows.
Proof.
  induction rows as [|r rows IH]; [reflexivity|].
  cbn [length repeat zip_app map]; now rewrite IH.
Qed.

End ForwardFacts.

(** X27.  [forward] with labels: the [labels] argument only switches the loss
    on.  Its content is discarded; the labels handed to the language model
    are, row by row, [prefix_length] zeros followed by that row of
    [tokens], of shape (B, prefix_length + T) for tokens of shape (B, T). *)
Theorem forward_labels_are_zero_prefixed_tokens `{FloatOps}
        (prefix_length : nat) (hidden_dim : option nat)
        (word_embeddings : Tensor Z -> Tensor F)
        (encode_prefix decode_prefix : Tensor F -> Tensor F)
        (GptOutput Mask : Type)
        (gpt : Tensor F -> option (Tensor Z) -> option Mask -> GptOutput)
        (tokens : Tensor Z) (prefix : Tensor F) (mask : option Mask)
        (labels : Tensor Z) (B T : nat) (embedding_cat : Tensor F) :
  has_shape [B; T] tokens ->
  CaptionDecoder.concat_axis1 (decode_prefix (encode_prefix prefix))
                              (word_embeddings tokens) = OK embedding_cat ->
  CaptionDecoder.forward prefix_length hidden_dim word_embeddings encode_prefix
                         decode_prefix gpt tokens prefix mask (Some labels)
  = OK (gpt embedding_cat
            (Some (mkTensor [B; prefix_length + T]
                            (concat (map (app (repeat 0%Z prefix_length))
                                         (chunk B T (data tokens))))))
            mask,
        match hidden_dim with
        | Some (S _) => Some (encode_prefix prefix)
        | _ => None
        end).
Proof.
  intros [Hs Hd] Hcat.
  unfold CaptionDecoder.forward; cbv zeta.
  rewrite Hcat; cbn [res_bind].
  unfold shape0; rewrite Hs; cbn [res_bind].
  unfold tensor_concat, CaptionDecoder.get_dummy_token; cbn [shape data widths width2].
  unfold width2; rewrite Hs, !Nat.eqb_refl, list_sum2.
  cbn [combine map hcat res_bind data].
  assert (Hdata : concat (zip_app (chunk B prefix_length (repeat 0%Z (B * prefix_length)))
                                  (zip_app (chunk B T (data tokens)) (repeat [] B)))
                  = concat (map (app (repeat 0%Z prefix_length))
                                (chunk B T (data tokens)))).
  { rewrite chunk_repeat.
    pose proof (length_chunk B T (data tokens)) as HL.
    set (rows := chunk B T (data tokens)) in *.
    rewrite <- HL.
    now rewrite zip_app_nil_r, zip_app_repeat_l. }
  rewrite Hdata.
  destruct hidden_dim as [[|d]|]; reflexivity.
Qed.
Section ConcreteRuns.
#[local] Existing Instance Stub.float_ops.
#[local] Existing Instance Stub.collaborators.

Lemma bad_dimensions_or_callback_steps_are_rejected_witness :
  __call__ Stub.cfg (StubRuns.args m_t2i (Some 7) GenNone 1) Stub.world0
  = (Raise ValueError, Stub.world0).
Proof.
  apply (@bad_dimensions_or_callback_steps_are_rejected
           Stub.float_ops Stub.collaborators Stub.cfg
           (StubRuns.args m_t2i (Some 7) GenNone 1) Stub.world0).
  left; vm_compute; discriminate.
Defined.

Lemma image_is_read_in_mode_i2t_only_witness :
  __call__ Stub.cfg
           (mkCallArgs m_i2t2i (Some (ImgPIL tt)) (Some (PromptStr EmptyString))
                       (Some 8) (Some 8) 2 7%Z None 1 1 1 0%Z GenNone None None None
                       None None true None (StepsInt 1)) Stub.world0
  = __call__ Stub.cfg
             (mkCallArgs m_i2t2i None (Some (PromptStr EmptyString))
                         (Some 8) (Some 8) 2 7%Z None 1 5 1 0%Z GenNone None None None
                         None None true None (StepsInt 1)) Stub.world0.
Proof.
  apply (@image_is_read_in_mode_i2t_only Stub.float_ops Stub.collaborators).
  discriminate.
Defined.

Lemma prompt_is_read_in_mode_t2i_only_witness :
  __call__ Stub.cfg
           (mkCallArgs m_t2i2t None (Some (PromptStr "a cat"%string))
                       (Some 8) (Some 8) 2 7%Z None 1 1 1 0%Z GenNone None None None
                       None None true None (StepsInt 1)) Stub.world0
  = __call__ Stub.cfg
             (mkCallArgs m_t2i2t None (Some (PromptList ["a dog"%string; "a bird"%string]))
                         (Some 8) (Some 8) 2 7%Z None 1 1 1 0%Z GenNone None None None
                         (Some Stub.text0) None true None (StepsInt 1)) Stub.world0.
Proof.
  apply (@prompt_is_read_in_mode_t2i_only Stub.float_ops Stub.collaborators);
    discriminate.
Defined.

Lemma generator_list_of_wrong_length_is_rejected_witness :
  exists W',
    __call__ Stub.cfg (StubRuns.args m_t2i (Some 8) (GenList [0; 1]) 1) Stub.world0
    = (Raise ValueError, W')
    /\ w_trace W' = w_trace Stub.world0.
Proof.
  apply (@generator_list_of_wrong_length_is_rejected
           Stub.float_ops Stub.collaborators Stub.cfg
           (StubRuns.args m_t2i (Some 8) (GenList [0; 1]) 1) 1 [0; 1] Stub.world0).
  - discriminate.
  - reflexivity.
  - reflexivity.
  - cbn; lia.
Defined.

Lemma unsupported_mode_is_rejected_after_preparation_witness :
  (exists e W',
      __call__ Stub.cfg (StubRuns.args m_unsupported (Some 8) GenNone 1) Stub.world0
      = (Raise e, W')
      /\ w_trace W' = w_trace Stub.world0)
  /\ (forall r W1,
         prepare_call Stub.cfg (StubRuns.args m_unsupported (Some 8) GenNone 1) Stub.world0
         = (OK r, W1) ->
         __call__ Stub.cfg (StubRuns.args m_unsupported (Some 8) GenNone 1) Stub.world0
         = (Raise ValueError, W1))
  /\ (forall e W1,
         prepare_call Stub.cfg (StubRuns.args m_unsupported (Some 8) GenNone 1) Stub.world0
         = (Raise e, W1) ->
         __call__ Stub.cfg (StubRuns.args m_unsupported (Some 8) GenNone 1) Stub.world0
         = (Raise e, W1)).
Proof.
  apply (@unsupported_mode_is_rejected_after_preparation
           Stub.float_ops Stub.collaborators Stub.cfg
           (StubRuns.args m_unsupported (Some 8) GenNone 1) Stub.world0).
  reflexivity.
Defined.

Lemma joint_mode_needs_one_image_per_prompt_witness :
  exists W',
    __call__ Stub.cfg (StubRuns.args m_joint (Some 8) GenNone 2) Stub.world0
    = (Raise PaddleError, W')
    /\ w_trace W' = w_trace Stub.world0.
Proof.
  apply (@joint_mode_needs_one_image_per_prompt
           Stub.float_ops Stub.collaborators Stub.cfg
           (StubRuns.args m_joint (Some 8) GenNone 2) Stub.world0 stub_randn_ok);
    try reflexivity.
  - cbn; lia.
  - cbn; lia.
Defined.

Lemma prepared_latents_have_the_mode_shapes_witness :
  exists pe vae clip W1,
    prepare_call Stub.cfg (StubRuns.args m_joint (Some 8) GenNone 1) Stub.world0
    = (OK (pe, vae, clip,
           call_height Stub.cfg (StubRuns.args m_joint (Some 8) GenNone 1),
           call_width Stub.cfg (StubRuns.args m_joint (Some 8) GenNone 1)), W1)
    /\ has_shape (vae_shape Stub.cfg
                            (1 * a_num_images_per_prompt
                                   (StubRuns.args m_joint (Some 8) GenNone 1))
                            (call_height Stub.cfg (StubRuns.args m_joint (Some 8) GenNone 1))
                            (call_width Stub.cfg (StubRuns.args m_joint (Some 8) GenNone 1)))
                 vae
    /\ has_shape (clip_shape (1 * a_num_images_per_prompt
                                    (StubRuns.args m_joint (Some 8) GenNone 1))) clip
    /\ (a_mode (StubRuns.args m_joint (Some 8) GenNone 1) <> m_t2i ->
        has_shape (text_shape Stub.cfg 1) pe)
    /\ (a_mode (StubRuns.args m_joint (Some 8) GenNone 1) = m_t2i ->
        exists e,
          _encode_prompt (a_prompt (StubRuns.args m_joint (Some 8) GenNone 1))
                         (a_prompt_embeds (StubRuns.args m_joint (Some 8) GenNone 1))
          = OK e
          /\ pe = caption_encode_prefix e)
    /\ w_trace W1 = w_trace Stub.world0
    /\ w_scheduler W1 = w_scheduler Stub.world0.
Proof.
  apply (@prepared_latents_have_the_mode_shapes
           Stub.float_ops Stub.collaborators Stub.cfg
           (StubRuns.args m_joint (Some 8) GenNone 1) 1 Stub.world0 stub_randn_ok);
    try reflexivity.
  - discriminate.
  - now right.
Defined.

Lemma call_populates_the_outputs_of_its_mode_witness :
  exists out W' tr,
    __call__ Stub.cfg Stub.args_t2i2t Stub.world0 = (OK out, W')
    /\ w_trace W' = w_trace Stub.world0 ++ tr
    /\ (images out <> None
        <-> In (a_mode Stub.args_t2i2t) [m_joint; m_t2i; m_i; m_i2t2i])
    /\ (texts out <> None <-> In (a_mode Stub.args_t2i2t) [m_joint; m_t; m_t2i2t])
    /\ ((forall s, schedule_has_length (a_num_inference_steps Stub.args_t2i2t) s) ->
        count_step tr
        = match a_mode Stub.args_t2i2t with
          | m_t2i2t | m_i2t2i => 2 * a_num_inference_steps Stub.args_t2i2t
          | _ => a_num_inference_steps Stub.args_t2i2t
          end).
Proof.
  apply (@call_populates_the_outputs_of_its_mode
           Stub.float_ops Stub.collaborators Stub.cfg Stub.args_t2i2t 1 Stub.world0
           stub_unet_ok stub_step_ok stub_randn_ok);
    try reflexivity; try discriminate.
  now right.
Defined.

Lemma steps_thread_the_latent_witness :
  exists init outs W' tr,
    pack_latents m_t2i Stub.vae0 Stub.clip0 Stub.text0 = OK (Some init)
    /\ _denoising_sample_fn Stub.cfg m_t2i Stub.vae0 Stub.clip0 Stub.text0
                            2 Stub.kwargs0 7%Z GenNone 8 8 None 1%Z Stub.world0
       = (OK outs, W')
    /\ w_trace W' = w_trace Stub.world0 ++ tr
    /\ step_timesteps tr
       = map (fun tz => mkTensor [1] [tz])
             (scheduler_timesteps (scheduler_set_timesteps 2 (w_scheduler Stub.world0)))
    /\ step_samples tr = removelast (init :: step_results tr)
    /\ unpack_latents Stub.cfg m_t2i (Some (last (step_results tr) init)) 8 8 W'
       = (OK outs, W').
Proof.
  apply (@steps_thread_the_latent
           Stub.float_ops Stub.collaborators Stub.cfg m_t2i 1 8 8
           Stub.vae0 Stub.clip0 Stub.text0 2 Stub.kwargs0 7%Z GenNone None 1%Z
           Stub.world0 stub_unet_ok stub_step_ok).
  - simpl; auto.
  - vm_compute; repeat split; reflexivity.
  - now left.
Defined.

Lemma progress_bar_is_updated_once_per_scheduler_group_witness :
  exists outs W' tr,
    _denoising_sample_fn Stub.cfg m_i2t Stub.vae0 Stub.clip0 Stub.text0
                         3 Stub.kwargs0 7%Z GenNone 8 8 None 1%Z Stub.world0
    = (OK outs, W')
    /\ w_trace W' = w_trace Stub.world0 ++ tr
    /\ count_progress tr
       = length
           (filter
              (progress_at
                 (length (scheduler_timesteps
                            (scheduler_set_timesteps 3 (w_scheduler Stub.world0))))
                 (Z.of_nat (length (scheduler_timesteps
                                      (scheduler_set_timesteps 3 (w_scheduler Stub.world0))))
                  - Z.of_nat 3 * scheduler_order))
              (seq 0 (length (scheduler_timesteps
                                (scheduler_set_timesteps 3 (w_scheduler Stub.world0))))))
    /\ (scheduler_order = 1%Z ->
        length (scheduler_timesteps (scheduler_set_timesteps 3 (w_scheduler Stub.world0)))
        = 3 ->
        count_progress tr = 3).
Proof.
  apply (@progress_bar_is_updated_once_per_scheduler_group
           Stub.float_ops Stub.collaborators Stub.cfg m_i2t 1 8 8
           Stub.vae0 Stub.clip0 Stub.text0 3 Stub.kwargs0 7%Z GenNone None 1%Z
           Stub.world0 stub_unet_ok stub_step_ok).
  - simpl; auto.
  - vm_compute; reflexivity.
  - now left.
Defined.

Lemma empty_schedule_returns_the_inputs_witness :
  _denoising_sample_fn Stub.cfg m_joint Stub.vae0 Stub.clip0 Stub.text0
                       0 Stub.kwargs0 7%Z GenNone 8 8 None 1%Z Stub.world0
  = (OK (OutJoint Stub.vae0 Stub.clip0 Stub.text0),
     mkWorld (w_random Stub.world0)
             (scheduler_set_timesteps 0 (w_scheduler Stub.world0))
             (w_trace Stub.world0)).
Proof.
  apply (@empty_schedule_returns_the_inputs
           Stub.float_ops Stub.collaborators Stub.cfg m_joint 1 8 8
           Stub.vae0 Stub.clip0 Stub.text0 0 Stub.kwargs0 7%Z GenNone None 1%Z
           Stub.world0).
  - simpl; auto.
  - vm_compute; repeat split; reflexivity.
  - reflexivity.
Defined.

Lemma sibling_codec_is_the_pipeline_codec_witness :
  TextVariation.split StubRuns.pair512 (4, 64, 64) 512
  = _split Stub.cfg StubRuns.pair512 512 512
  /\ TextVariation.combine Stub.vae0 Stub.clip0 = _combine Stub.vae0 Stub.clip0
  /\ TextVariation.split_joint StubRuns.pair512
     = _split_joint Stub.cfg StubRuns.pair512 512 512
  /\ TextVariation.combine_joint Stub.vae0 Stub.clip0 Stub.text0
     = _combine_joint Stub.vae0 Stub.clip0 Stub.text0.
Proof.
  apply (@sibling_codec_is_the_pipeline_codec Z Stub.cfg 512 512
           StubRuns.pair512 Stub.vae0 Stub.clip0 Stub.text0); reflexivity.
Defined.

Lemma sibling_noise_predictors_are_get_noise_pred_witness :
  bind (TextVariation.t2i_nnet 7%Z StubRuns.pair512 (mkTensor [1] [999%Z]) Stub.text0)
       (fun r => ret (Some r)) Stub.world0
  = get_noise_pred Stub.cfg m_t2i StubRuns.pair512 (mkTensor [1] [999%Z]) Stub.text0
                   Stub.vae0 Stub.clip0 N_betas 7%Z 512 512 1 Stub.world0
  /\ bind (TextVariation.i2t_nnet 7%Z StubRuns.pair512 (mkTensor [1] [999%Z])
                                  Stub.vae0 Stub.clip0)
          (fun r => ret (Some r)) Stub.world0
     = get_noise_pred Stub.cfg m_i2t StubRuns.pair512 (mkTensor [1] [999%Z]) Stub.text0
                      Stub.vae0 Stub.clip0 N_betas 7%Z 512 512 1 Stub.world0.
Proof.
  apply (@sibling_noise_predictors_are_get_noise_pred
           Stub.float_ops Stub.collaborators Stub.cfg 7%Z 512 512
           StubRuns.pair512 (mkTensor [1] [999%Z]) Stub.text0 Stub.vae0 Stub.clip0
           Stub.text0 Stub.vae0 Stub.clip0 Stub.world0); reflexivity.
Defined.

Lemma encoded_latents_are_duplicated_to_the_batch_witness :
  ImageEncoding.encode_image_vae_latents StubRuns.vae_encode_sample 1%Z
                                         Stub.vae0 1 3 GenNone Stub.world0
  = (if Nat.ltb 1 (1 * 3) then
       if Nat.eqb ((1 * 3) mod 1) 0
       then (OK (mkTensor (1 * 3 :: [4; 1; 1])
                          (concat (repeat (data (mul_scalar Stub.vae0 1%Z)) (1 * 3 / 1)))),
             mkWorld 0 (w_scheduler Stub.world0) (w_trace Stub.world0))
       else (Raise ValueError, mkWorld 0 (w_scheduler Stub.world0) (w_trace Stub.world0))
     else (OK (mul_scalar Stub.vae0 1%Z),
           mkWorld 0 (w_scheduler Stub.world0) (w_trace Stub.world0)))
  /\ ImageEncoding.encode_image_clip_latents StubRuns.image_embeds (inl Stub.vae0)
                                             1 3 GenNone Stub.world0
     = (if Nat.ltb 1 1 then
          if Nat.eqb (1 mod 1) 0
          then (OK (mkTensor (1 :: 1 :: [512])
                             (concat (repeat (data (Stub.const [1; 512] 0%Z)) (1 / 1)))),
                Stub.world0)
          else (Raise ValueError, Stub.world0)
        else (OK (mkTensor (1 :: 1 :: [512]) (data (Stub.const [1; 512] 0%Z))),
              Stub.world0)).
Proof.
  apply (@encoded_latents_are_duplicated_to_the_batch
           Stub.float_ops Stub.collaborators StubRuns.vae_encode_sample 1%Z
           StubRuns.image_embeds Stub.vae0 (inl Stub.vae0) 1 3 GenNone Stub.world0
           Stub.vae0 (Stub.const [1; 512] 0%Z) 0 1 1 [4; 1; 1] [512]);
    try reflexivity; try discriminate; lia.
Defined.

Lemma vae_and_clip_latents_disagree_on_batch_witness :
  exists v c W1,
    ImageEncoding.encode_image_vae_latents StubRuns.vae_encode_sample 1%Z
                                           Stub.vae0 1 3 GenNone Stub.world0
    = (OK v, W1)
    /\ ImageEncoding.encode_image_clip_latents StubRuns.image_embeds (inl Stub.vae0)
                                               1 3 GenNone W1
       = (OK c, W1)
    /\ shape v = 1 * 3 :: [4; 1; 1]
    /\ shape c = 1 :: 1 :: [512]
    /\ (2 <= 3 -> shape0 v <> shape0 c).
Proof.
  apply (@vae_and_clip_latents_disagree_on_batch
           Stub.float_ops Stub.collaborators StubRuns.vae_encode_sample 1%Z
           StubRuns.image_embeds Stub.vae0 (inl Stub.vae0) 1 3 GenNone Stub.world0
           Stub.vae0 (Stub.const [1; 512] 0%Z) 0 [4; 1; 1] [512]);
    try reflexivity; try discriminate; lia.
Defined.

Lemma generate_captions_returns_one_caption_witness :
  CaptionDecoder.generate_captions true (fun x => x)
                                   (fun _ => OK ["a"%string; "b"%string])
                                   (fun _ => OK "c"%string) StubRuns.text2
  = OK ["a"%string]
  /\ (forall captions,
         CaptionDecoder.generate_captions true (fun x => x)
                                          (fun _ => OK ["a"%string; "b"%string])
                                          (fun _ => OK "c"%string) StubRuns.text2
         = OK captions ->
         length captions = 1).
Proof.
  apply (@generate_captions_returns_one_caption
           Stub.float_ops true (fun x => x) (fun _ => OK ["a"%string; "b"%string])
           (fun _ => OK "c"%string) StubRuns.text2 2 [77; 64]).
  - reflexivity.
  - vm_compute; reflexivity.
Defined.


Lemma i2t_call_returns_captions_witness :
  exists out W' tr,
    __call__ Stub.cfg
             (@mkCallArgs Stub.float_ops Stub.collaborators m_i2t
                         (Some (@ImgPIL Stub.float_ops Stub.collaborators tt)) (Some (PromptStr EmptyString))
                         (Some 8) (Some 8) 2 7%Z None 1 1 1 0%Z GenNone None None None
                         None None true None (StepsInt 1)) Stub.world0
    = (OK out, W')
    /\ w_trace W' = w_trace Stub.world0 ++ tr
    /\ images out = None
    /\ texts out <> None.
Proof.
  apply (@i2t_call_returns_captions
           Stub.float_ops Stub.collaborators Stub.cfg
           (@mkCallArgs Stub.float_ops Stub.collaborators m_i2t
                         (Some (@ImgPIL Stub.float_ops Stub.collaborators tt)) (Some (PromptStr EmptyString))
                       (Some 8) (Some 8) 2 7%Z None 1 1 1 0%Z GenNone None None None
                       None None true None (StepsInt 1))
           (@ImgPIL Stub.float_ops Stub.collaborators tt)
           (@pil_to_tensor Stub.float_ops Stub.collaborators tt) 1 1 3 8 8 Stub.world0
           stub_unet_ok stub_step_ok stub_randn_ok); try reflexivity.
Defined.

Lemma guidance_noise_is_not_seeded_by_the_generator_witness :
  __call__ Stub.cfg
           (mkCallArgs m_t2i None (Some (PromptStr EmptyString)) (Some 8) (Some 8) 2 7%Z
                       None 1 1 1 0%Z GenNone (Some Stub.text0) (Some Stub.vae0)
                       (Some Stub.clip0) None None true None (StepsInt 1)) Stub.world0
  = __call__ Stub.cfg
             (mkCallArgs m_t2i None (Some (PromptStr EmptyString)) (Some 8) (Some 8) 2 7%Z
                         None 1 1 1 0%Z (GenOne 5) (Some Stub.text0) (Some Stub.vae0)
                         (Some Stub.clip0) None None true None (StepsInt 1)) Stub.world0
  /\ (forall (stage : Mode) (image_vae_latents image_clip_latents text : Tensor Z)
             (kw : StepKwargs) (h w : nat) (k : Z) (W0 : World),
         _denoising_sample_fn Stub.cfg stage image_vae_latents image_clip_latents text
                              2 kw 7%Z GenNone h w None k W0
         = _denoising_sample_fn Stub.cfg stage image_vae_latents image_clip_latents text
                                2 kw 7%Z (GenOne 5) h w None k W0).
Proof.
  apply (@guidance_noise_is_not_seeded_by_the_generator
           Stub.float_ops Stub.collaborators Stub.cfg m_t2i None
           (Some (PromptStr EmptyString)) (Some 8) (Some 8) 2 7%Z None 1 1 1 0%Z
           GenNone (GenOne 5) Stub.text0 Stub.vae0 Stub.clip0 None None true None
           (StepsInt 1) Stub.world0); try reflexivity; discriminate.
Defined.

Lemma forward_labels_are_zero_prefixed_tokens_witness :
  CaptionDecoder.forward 2 (Some 64) (fun t : Tensor Z => mkTensor [1; 2; 1] (data t))
                         (fun x => x) (fun x => x)
                         (fun (e : Tensor Z) (l : option (Tensor Z)) (m : option unit) => l)
                         (mkTensor [1; 2] [5; 6]%Z) (mkTensor [1; 1; 1] [9%Z]) None
                         (Some (mkTensor [1; 2] [7; 8]%Z))
  = OK ((fun (e : Tensor Z) (l : option (Tensor Z)) (m : option unit) => l)
          (mkTensor [1; 3; 1] [9; 5; 6]%Z)
          (Some (mkTensor [1; 2 + 2]
                          (concat (map (app (repeat 0%Z 2))
                                       (chunk 1 2 (data (mkTensor [1; 2] [5; 6]%Z)))))))
          None,
        Some (mkTensor [1; 1; 1] [9%Z])).
Proof.
  apply (@forward_labels_are_zero_prefixed_tokens
           Stub.float_ops 2 (Some 64) (fun t : Tensor Z => mkTensor [1; 2; 1] (data t))
           (fun x => x) (fun x => x) (option (Tensor Z)) unit
           (fun (e : Tensor Z) (l : option (Tensor Z)) (m : option unit) => l)
           (mkTensor [1; 2] [5; 6]%Z) (mkTensor [1; 1; 1] [9%Z]) None
           (mkTensor [1; 2] [7; 8]%Z) 1 2 (mkTensor [1; 3; 1] [9; 5; 6]%Z)).
  - split; reflexivity.
  - reflexivity.
Defined.

End ConcreteRuns.
